(** * simpleperf report-sample: symbolised sample reports

    A shallow embedding of [simpleperf/cmd_report_sample.cpp]: option
    parsing, the call-chain walk of the two sample printers, the
    length-prefixed protobuf report writer and the report dumper, with
    the properties of the report format proved over it.

    Unsigned 64-bit quantities are [Z] in [0, 2^64); the report file is a
    list of bytes; the thread tree, the generated protobuf classes and the
    C runtime are interfaces ([Class]es) that the command only calls. *)

From Stdlib Require Import ZArith List String Ascii Bool Lia.
From coqutil Require Import Byte Word.LittleEndianList.
Import ListNotations.
Local Open Scope string_scope.
Local Open Scope list_scope.
Local Open Scope Z_scope.

(** ** Machine integers and perf constants *)

Definition UINT64_MOD : Z := 2 ^ 64.
Definition UINT32_MOD : Z := 2 ^ 32.
Definition INT_MAX : Z := 2 ^ 31 - 1.

Definition is_uint64 (z : Z) : Prop := 0 <= z < UINT64_MOD.

(** [enum perf_callchain_context] of the kernel's perf_event.h, which the
    record headers include: the values are [(__u64)-4095], [(__u64)-128]
    and [(__u64)-512]. *)
Definition PERF_CONTEXT_MAX : Z := UINT64_MOD - 4095.
Definition PERF_CONTEXT_KERNEL : Z := UINT64_MOD - 128.
Definition PERF_CONTEXT_USER : Z := UINT64_MOD - 512.

(** ** Strings handed to C interfaces *)

(** [s.c_str()] read back as a C string, and a [std::string] built from a
    [const char*]: the characters before the first NUL. *)
Fixpoint c_str (s : string) : string :=
  match s with
  | EmptyString => EmptyString
  | String c rest => if Ascii.eqb c zero then EmptyString else String c (c_str rest)
  end.

(** ** Logging and indented printing (traces of the calls made) *)

Inductive Severity := DEBUG | INFO | ERROR.

Inductive LogItem :=
| LStr (s : string)     (* << "text" *)
| LNum (z : Z)          (* << integer, decimal *)
| LHex (z : Z).         (* << std::hex << integer *)

(** One [LOG(severity) << ...] or [PLOG(severity) << ...] statement. *)
Record LogEntry := mkLog { log_severity : Severity; log_items : list LogItem }.

Inductive PrintArg :=
| ArgSize (n : Z)       (* %zu *)
| ArgU64 (z : Z)        (* PRIu64 *)
| ArgX64 (z : Z)        (* PRIx64 *)
| ArgStr (s : string).  (* %s *)

(** One call [PrintIndented(indent, fmt, args...)] or
    [FprintIndented(fp, indent, fmt, args...)]. *)
Record PrintCall := mkPrint
  { pc_indent : nat; pc_fmt : string; pc_args : list PrintArg }.

(** ** Records of the capture file *)

Record SampleRecord := mkSampleRecord
  { tid_data_pid : Z;
    tid_data_tid : Z;
    time_data_time : Z;
    ip_data_ip : Z;
    InKernel : bool;
    callchain_data_ips : list Z }.

(** A decoded [Record]: a sample, or a record of another type. *)
Inductive PerfRecord :=
| SampleRec (r : SampleRecord)
| OtherRec (type : Z).

(** ** The messages of report_sample.proto *)

Module proto.
Record Sample_CallChainEntry := mkEntry
  { ip : Z; symbol : string; file : string }.
Record Sample := mkSample
  { time : Z; callchain : list Sample_CallChainEntry }.
(** [proto::Record]: the type tag and the sample payload. *)
Record Record_ := mkRecord { type : Z; sample : Sample }.
End proto.

(** ** Interfaces the command calls *)

(** thread_tree.h: the address resolver. [FindThreadOrNew] may add a
    thread, so it returns the tree as well. [Path m] is [m->dso->Path()]. *)
Class ThreadTreeOps := {
  ThreadTree : Type;
  ThreadEntry : Type;
  MapEntry : Type;
  Symbol : Type;
  ThreadTree_new : ThreadTree;
  Update : ThreadTree -> PerfRecord -> ThreadTree;
  FindThreadOrNew : ThreadTree -> Z -> Z -> ThreadTree * ThreadEntry;
  FindMap : ThreadTree -> ThreadEntry -> Z -> bool -> MapEntry;
  FindSymbol : ThreadTree -> MapEntry -> Z -> Symbol;
  DemangledName : Symbol -> string;
  Path : MapEntry -> string }.

(** report_sample.pb.h: the generated code of [proto::Record].
    [SerializeBytes r] is what [SerializeToCodedStream] hands to the
    stream; [ParseBytes bs] is [ParseFromCodedStream] run on the bytes
    inside the pushed limit, giving the message and how many of them it
    read. *)
Class ProtoCodec := {
  Record_Type_SAMPLE : Z;
  ByteSize : proto.Record_ -> Z;
  SerializeBytes : proto.Record_ -> list byte;
  ParseBytes : list byte -> option (proto.Record_ * nat) }.

(** What the command expects of the generated code: a serialised message
    has [ByteSize] bytes, at least one for a message whose type is set,
    fits a C [int], and parses back to itself, read to its last byte. *)
Class ProtoCodecOk (C : ProtoCodec) (valid : proto.Record_ -> Prop) : Prop := {
  ByteSize_length :
    forall r, valid r -> ByteSize r = Z.of_nat (List.length (SerializeBytes r));
  ByteSize_range :
    forall r, valid r -> 0 < ByteSize r <= INT_MAX;
  Parse_Serialize :
    forall r, valid r ->
      ParseBytes (SerializeBytes r) = Some (r, List.length (SerializeBytes r)) }.

(** A report file open for writing: the bytes written to it, the calls
    of [FprintIndented] made on it, and the stream's error indicator. *)
Record FILE := mkFILE
  { f_bytes : list byte; f_text : list PrintCall; f_error : bool }.

Definition FILE_empty : FILE := mkFILE [] [] false.

(** The C runtime and the record file reader. [fwrite_ok f buf] and
    [fprintf_ok f call] say whether that write to [f] succeeds. A record
    file delivers its records in order and then reports whether the data
    section was read to its end. *)
Class Runtime := {
  open_record_file : string -> option (list PerfRecord * bool);
  fopen_write : string -> bool;
  fopen_read : string -> option (list byte);
  fwrite_ok : FILE -> list byte -> bool;
  fprintf_ok : FILE -> PrintCall -> bool }.

(** ** Streams *)

Section Streams.
Context {RT : Runtime}.

(** [FprintIndented(fp, indent, fmt, ...)]: [f_text] keeps the calls made
    on the stream; a failed write sets the error indicator. *)
Definition FprintIndented (fp : FILE) (indent : nat) (fmt : string)
    (args : list PrintArg) : FILE :=
  let call := mkPrint indent fmt args in
  mkFILE (f_bytes fp) (f_text fp ++ [call])
         (f_error fp || negb (fprintf_ok fp call)).

(** [ProtobufFileWriter::Write]: one [fwrite] of the whole buffer as a
    single item, which is written or, the call failing, is not (the
    bytes a failed [fwrite] may leave behind are not modelled) and sets
    the error indicator. *)
Definition ProtobufFileWriter_Write (fp : FILE) (buffer : list byte)
    : bool * FILE :=
  if fwrite_ok fp buffer
  then (true, mkFILE (f_bytes fp ++ buffer) (f_text fp) (f_error fp))
  else (false, mkFILE (f_bytes fp) (f_text fp) true).

(** The coded output stream of [Run]: a [CodedOutputStream] over a
    [CopyingOutputStreamAdaptor] over the [ProtobufFileWriter] of the
    report file. The adaptor keeps one block of [kDefaultBlockSize]
    bytes, which the coded stream fills; [os_buffer] holds the bytes put
    in the block and not yet handed to [Write]. [HadError] is the coded
    stream's sticky flag: it is raised when the adaptor fails, and the
    adaptor's own [failed_] is raised with it. *)
Record CodedOutputStream := mkCodedOS
  { os_file : FILE; os_buffer : list byte; HadError : bool }.

Definition kDefaultBlockSize : nat := Z.to_nat 8192.

(** [CopyingOutputStreamAdaptor::WriteBuffer]: nothing once it has
    failed, nothing to do for an empty block; otherwise the block goes
    to [Write] in one piece and is empty again, or is lost with the
    failure. *)
Definition WriteBuffer (os : CodedOutputStream) : bool * CodedOutputStream :=
  if HadError os then (false, os)
  else match os_buffer os with
       | [] => (true, os)
       | _ :: _ =>
           let (ok, fp) := ProtobufFileWriter_Write (os_file os) (os_buffer os) in
           (ok, mkCodedOS fp [] (negb ok))
       end.

(** The loop of [CodedOutputStream::WriteRaw]: data that fits the room
    left in the block is copied there; otherwise the block is filled,
    [Refresh()] makes the adaptor hand it to [Write], and the loop goes
    on with the rest and an empty block, or stops when that failed.
    Every turn but the first takes a whole block from [data], so [fuel]
    above its length is never used up. *)
Fixpoint WriteRaw_loop (fuel : nat) (data : list byte)
    (os : CodedOutputStream) : CodedOutputStream :=
  let room := (kDefaultBlockSize - List.length (os_buffer os))%nat in
  if (List.length data <=? room)%nat then
    mkCodedOS (os_file os) (os_buffer os ++ data) (HadError os)
  else
    match fuel with
    | O => os
    | S fuel' =>
        let (ok, os') :=
          WriteBuffer (mkCodedOS (os_file os)
                         (os_buffer os ++ firstn room data) (HadError os)) in
        if ok then WriteRaw_loop fuel' (skipn room data) os' else os'
    end.

(** [WriteRaw(buffer, size)]; a stream in error has no room and takes
    nothing. *)
Definition WriteRaw (buffer : list byte) (os : CodedOutputStream)
    : CodedOutputStream :=
  if HadError os then os
  else WriteRaw_loop (S (List.length buffer)) buffer os.

(** The bytes a stream without error has taken so far: those handed
    to the file and those still in the block. *)
Definition stream_bytes (os : CodedOutputStream) : list byte :=
  f_bytes (os_file os) ++ os_buffer os.

(** [tracks os bytes]: [bytes] is what the stream was given. A stream
    without error has taken them all; after an error the file holds
    some of the first of them and nothing else. *)
Definition tracks (os : CodedOutputStream) (bytes : list byte) : Prop :=
  if HadError os
  then exists lost, bytes = f_bytes (os_file os) ++ lost
  else stream_bytes os = bytes.

(** [WriteLittleEndian32(value)]: the low 32 bits, least significant
    byte first. *)
Definition WriteLittleEndian32 (value : Z) (os : CodedOutputStream)
    : CodedOutputStream :=
  WriteRaw (le_split 4 (value mod UINT32_MOD)) os.

(** [ReadLittleEndian32(&size)] on the bytes not yet read: fails when
    fewer than four are left. The coded input stream is the list of bytes
    of the file; the library's cap on the total it lets through one
    stream is not modelled. *)
Definition ReadLittleEndian32 (coded_is : list byte)
    : option (Z * list byte) :=
  match coded_is with
  | b0 :: b1 :: b2 :: b3 :: rest => Some (le_combine [b0; b1; b2; b3], rest)
  | _ => None
  end.

Context {PC : ProtoCodec}.

(** [proto_record.SerializeToCodedStream(os)]. *)
Definition SerializeToCodedStream (r : proto.Record_)
    (os : CodedOutputStream) : bool * CodedOutputStream :=
  let os' := WriteRaw (SerializeBytes r) os in
  (negb (HadError os'), os').
End Streams.

(** ** The command *)

(** The members set by [ParseOptions]. *)
Record Options := mkOptions
  { dump_protobuf_report_file_ : string;
    record_filename_ : string;
    report_filename_ : string;
    use_protobuf_ : bool;
    show_callchain_ : bool }.

(** The members as the constructor leaves them. *)
Definition Options_init : Options :=
  mkOptions "" "perf.data" "" false false.

Definition unexpected_perf_context (ip : Z) : LogEntry :=
  mkLog DEBUG [LStr "Unexpected perf_context in callchain: "; LHex ip].

Section Command.
Context {TT : ThreadTreeOps} {PC : ProtoCodec} {RT : Runtime}.

(** The members that change while records are processed, with the
    messages logged so far. [report_fp_] is the one stream both the
    text printer and the coded output stream write to;
    [coded_os_buffer] and [coded_os_HadError] are the block and the
    flag of the stream [coded_os_] points to. *)
Record State := mkState
  { thread_tree_ : ThreadTree;
    report_fp_ : FILE;
    coded_os_buffer : list byte;
    coded_os_HadError : bool;
    sample_count_ : Z;
    log_ : list LogEntry }.

Definition coded_os_ (st : State) : CodedOutputStream :=
  mkCodedOS (report_fp_ st) (coded_os_buffer st) (coded_os_HadError st).

Definition set_coded_os (st : State) (os : CodedOutputStream) : State :=
  mkState (thread_tree_ st) (os_file os) (os_buffer os) (HadError os)
          (sample_count_ st) (log_ st).

Definition set_report_fp (st : State) (fp : FILE) : State :=
  mkState (thread_tree_ st) fp (coded_os_buffer st) (coded_os_HadError st)
          (sample_count_ st) (log_ st).

Definition set_thread_tree (st : State) (t : ThreadTree) : State :=
  mkState t (report_fp_ st) (coded_os_buffer st) (coded_os_HadError st)
          (sample_count_ st) (log_ st).

Definition add_log (st : State) (e : LogEntry) : State :=
  mkState (thread_tree_ st) (report_fp_ st) (coded_os_buffer st)
          (coded_os_HadError st) (sample_count_ st) (log_ st ++ [e]).

(** The entry of one resolved address: [set_ip], [set_symbol] from the
    C string [DemangledName()], [set_file] from [map->dso->Path()]. *)
Definition resolve_entry (tree : ThreadTree) (thread : ThreadEntry)
    (ip : Z) (in_kernel : bool) : proto.Sample_CallChainEntry :=
  let map := FindMap tree thread ip in_kernel in
  let symbol := FindSymbol tree map ip in
  proto.mkEntry ip (c_str (DemangledName symbol)) (Path map).

(** The loop of [PrintSampleRecordInProtobuf] over [ips]: [in_kernel]
    and [first_ip] are the loop's locals, [chain] the entries added so
    far, [log] the messages logged so far. *)
Fixpoint protobuf_callchain_loop (tree : ThreadTree) (thread : ThreadEntry)
    (sample_ip : Z) (ips : list Z) (in_kernel first_ip : bool)
    (chain : list proto.Sample_CallChainEntry) (log : list LogEntry)
    : list proto.Sample_CallChainEntry * list LogEntry :=
  match ips with
  | [] => (chain, log)
  | ip :: rest =>
      if PERF_CONTEXT_MAX <=? ip then
        if ip =? PERF_CONTEXT_KERNEL then
          protobuf_callchain_loop tree thread sample_ip rest true first_ip chain log
        else if ip =? PERF_CONTEXT_USER then
          protobuf_callchain_loop tree thread sample_ip rest false first_ip chain log
        else
          protobuf_callchain_loop tree thread sample_ip rest in_kernel first_ip chain
            (log ++ [unexpected_perf_context ip])
      else if first_ip && (ip =? sample_ip) then
        protobuf_callchain_loop tree thread sample_ip rest in_kernel false chain log
      else
        protobuf_callchain_loop tree thread sample_ip rest in_kernel false
          (chain ++ [resolve_entry tree thread ip in_kernel]) log
  end.

(** Lines 268-315 of [PrintSampleRecordInProtobuf]: the message built
    for a sample, the tree after [FindThreadOrNew], and the messages
    logged on the way. *)
Definition build_proto_record (show_callchain : bool) (tree : ThreadTree)
    (r : SampleRecord) : proto.Record_ * ThreadTree * list LogEntry :=
  let in_kernel := InKernel r in
  let (tree', thread) :=
    FindThreadOrNew tree (tid_data_pid r) (tid_data_tid r) in
  let leaf := resolve_entry tree' thread (ip_data_ip r) in_kernel in
  let (chain, log) :=
    if show_callchain
    then protobuf_callchain_loop tree' thread (ip_data_ip r)
           (callchain_data_ips r) in_kernel true [leaf] []
    else ([leaf], []) in
  (proto.mkRecord Record_Type_SAMPLE (proto.mkSample (time_data_time r) chain),
   tree', log).

Definition PrintSampleRecordInProtobuf (opts : Options) (st : State)
    (r : SampleRecord) : bool * State :=
  let '(proto_record, tree', log) :=
    build_proto_record (show_callchain_ opts) (thread_tree_ st) r in
  let st1 := mkState tree' (report_fp_ st) (coded_os_buffer st)
               (coded_os_HadError st) (sample_count_ st) (log_ st ++ log) in
  let os1 := WriteLittleEndian32 (ByteSize proto_record) (coded_os_ st1) in
  let (ok, os2) := SerializeToCodedStream proto_record os1 in
  if ok then (true, set_coded_os st1 os2)
  else (false, add_log (set_coded_os st1 os2)
                 (mkLog ERROR [LStr "failed to write sample to protobuf"])).

(** The three lines printed for one address. *)
Definition print_entry (fp : FILE) (indent : nat)
    (tree : ThreadTree) (thread : ThreadEntry) (ip : Z) (in_kernel : bool)
    : FILE :=
  let map := FindMap tree thread ip in_kernel in
  let symbol := FindSymbol tree map ip in
  let fp := FprintIndented fp indent "ip: %PRIx64\n" [ArgX64 ip] in
  let fp := FprintIndented fp indent "dso: %s\n" [ArgStr (c_str (Path map))] in
  FprintIndented fp indent "symbol: %s\n" [ArgStr (c_str (DemangledName symbol))].

(** The loop of [PrintSampleRecord] over [ips]. *)
Fixpoint text_callchain_loop (tree : ThreadTree) (thread : ThreadEntry)
    (sample_ip : Z) (ips : list Z) (in_kernel first_ip : bool)
    (fp : FILE) (log : list LogEntry) : FILE * list LogEntry :=
  match ips with
  | [] => (fp, log)
  | ip :: rest =>
      if PERF_CONTEXT_MAX <=? ip then
        if ip =? PERF_CONTEXT_KERNEL then
          text_callchain_loop tree thread sample_ip rest true first_ip fp log
        else if ip =? PERF_CONTEXT_USER then
          text_callchain_loop tree thread sample_ip rest false first_ip fp log
        else
          text_callchain_loop tree thread sample_ip rest in_kernel first_ip fp
            (log ++ [unexpected_perf_context ip])
      else if first_ip && (ip =? sample_ip) then
        text_callchain_loop tree thread sample_ip rest in_kernel false fp log
      else
        text_callchain_loop tree thread sample_ip rest in_kernel false
          (print_entry fp 2 tree thread ip in_kernel) log
  end.

Definition PrintSampleRecord (opts : Options) (st : State)
    (r : SampleRecord) : bool * State :=
  let in_kernel := InKernel r in
  let (tree', thread) :=
    FindThreadOrNew (thread_tree_ st) (tid_data_pid r) (tid_data_tid r) in
  let fp := FprintIndented (report_fp_ st) 0 "sample:\n" [] in
  let fp := FprintIndented fp 1 "time: %PRIu64\n" [ArgU64 (time_data_time r)] in
  let fp := print_entry fp 1 tree' thread (ip_data_ip r) in_kernel in
  let (fp, log) :=
    if show_callchain_ opts then
      let fp := FprintIndented fp 1 "callchain:\n" [] in
      text_callchain_loop tree' thread (ip_data_ip r)
        (callchain_data_ips r) in_kernel true fp []
    else (fp, []) in
  (true, mkState tree' fp (coded_os_buffer st) (coded_os_HadError st)
           (sample_count_ st) (log_ st ++ log)).

Definition ProcessRecord (opts : Options) (st : State) (record : PerfRecord)
    : bool * State :=
  let st := set_thread_tree st (Update (thread_tree_ st) record) in
  match record with
  | SampleRec r =>
      let st := mkState (thread_tree_ st) (report_fp_ st)
                  (coded_os_buffer st) (coded_os_HadError st)
                  ((sample_count_ st + 1) mod UINT64_MOD) (log_ st) in
      if use_protobuf_ opts
      then PrintSampleRecordInProtobuf opts st r
      else PrintSampleRecord opts st r
  | OtherRec _ => (true, st)
  end.

(** [ReadDataSection(callback)]: the callback on every record in order,
    stopping at the first that returns false; [read_ok] is whether the
    reader itself got to the end of the data section. *)
Fixpoint ReadDataSection (opts : Options) (records : list PerfRecord)
    (read_ok : bool) (st : State) : bool * State :=
  match records with
  | [] => (read_ok, st)
  | record :: rest =>
      let (ok, st') := ProcessRecord opts st record in
      if ok then ReadDataSection opts rest read_ok st' else (false, st')
  end.
End Command.

(** ** Option parsing *)

Definition set_dump_protobuf_report_file (o : Options) (v : string) :=
  mkOptions v (record_filename_ o) (report_filename_ o)
            (use_protobuf_ o) (show_callchain_ o).
Definition set_record_filename (o : Options) (v : string) :=
  mkOptions (dump_protobuf_report_file_ o) v (report_filename_ o)
            (use_protobuf_ o) (show_callchain_ o).
Definition set_report_filename (o : Options) (v : string) :=
  mkOptions (dump_protobuf_report_file_ o) (record_filename_ o) v
            (use_protobuf_ o) (show_callchain_ o).
Definition set_use_protobuf (o : Options) :=
  mkOptions (dump_protobuf_report_file_ o) (record_filename_ o)
            (report_filename_ o) true (show_callchain_ o).
Definition set_show_callchain (o : Options) :=
  mkOptions (dump_protobuf_report_file_ o) (record_filename_ o)
            (report_filename_ o) (use_protobuf_ o) true.

(** Modelled from the spec: [NextArgumentOrError] and
    [ReportUnknownOption] are declared in command.h, which is not among
    the sources. An option that takes a value reads the next argument; it
    is an error, logged with the option, when there is none, and an
    unknown option is an error as well. *)
Definition no_argument_following (arg : string) : LogEntry :=
  mkLog ERROR [LStr "No argument following "; LStr arg; LStr " option."].
Definition unknown_option (arg : string) : LogEntry :=
  mkLog ERROR [LStr "Unknown option for report-sample command: "; LStr arg].

Definition missing_report_filename : LogEntry :=
  mkLog ERROR [LStr "please specify a report filename to write protobuf data"].

(** The [for] loop of [ParseOptions] over the arguments not yet read.
    An option that takes a value reads the next argument
    ([NextArgumentOrError] steps [i] to it, or fails when there is none). *)
Fixpoint ParseOptions_loop (args : list string) (o : Options)
    : Options + LogEntry :=
  match args with
  | [] => inl o
  | arg :: rest =>
      if (arg =? "--dump-protobuf-report")%string then
        match rest with
        | [] => inr (no_argument_following arg)
        | value :: rest' =>
            ParseOptions_loop rest' (set_dump_protobuf_report_file o value)
        end
      else if (arg =? "-i")%string then
        match rest with
        | [] => inr (no_argument_following arg)
        | value :: rest' => ParseOptions_loop rest' (set_record_filename o value)
        end
      else if (arg =? "-o")%string then
        match rest with
        | [] => inr (no_argument_following arg)
        | value :: rest' => ParseOptions_loop rest' (set_report_filename o value)
        end
      else if (arg =? "--protobuf")%string then
        ParseOptions_loop rest (set_use_protobuf o)
      else if (arg =? "--show-callchain")%string then
        ParseOptions_loop rest (set_show_callchain o)
      else inr (unknown_option arg)
  end.

(** [ParseOptions]: the options when it returns true, the message it
    logged when it returns false. *)
Definition ParseOptions (args : list string) : Options + LogEntry :=
  match ParseOptions_loop args Options_init with
  | inr e => inr e
  | inl o =>
      if use_protobuf_ o && (report_filename_ o =? "")%string
      then inr missing_report_filename
      else inl o
  end.

(** ** The report dumper *)

(** What [DumpProtobufReport] leaves behind: the calls to [PrintIndented]
    on stdout, the log, and the function's static [sample_count]. *)
Record DumpState := mkDumpState
  { d_stdout : list PrintCall;
    d_log : list LogEntry;
    d_sample_count : Z }.

Definition failed_to_read (filename : string) : LogEntry :=
  mkLog ERROR [LStr "failed to read "; LStr filename].
Definition failed_to_open (filename : string) : LogEntry :=
  mkLog ERROR [LStr "failed to open "; LStr filename].
Definition unexpected_record_type (type : Z) : LogEntry :=
  mkLog ERROR [LStr "unexpected record type "; LNum type].

(** The three lines printed for one entry of a decoded call chain. *)
Definition dump_entry (e : proto.Sample_CallChainEntry) : list PrintCall :=
  [ mkPrint 2 "ip: %PRIx64\n" [ArgX64 (proto.ip e)];
    mkPrint 2 "dso: %s\n" [ArgStr (c_str (proto.file e))];
    mkPrint 2 "symbol: %s\n" [ArgStr (c_str (proto.symbol e))] ].

(** Lines 237-247: the block printed for a decoded sample, [count] being
    the value of [++sample_count]. *)
Definition dump_sample (count : Z) (s : proto.Sample) : list PrintCall :=
  [ mkPrint 0 "sample %zu:\n" [ArgSize count];
    mkPrint 1 "time: %PRIu64\n" [ArgU64 (proto.time s)];
    mkPrint 1 "callchain:\n" [] ]
  ++ flat_map dump_entry (proto.callchain s).

Section Dump.
Context {PC : ProtoCodec} {RT : Runtime}.

(** The [while (true)] loop of [DumpProtobufReport] on the bytes of the
    file not yet read. Every turn reads at least the four bytes of a
    length, so [fuel] above the length of the file is never used up;
    [None] is the loop out of fuel. *)
Fixpoint DumpProtobufReport_loop (fuel : nat) (filename : string)
    (coded_is : list byte) (st : DumpState) : option (bool * DumpState) :=
  match fuel with
  | O => None
  | S fuel' =>
      match ReadLittleEndian32 coded_is with
      | None =>
          Some (false, mkDumpState (d_stdout st)
                         (d_log st ++ [failed_to_read filename])
                         (d_sample_count st))
      | Some (size, coded_is) =>
          if size =? 0 then Some (true, st)
          else
            (* PushLimit(size) ... PopLimit(limit) *)
            match ParseBytes (firstn (Z.to_nat size) coded_is) with
            | None =>
                Some (false, mkDumpState (d_stdout st)
                               (d_log st ++ [failed_to_read filename])
                               (d_sample_count st))
            | Some (proto_record, consumed) =>
                let coded_is := skipn consumed coded_is in
                if negb (proto.type proto_record =? Record_Type_SAMPLE) then
                  Some (false, mkDumpState (d_stdout st)
                    (d_log st ++ [unexpected_record_type (proto.type proto_record)])
                    (d_sample_count st))
                else
                  let count := (d_sample_count st + 1) mod UINT64_MOD in
                  DumpProtobufReport_loop fuel' filename coded_is
                    (mkDumpState
                       (d_stdout st ++ dump_sample count (proto.sample proto_record))
                       (d_log st) count)
            end
      end
  end.

Definition DumpProtobufReport (filename : string) (st : DumpState)
    : option (bool * DumpState) :=
  match fopen_read filename with
  | None =>
      Some (false, mkDumpState (d_stdout st)
                     (d_log st ++ [failed_to_open filename])
                     (d_sample_count st))
  | Some contents =>
      DumpProtobufReport_loop (S (List.length contents)) filename contents st
  end.
End Dump.

(** ** Run *)

Section Run.
Context {TT : ThreadTreeOps} {PC : ProtoCodec} {RT : Runtime}.

(** What one call of [Run] did: its result, the files it tried to open
    (in order), the command's members and log with the report file as
    the run leaves it, and what the dumper printed. *)
Record Outcome := mkOutcome
  { result : bool;
    opened : list string;
    final : State;
    dumped : DumpState }.

Definition State_init : State :=
  mkState ThreadTree_new FILE_empty [] false 0 [].

(** The destructors that run when [Run] returns in binary mode, its
    result fixed: the coded stream gives the unused part of the block
    back, the adaptor hands what the block holds to [Write]
    ([WriteBuffer()], whose result nobody looks at), and the file is
    closed. *)
Definition destroy_streams (st : State) : State :=
  let os := snd (WriteBuffer (coded_os_ st)) in
  mkState (thread_tree_ st) (os_file os) [] (coded_os_HadError st)
          (sample_count_ st) (log_ st).

Definition report_samples_in_all (count : Z) : LogEntry :=
  mkLog INFO [LStr "report "; LNum count; LStr " samples in all."].

(** [process] is what earlier calls in the same process left behind:
    stdout and the dumper's static counter. The streams of step 3 are
    locals of [Run]: in binary mode every return after that step goes
    through [destroy_streams]. *)
Definition Run (args : list string) (process : DumpState) : option Outcome :=
  (* 1. Parse options. *)
  match ParseOptions args with
  | inr e => Some (mkOutcome false [] (add_log State_init e) process)
  | inl o =>
    if negb (dump_protobuf_report_file_ o =? "")%string then
      match DumpProtobufReport (dump_protobuf_report_file_ o) process with
      | None => None
      | Some (ok, process') =>
          Some (mkOutcome ok [dump_protobuf_report_file_ o] State_init process')
      end
    else
    (* 2. Open record file. *)
    match open_record_file (record_filename_ o) with
    | None => Some (mkOutcome false [record_filename_ o] State_init process)
    | Some (records, read_ok) =>
      (* 3. Prepare report output stream. *)
      let files :=
        if (report_filename_ o =? "")%string then [record_filename_ o]
        else [record_filename_ o; report_filename_ o] in
      if negb (report_filename_ o =? "")%string
         && negb (fopen_write (report_filename_ o))
      then Some (mkOutcome false files
                   (add_log State_init (failed_to_open (report_filename_ o)))
                   process)
      else
      (* 4. Read record file, and print samples online. *)
      let (ok, st) := ReadDataSection o records read_ok State_init in
      if negb ok then
        Some (mkOutcome false files
                (if use_protobuf_ o then destroy_streams st else st) process)
      else
      let st := add_log st (report_samples_in_all (sample_count_ st)) in
      if use_protobuf_ o then
        let st := set_coded_os st (WriteLittleEndian32 0 (coded_os_ st)) in
        if coded_os_HadError st then
          Some (mkOutcome false files
                  (destroy_streams
                     (add_log st (mkLog ERROR [LStr "print protobuf report failed"])))
                  process)
        else if f_error (report_fp_ st) then
          Some (mkOutcome false files
                  (destroy_streams
                     (add_log st (mkLog ERROR [LStr "print report failed"])))
                  process)
        else Some (mkOutcome true files (destroy_streams st) process)
      else
        if f_error (report_fp_ st) then
          Some (mkOutcome false files
                  (add_log st (mkLog ERROR [LStr "print report failed"])) process)
        else Some (mkOutcome true files st process)
    end
  end.
End Run.

(** ** A codec: the protobuf wire format of report_sample.proto *)

(** Modelled from the spec: report_sample.proto and the code generated
    from it are not among the sources. The messages are those of the
    spec's wire-format section ([type], [sample] with [time] and
    [callchain], entries with [ip], [symbol], [file]), numbered in the
    order the command sets them, the type tag read as the integer on the
    wire, and written in the protobuf encoding: a varint key
    [field * 8 + wire_type] before each field, varints for integers,
    a varint length before strings and nested messages. It is the
    instance at which the interface [ProtoCodec] is exercised. *)
Module Wire.

Definition SAMPLE : Z := 1.

(** Base-128 varint, least significant group first. *)
Fixpoint varint (fuel : nat) (n : Z) : list byte :=
  match fuel with
  | O => []
  | S fuel' =>
      if n <? 128 then [byte.of_Z n]
      else byte.of_Z (n mod 128 + 128) :: varint fuel' (n / 128)
  end.

Definition WriteVarint64 (n : Z) : list byte := varint 10 n.

Fixpoint read_varint (fuel : nat) (bs : list byte) : option (Z * list byte) :=
  match fuel, bs with
  | S fuel', b :: rest =>
      let v := byte.unsigned b in
      if v <? 128 then Some (v, rest)
      else match read_varint fuel' rest with
           | Some (hi, rest') => Some (v - 128 + 128 * hi, rest')
           | None => None
           end
  | _, _ => None
  end.

Definition ReadVarint64 (bs : list byte) : option (Z * list byte) :=
  match read_varint 10 bs with
  | Some (v, rest) => Some (v mod UINT64_MOD, rest)
  | None => None
  end.

(** A length-delimited field body. *)
Definition WriteBytes (body : list byte) : list byte :=
  WriteVarint64 (Z.of_nat (List.length body)) ++ body.

Definition ReadBytes (bs : list byte) : option (list byte * list byte) :=
  match ReadVarint64 bs with
  | Some (len, rest) =>
      if len <=? Z.of_nat (List.length rest)
      then Some (firstn (Z.to_nat len) rest, skipn (Z.to_nat len) rest)
      else None
  | None => None
  end.

(** Skipping a field the message does not declare, by wire type:
    varint, 64-bit, length-delimited, 32-bit. Groups are rejected. *)
Definition SkipField (key : Z) (bs : list byte) : option (list byte) :=
  let wire_type := key mod 8 in
  if wire_type =? 0 then
    match ReadVarint64 bs with Some (_, rest) => Some rest | None => None end
  else if wire_type =? 1 then
    if (8 <=? List.length bs)%nat then Some (skipn 8 bs) else None
  else if wire_type =? 2 then
    match ReadBytes bs with Some (_, rest) => Some rest | None => None end
  else if wire_type =? 5 then
    if (4 <=? List.length bs)%nat then Some (skipn 4 bs) else None
  else None.

(** *** Sample.CallChainEntry *)

Definition serialize_entry (e : proto.Sample_CallChainEntry) : list byte :=
  byte.of_Z 8 :: WriteVarint64 (proto.ip e)
  ++ byte.of_Z 18 :: WriteBytes (list_byte_of_string (proto.symbol e))
  ++ byte.of_Z 26 :: WriteBytes (list_byte_of_string (proto.file e)).

Fixpoint parse_entry (fuel : nat) (bs : list byte)
    (e : proto.Sample_CallChainEntry) : option proto.Sample_CallChainEntry :=
  match fuel with
  | O => None
  | S fuel' =>
      match bs with
      | [] => Some e
      | _ =>
          match ReadVarint64 bs with
          | None => None
          | Some (key, bs) =>
              if key =? 8 then
                match ReadVarint64 bs with
                | Some (v, bs) =>
                    parse_entry fuel' bs
                      (proto.mkEntry v (proto.symbol e) (proto.file e))
                | None => None
                end
              else if key =? 18 then
                match ReadBytes bs with
                | Some (s, bs) =>
                    parse_entry fuel' bs
                      (proto.mkEntry (proto.ip e) (string_of_list_byte s) (proto.file e))
                | None => None
                end
              else if key =? 26 then
                match ReadBytes bs with
                | Some (s, bs) =>
                    parse_entry fuel' bs
                      (proto.mkEntry (proto.ip e) (proto.symbol e) (string_of_list_byte s))
                | None => None
                end
              else if key / 8 =? 0 then None
              else
                match SkipField key bs with
                | Some bs => parse_entry fuel' bs e
                | None => None
                end
          end
      end
  end.

Definition entry_default : proto.Sample_CallChainEntry :=
  proto.mkEntry 0 "" "".

(** *** Sample *)

Definition serialize_sample (s : proto.Sample) : list byte :=
  byte.of_Z 8 :: WriteVarint64 (proto.time s)
  ++ flat_map (fun e => byte.of_Z 18 :: WriteBytes (serialize_entry e))
       (proto.callchain s).

Fixpoint parse_sample (fuel : nat) (bs : list byte) (s : proto.Sample)
    : option proto.Sample :=
  match fuel with
  | O => None
  | S fuel' =>
      match bs with
      | [] => Some s
      | _ =>
          match ReadVarint64 bs with
          | None => None
          | Some (key, bs) =>
              if key =? 8 then
                match ReadVarint64 bs with
                | Some (v, bs) =>
                    parse_sample fuel' bs (proto.mkSample v (proto.callchain s))
                | None => None
                end
              else if key =? 18 then
                match ReadBytes bs with
                | Some (body, bs) =>
                    match parse_entry (S (List.length body)) body entry_default with
                    | Some e =>
                        parse_sample fuel' bs
                          (proto.mkSample (proto.time s) (proto.callchain s ++ [e]))
                    | None => None
                    end
                | None => None
                end
              else if key / 8 =? 0 then None
              else
                match SkipField key bs with
                | Some bs => parse_sample fuel' bs s
                | None => None
                end
          end
      end
  end.

Definition sample_default : proto.Sample := proto.mkSample 0 [].

(** *** Record *)

Definition serialize_record (r : proto.Record_) : list byte :=
  byte.of_Z 8 :: WriteVarint64 (proto.type r)
  ++ byte.of_Z 18 :: WriteBytes (serialize_sample (proto.sample r)).

(** The top-level parse stops at the end of the limit or at a zero key
    and says how many bytes it read ([total] is the number of bytes
    inside the limit). *)
Fixpoint parse_record (fuel : nat) (total : nat) (bs : list byte)
    (r : proto.Record_) : option (proto.Record_ * nat) :=
  match fuel with
  | O => None
  | S fuel' =>
      match bs with
      | [] => Some (r, total)
      | _ =>
          match ReadVarint64 bs with
          | None => None
          | Some (key, bs) =>
              if key =? 0 then Some (r, (total - List.length bs)%nat)
              else if key =? 8 then
                match ReadVarint64 bs with
                | Some (v, bs) =>
                    parse_record fuel' total bs (proto.mkRecord v (proto.sample r))
                | None => None
                end
              else if key =? 18 then
                match ReadBytes bs with
                | Some (body, bs) =>
                    match parse_sample (S (List.length body)) body (proto.sample r) with
                    | Some s =>
                        parse_record fuel' total bs (proto.mkRecord (proto.type r) s)
                    | None => None
                    end
                | None => None
                end
              else if key / 8 =? 0 then None
              else
                match SkipField key bs with
                | Some bs => parse_record fuel' total bs r
                | None => None
                end
          end
      end
  end.

Definition record_default : proto.Record_ := proto.mkRecord 0 sample_default.

Definition ParseFromCodedStream (bs : list byte) : option (proto.Record_ * nat) :=
  parse_record (S (List.length bs)) (List.length bs) bs record_default.

(** The messages that can be written: 64-bit integers, and a
    serialised size that fits a C [int]. *)
Definition entry_valid (e : proto.Sample_CallChainEntry) : Prop :=
  is_uint64 (proto.ip e).

Definition valid (r : proto.Record_) : Prop :=
  is_uint64 (proto.type r) /\
  is_uint64 (proto.time (proto.sample r)) /\
  Forall entry_valid (proto.callchain (proto.sample r)) /\
  Z.of_nat (List.length (serialize_record r)) <= INT_MAX.

(** A byte string whose length fits 64 bits. *)
Definition small (bs : list byte) : Prop :=
  Z.of_nat (List.length bs) < UINT64_MOD.

(** An entry whose parts can all be written. *)
Definition entry_ok (e : proto.Sample_CallChainEntry) : Prop :=
  is_uint64 (proto.ip e)
  /\ small (list_byte_of_string (proto.symbol e))
  /\ small (list_byte_of_string (proto.file e))
  /\ small (serialize_entry e).

(** A call-chain entry as a field of its sample. *)
Definition entry_frame (e : proto.Sample_CallChainEntry) : list byte :=
  byte.of_Z 18 :: WriteBytes (serialize_entry e).

#[export] Instance codec : ProtoCodec :=
  {| Record_Type_SAMPLE := SAMPLE;
     ByteSize := fun r => Z.of_nat (List.length (serialize_record r));
     SerializeBytes := serialize_record;
     ParseBytes := ParseFromCodedStream |}.

End Wire.

(** ** The call-chain walk as the specification words it *)

Definition is_sentinel (ip : Z) : bool := PERF_CONTEXT_MAX <=? ip.
Definition is_context_marker (ip : Z) : bool :=
  (ip =? PERF_CONTEXT_KERNEL) || (ip =? PERF_CONTEXT_USER).

(** The execution context in force after the values [before]: that of
    the last kernel or user marker among them, the sample's own when
    there is none. *)
Definition context_after (initial : bool) (before : list Z) : bool :=
  match find is_context_marker (rev before) with
  | Some marker => marker =? PERF_CONTEXT_KERNEL
  | None => initial
  end.

(** A value is the first candidate when only sentinels precede it. *)
Definition first_candidate (before : list Z) : bool :=
  forallb is_sentinel before.

(** The frame, if any, that the value [ip] met after [before] yields: the
    address and the context it is resolved under. *)
Definition emitted_at (sample_ip : Z) (initial : bool) (before : list Z)
    (ip : Z) : list (Z * bool) :=
  if is_sentinel ip then []
  else if first_candidate before && (ip =? sample_ip) then []
  else [(ip, context_after initial before)].

Fixpoint classify_from (sample_ip : Z) (initial : bool) (before ips : list Z)
    : list (Z * bool) :=
  match ips with
  | [] => []
  | ip :: rest =>
      emitted_at sample_ip initial before ip
      ++ classify_from sample_ip initial (before ++ [ip]) rest
  end.

Definition classify (sample_ip : Z) (initial : bool) (ips : list Z)
    : list (Z * bool) :=
  classify_from sample_ip initial [] ips.

(** The sentinels that are neither marker: each is logged. *)
Definition unexpected_contexts (ips : list Z) : list LogEntry :=
  map unexpected_perf_context
    (filter (fun ip => is_sentinel ip && negb (is_context_marker ip)) ips).

(** ** Blocks of text *)

(** The three lines of one frame, at [indent]. *)
Definition entry_lines (indent : nat) (e : proto.Sample_CallChainEntry)
    : list PrintCall :=
  [ mkPrint indent "ip: %PRIx64\n" [ArgX64 (proto.ip e)];
    mkPrint indent "dso: %s\n" [ArgStr (c_str (proto.file e))];
    mkPrint indent "symbol: %s\n" [ArgStr (c_str (proto.symbol e))] ].

(** The block text mode prints for a sample whose frames are [chain]. *)
Definition text_block (show_callchain : bool) (time : Z)
    (chain : list proto.Sample_CallChainEntry) : list PrintCall :=
  [ mkPrint 0 "sample:\n" []; mkPrint 1 "time: %PRIu64\n" [ArgU64 time] ]
  ++ flat_map (entry_lines 1) (firstn 1 chain)
  ++ (if show_callchain
      then mkPrint 1 "callchain:\n" [] :: flat_map (entry_lines 2) (skipn 1 chain)
      else []).

(** The lines of a block that carry a field of the sample (timestamp,
    address, module, symbol), without their indentation. *)
Definition is_field_line (c : PrintCall) : bool :=
  (pc_fmt c =? "time: %PRIu64\n")%string || (pc_fmt c =? "ip: %PRIx64\n")%string
  || (pc_fmt c =? "dso: %s\n")%string || (pc_fmt c =? "symbol: %s\n")%string.

Definition field_lines (calls : list PrintCall)
    : list (string * list PrintArg) :=
  map (fun c => (pc_fmt c, pc_args c)) (filter is_field_line calls).

(** The blocks the dumper prints for [samples] when its counter stands
    at [count]. *)
Fixpoint dump_blocks (count : Z) (samples : list proto.Sample)
    : list PrintCall :=
  match samples with
  | [] => []
  | s :: rest =>
      let count := (count + 1) mod UINT64_MOD in
      dump_sample count s ++ dump_blocks count rest
  end.

(** The counter after [n] more samples. *)
Fixpoint advance_count (count : Z) (n : nat) : Z :=
  match n with
  | O => count
  | S n' => advance_count ((count + 1) mod UINT64_MOD) n'
  end.

(** The dumper's state after it has printed [samples]. *)
Definition dumped_state (st : DumpState) (samples : list proto.Sample)
    : DumpState :=
  mkDumpState (d_stdout st ++ dump_blocks (d_sample_count st) samples)
              (d_log st)
              (advance_count (d_sample_count st) (List.length samples)).

(** The dumper's state when it fails with the message [e]. *)
Definition dump_failed (st : DumpState) (e : LogEntry) : DumpState :=
  mkDumpState (d_stdout st) (d_log st ++ [e]) (d_sample_count st).

(** ** The report file *)

Section Report.
Context {TT : ThreadTreeOps} {PC : ProtoCodec}.

(** A classified value resolved: the frame of the address under the
    context it was met in. *)
Definition resolve_frame (tree : ThreadTree) (thread : ThreadEntry)
    (f : Z * bool) : proto.Sample_CallChainEntry :=
  resolve_entry tree thread (fst f) (snd f).

(** The frames of a sample as the specification words them: the leaf
    under the sample's own flag, then, when call chains are shown, the
    classified values of the raw call chain in order. *)
Definition sample_chain (show_callchain : bool) (tree : ThreadTree)
    (r : SampleRecord) : list proto.Sample_CallChainEntry :=
  let (tree', thread) :=
    FindThreadOrNew tree (tid_data_pid r) (tid_data_tid r) in
  resolve_entry tree' thread (ip_data_ip r) (InKernel r)
  :: (if show_callchain
      then map (resolve_frame tree' thread)
             (classify (ip_data_ip r) (InKernel r) (callchain_data_ips r))
      else []).

(** One record on the file: the length, then the message. *)
Definition frame (r : proto.Record_) : list byte :=
  le_split 4 (ByteSize r mod UINT32_MOD) ++ SerializeBytes r.

Definition terminator : list byte := le_split 4 0.

(** The messages built while the records of a capture are processed
    from the tree [tree], in order. *)
Fixpoint built_records (show_callchain : bool) (tree : ThreadTree)
    (records : list PerfRecord) : list proto.Record_ :=
  match records with
  | [] => []
  | record :: rest =>
      let tree := Update tree record in
      match record with
      | SampleRec r =>
          let '(proto_record, tree', _) :=
            build_proto_record show_callchain tree r in
          proto_record :: built_records show_callchain tree' rest
      | OtherRec _ => built_records show_callchain tree rest
      end
  end.

(** [reads_samples s samples s']: from [s] the dumper's loop reads the
    records of [samples] one after the other, each with a non-zero
    length and the type SAMPLE, and stands at [s']. *)
Inductive reads_samples : list byte -> list proto.Sample -> list byte -> Prop :=
| reads_none s : reads_samples s [] s
| reads_one s size rest r consumed samples s' :
    ReadLittleEndian32 s = Some (size, rest) ->
    size <> 0 ->
    ParseBytes (firstn (Z.to_nat size) rest) = Some (r, consumed) ->
    proto.type r = Record_Type_SAMPLE ->
    reads_samples (skipn consumed rest) samples s' ->
    reads_samples s (proto.sample r :: samples) s'.
End Report.

(** ** A small world to run the command in *)

Module Demo.

(** Threads are (pid, tid); a map is the path of its dso, a symbol its
    name. Kernel addresses fall in the kernel image; process 100 maps
    libfoo.so at [0x1000, 0x2000). *)
Definition find_map (thread : Z * Z) (ip : Z) (in_kernel : bool) : string :=
  if in_kernel then "[kernel.kallsyms]"
  else if (fst thread =? 100) && (4096 <=? ip) && (ip <? 8192) then "libfoo.so"
  else "unknown".

Definition find_symbol (map : string) (ip : Z) : string :=
  if (map =? "libfoo.so")%string then "foo"
  else if (map =? "[kernel.kallsyms]")%string then "sys_read"
  else "unknown".

#[export] Instance thread_tree : ThreadTreeOps :=
  {| ThreadTree := list (Z * Z);
     ThreadEntry := Z * Z;
     MapEntry := string;
     Symbol := string;
     ThreadTree_new := [];
     Update := fun tree _ => tree;
     FindThreadOrNew := fun tree pid tid => ((pid, tid) :: tree, (pid, tid));
     FindMap := fun _ thread ip in_kernel => find_map thread ip in_kernel;
     FindSymbol := fun _ map ip => find_symbol map ip;
     DemangledName := fun s => s;
     Path := fun m => m |}.

Definition sample1 : SampleRecord :=
  mkSampleRecord 100 100 1000 4096 false
    [4096; 4100; PERF_CONTEXT_KERNEL; 77; PERF_CONTEXT_USER; 4096].
Definition sample2 : SampleRecord :=
  mkSampleRecord 200 200 2000 8192 false [].

Definition sample3 : SampleRecord :=
  mkSampleRecord 100 100 3000 5000 false
    [4100; PERF_CONTEXT_KERNEL; 77; PERF_CONTEXT_USER; 4200].

Definition records : list PerfRecord :=
  [SampleRec sample1; OtherRec 1; SampleRec sample2].

Fixpoint lookup_file (files : list (string * list byte)) (name : string)
    : option (list byte) :=
  match files with
  | [] => None
  | (n, contents) :: rest =>
      if (n =? name)%string then Some contents else lookup_file rest name
  end.

(** A runtime whose capture [perf.data] holds [records], whose report
    file takes [capacity] bytes, and whose readable files are [files]. *)
Definition runtime (capacity : nat) (files : list (string * list byte))
    : Runtime :=
  {| open_record_file := fun name =>
       if (name =? "perf.data")%string then Some (records, true) else None;
     fopen_write := fun _ => true;
     fopen_read := lookup_file files;
     fwrite_ok := fun fp buffer =>
       (List.length (f_bytes fp) + List.length buffer <=? capacity)%nat;
     fprintf_ok := fun _ _ => true |}.

Definition protobuf_args : list string :=
  ["--protobuf"; "-o"; "report.pb"; "--show-callchain"].

Definition protobuf_options : Options :=
  mkOptions "" "perf.data" "report.pb" true true.

Definition process_start : DumpState := mkDumpState [] [] 0.

(** The messages [simpleperf report-sample --protobuf -o report.pb
    --show-callchain] builds for [records], and the report it writes. *)
Definition written : list proto.Record_ :=
  built_records (TT := thread_tree) (PC := Wire.codec) true [] records.

Definition report : list byte :=
  flat_map (frame (PC := Wire.codec)) written ++ terminator.

(** The same report cut before its terminator. *)
Definition truncated : list byte :=
  flat_map (frame (PC := Wire.codec)) written.

(** A record of type 0 between the two samples. *)
Definition unknown_record : proto.Record_ :=
  proto.mkRecord 0 (proto.mkSample 5 []).

Definition mixed : list byte :=
  flat_map (frame (PC := Wire.codec))
    (firstn 1 written ++ [unknown_record] ++ skipn 1 written)
  ++ terminator.

Definition files : list (string * list byte) :=
  [("report.pb", report); ("truncated.pb", truncated); ("mixed.pb", mixed)].

Definition world : Runtime := runtime 4096 files.

(** The same world with a report file that takes the two frames of the
    report and not one byte more. *)
Definition full_disk : Runtime := runtime 141 files.

Definition text_options : Options :=
  mkOptions "" "perf.data" "" false true.

Definition state_start : State (TT := thread_tree) := State_init.

(** What the run in binary mode leaves behind. *)
Definition outcome : Outcome (TT := thread_tree) :=
  match Run (TT := thread_tree) (PC := Wire.codec) (RT := world)
            protobuf_args process_start with
  | Some out => out
  | None => mkOutcome false [] State_init process_start
  end.

End Demo.

(** A value below the sentinel threshold: an address. *)
Definition is_address (ip : Z) : bool := negb (is_sentinel ip).

(** The samples among the records of a capture, in order. *)
Fixpoint sample_records (records : list PerfRecord) : list SampleRecord :=
  match records with
  | [] => []
  | SampleRec r :: rest => r :: sample_records rest
  | OtherRec _ :: rest => sample_records rest
  end.

(** ** The whole report, as the records of a capture determine it *)

Section WholeReport.
Context {TT : ThreadTreeOps}.

(** The thread tree after the records of a capture: updated with every
    record, and asked for the thread of every sample. *)
Fixpoint final_tree (tree : ThreadTree) (records : list PerfRecord)
    : ThreadTree :=
  match records with
  | [] => tree
  | record :: rest =>
      let tree := Update tree record in
      match record with
      | SampleRec r =>
          final_tree
            (fst (FindThreadOrNew tree (tid_data_pid r) (tid_data_tid r))) rest
      | OtherRec _ => final_tree tree rest
      end
  end.

(** The text report of a capture: the block of every sample, in order,
    each resolved in the tree of its moment. *)
Fixpoint text_report (show_callchain : bool) (tree : ThreadTree)
    (records : list PerfRecord) : list PrintCall :=
  match records with
  | [] => []
  | record :: rest =>
      let tree := Update tree record in
      match record with
      | SampleRec r =>
          text_block show_callchain (time_data_time r)
            (sample_chain show_callchain tree r)
          ++ text_report show_callchain
               (fst (FindThreadOrNew tree (tid_data_pid r) (tid_data_tid r)))
               rest
      | OtherRec _ => text_report show_callchain tree rest
      end
  end.
End WholeReport.

(** ** More files for the small world *)

Module Files.

(** The first sample's frame, then a length of one and a byte that is no
    record. *)
Definition garbage : list byte :=
  flat_map (frame (PC := Wire.codec)) (firstn 1 Demo.written)
  ++ le_split 4 1 ++ [byte.of_Z 255].

(** The complete report with two more bytes behind it. *)
Definition padded : list byte :=
  flat_map (frame (PC := Wire.codec)) Demo.written
  ++ terminator ++ [byte.of_Z 1; byte.of_Z 2].

Definition world : Runtime :=
  Demo.runtime 4096
    (("garbage.pb", garbage) :: ("padded.pb", padded) :: Demo.files).

(** The world whose report file takes four bytes less than the report,
    with an empty file to read. *)
Definition full_disk : Runtime :=
  Demo.runtime 141 (("empty.pb", []) :: Demo.files).

End Files.

(** A capture whose report fills the first block of the stream but for
    two bytes, so that the terminator straddles the end of the block. *)
Module Blocks.

Definition records : list PerfRecord :=
  repeat (SampleRec Demo.sample1) 74 ++ repeat (SampleRec Demo.sample2) 8.

Definition written : list proto.Record_ :=
  built_records (TT := Demo.thread_tree) (PC := Wire.codec) true [] records.

Definition report : list byte :=
  flat_map (frame (PC := Wire.codec)) written ++ terminator.

(** A runtime whose capture holds [records] and whose report file takes
    [capacity] bytes. *)
Definition runtime (capacity : nat) : Runtime :=
  {| open_record_file := fun name =>
       if (name =? "perf.data")%string then Some (records, true) else None;
     fopen_write := fun _ => true;
     fopen_read :=
       Demo.lookup_file [("report.pb", firstn kDefaultBlockSize report)];
     fwrite_ok := fun fp buffer =>
       (List.length (f_bytes fp) + List.length buffer <=? capacity)%nat;
     fprintf_ok := fun _ _ => true |}.

(** A disk that takes less than the first block. *)
Definition small_disk : Runtime := runtime 4096.

(** A disk that takes the first block and not one byte more. *)
Definition one_block_disk : Runtime := runtime kDefaultBlockSize.

End Blocks.

Module Chains.
(** A sample whose raw call chain holds markers only, one of them
    unknown ([(__u64)-32]). *)
Definition markers_only : SampleRecord :=
  mkSampleRecord 100 100 4000 4096 false
    [PERF_CONTEXT_USER; UINT64_MOD - 32; PERF_CONTEXT_KERNEL].

(** A sample whose raw call chain starts with an address other than its
    own and meets its own address later. *)
Definition late_duplicate : SampleRecord :=
  mkSampleRecord 100 100 5000 4096 false
    [PERF_CONTEXT_USER; 4100; 4096; 4096].
End Chains.

(** The line that opens the block of a sample in text mode. *)
Definition is_sample_header (c : PrintCall) : bool :=
  (pc_indent c =? 0)%nat && (pc_fmt c =? "sample:\n")%string.

(** ** The dumped report, as the specification words it *)

(** A string that holds no NUL: it reads the same as a C string. *)
Definition c_string (s : string) : Prop := c_str s = s.

(** The block of a dumped sample: the numbered header, the timestamp
    and, under a call-chain header, one indented entry per frame that
    shows its address, its module and its symbol. *)
Definition rendered_block (n : Z) (time : Z)
    (chain : list proto.Sample_CallChainEntry) : list PrintCall :=
  [ mkPrint 0 "sample %zu:\n" [ArgSize n];
    mkPrint 1 "time: %PRIu64\n" [ArgU64 time];
    mkPrint 1 "callchain:\n" [] ]
  ++ flat_map (entry_lines 2) chain.

(** The blocks of [samples], numbered on from [count]. *)
Fixpoint rendered_blocks (count : Z) (samples : list proto.Sample)
    : list PrintCall :=
  match samples with
  | [] => []
  | s :: rest =>
      let count := (count + 1) mod UINT64_MOD in
      rendered_block count (proto.time s) (proto.callchain s)
      ++ rendered_blocks count rest
  end.

(** The entry of a frame with its fields as they stand: the address,
    the module, the symbol. *)
Definition field_entry (e : proto.Sample_CallChainEntry) : list PrintCall :=
  [ mkPrint 2 "ip: %PRIx64\n" [ArgX64 (proto.ip e)];
    mkPrint 2 "dso: %s\n" [ArgStr (proto.file e)];
    mkPrint 2 "symbol: %s\n" [ArgStr (proto.symbol e)] ].

(** The line that opens the block of a dumped sample. *)
Definition is_dump_header (c : PrintCall) : bool :=
  (pc_indent c =? 0)%nat && (pc_fmt c =? "sample %zu:\n")%string.

Section ExpectedDump.
Context {TT : ThreadTreeOps}.

(** What dumping the report of a capture is to print, read off the
    records of the capture: for every sample record, in order, a block
    numbered on from [count] with the sample's timestamp and, field for
    field, its resolved frames. *)
Fixpoint expected_dump (count : Z) (show_callchain : bool) (tree : ThreadTree)
    (records : list PerfRecord) : list PrintCall :=
  match records with
  | [] => []
  | record :: rest =>
      let tree := Update tree record in
      match record with
      | SampleRec r =>
          let count := (count + 1) mod UINT64_MOD in
          [ mkPrint 0 "sample %zu:\n" [ArgSize count];
            mkPrint 1 "time: %PRIu64\n" [ArgU64 (time_data_time r)];
            mkPrint 1 "callchain:\n" [] ]
          ++ flat_map field_entry (sample_chain show_callchain tree r)
          ++ expected_dump count show_callchain
               (fst (FindThreadOrNew tree (tid_data_pid r) (tid_data_tid r)))
               rest
      | OtherRec _ => expected_dump count show_callchain tree rest
      end
  end.
End ExpectedDump.

(** * Properties *)

(** ** Constants and C strings *)

Lemma PERF_CONTEXT_KERNEL_sentinel : is_sentinel PERF_CONTEXT_KERNEL = true.
Proof. reflexivity. Qed.

Lemma PERF_CONTEXT_USER_sentinel : is_sentinel PERF_CONTEXT_USER = true.
Proof. reflexivity. Qed.

Lemma marker_is_sentinel ip : is_context_marker ip = true -> is_sentinel ip = true.
Proof.
  unfold is_context_marker. intros H.
  apply orb_true_iff in H. destruct H as [H | H]; apply Z.eqb_eq in H; subst;
    reflexivity.
Qed.

Lemma c_str_idempotent s : c_str (c_str s) = c_str s.
Proof.
  induction s as [| c s IH]; cbn [c_str]; [reflexivity |].
  destruct (Ascii.eqb c zero) eqn:E; cbn [c_str]; [reflexivity |].
  rewrite E, IH. reflexivity.
Qed.

(** ** The walk against its specification *)

Lemma context_after_snoc initial before ip :
  context_after initial (before ++ [ip]) =
  if ip =? PERF_CONTEXT_KERNEL then true
  else if ip =? PERF_CONTEXT_USER then false
  else context_after initial before.
Proof.
  unfold context_after. rewrite rev_app_distr. cbn [rev app find].
  unfold is_context_marker at 1.
  destruct (ip =? PERF_CONTEXT_KERNEL) eqn:EK; cbn [orb]; [exact EK |].
  destruct (ip =? PERF_CONTEXT_USER) eqn:EU; [exact EK | reflexivity].
Qed.

Lemma first_candidate_snoc before ip :
  first_candidate (before ++ [ip]) = first_candidate before && is_sentinel ip.
Proof.
  unfold first_candidate. rewrite forallb_app. cbn [forallb].
  rewrite andb_true_r. reflexivity.
Qed.

Lemma unexpected_contexts_cons ip ips :
  unexpected_contexts (ip :: ips) =
  (if is_sentinel ip && negb (is_context_marker ip)
   then [unexpected_perf_context ip] else [])
  ++ unexpected_contexts ips.
Proof.
  unfold unexpected_contexts. cbn [filter].
  destruct (is_sentinel ip && negb (is_context_marker ip)); reflexivity.
Qed.

Lemma classify_from_app sample_ip initial ips1 : forall before ips2,
  classify_from sample_ip initial before (ips1 ++ ips2) =
  classify_from sample_ip initial before ips1
  ++ classify_from sample_ip initial (before ++ ips1) ips2.
Proof.
  induction ips1 as [| ip ips1 IH]; intros before ips2; cbn [app classify_from].
  - rewrite app_nil_r. reflexivity.
  - rewrite IH, <- !app_assoc. reflexivity.
Qed.

Section Walk.
Context {TT : ThreadTreeOps} {PC : ProtoCodec} {RT : Runtime}.

Lemma protobuf_callchain_loop_classify tree thread sample_ip initial :
  forall ips before chain log,
    protobuf_callchain_loop tree thread sample_ip ips
      (context_after initial before) (first_candidate before) chain log
    = (chain ++ map (resolve_frame tree thread)
                  (classify_from sample_ip initial before ips),
       log ++ unexpected_contexts ips).
Proof.
  induction ips as [| ip ips IH]; intros before chain log.
  - cbn. rewrite !app_nil_r. reflexivity.
  - cbn [protobuf_callchain_loop classify_from].
    rewrite unexpected_contexts_cons. unfold emitted_at.
    pose proof (marker_is_sentinel ip) as Hm.
    specialize (IH (before ++ [ip])).
    rewrite context_after_snoc, first_candidate_snoc in IH.
    unfold is_context_marker in *. unfold is_sentinel in *.
    destruct (PERF_CONTEXT_MAX <=? ip) eqn:ES.
    + rewrite andb_true_r in IH. cbn [app andb].
      destruct (ip =? PERF_CONTEXT_KERNEL) eqn:EK;
        [rewrite IH; reflexivity |].
      destruct (ip =? PERF_CONTEXT_USER) eqn:EU;
        [rewrite IH; reflexivity |].
      cbn [orb negb]. rewrite IH, <- app_assoc. reflexivity.
    + rewrite andb_false_r in IH. cbn [andb app].
      destruct (ip =? PERF_CONTEXT_KERNEL) eqn:EK;
        [cbn [orb] in Hm; discriminate (Hm eq_refl) |].
      destruct (ip =? PERF_CONTEXT_USER) eqn:EU;
        [cbn [orb] in Hm; discriminate (Hm eq_refl) |].
      destruct (first_candidate before && (ip =? sample_ip)).
      * rewrite IH. reflexivity.
      * rewrite IH. cbn [app map]. rewrite <- app_assoc. reflexivity.
Qed.

Lemma f_text_FprintIndented fp indent fmt args :
  f_text (FprintIndented fp indent fmt args)
  = f_text fp ++ [mkPrint indent fmt args].
Proof. reflexivity. Qed.

Lemma f_text_print_entry fp indent tree thread ip in_kernel :
  f_text (print_entry fp indent tree thread ip in_kernel)
  = f_text fp ++ entry_lines indent (resolve_entry tree thread ip in_kernel).
Proof.
  unfold print_entry, entry_lines, resolve_entry.
  rewrite !f_text_FprintIndented. cbn [proto.ip proto.file proto.symbol].
  rewrite c_str_idempotent, <- !app_assoc. reflexivity.
Qed.

Lemma text_callchain_loop_classify tree thread sample_ip initial :
  forall ips before fp log,
    let out := text_callchain_loop tree thread sample_ip ips
                 (context_after initial before) (first_candidate before) fp log in
    f_text (fst out)
    = f_text fp ++ flat_map (entry_lines 2)
                     (map (resolve_frame tree thread)
                        (classify_from sample_ip initial before ips))
    /\ f_bytes (fst out) = f_bytes fp
    /\ snd out = log ++ unexpected_contexts ips.
Proof.
  induction ips as [| ip ips IH]; intros before fp log.
  - cbn. rewrite !app_nil_r. auto.
  - cbn [text_callchain_loop classify_from].
    rewrite unexpected_contexts_cons. unfold emitted_at.
    pose proof (marker_is_sentinel ip) as Hm.
    specialize (IH (before ++ [ip])).
    rewrite context_after_snoc, first_candidate_snoc in IH.
    unfold is_context_marker in *. unfold is_sentinel in *.
    destruct (PERF_CONTEXT_MAX <=? ip) eqn:ES.
    + rewrite andb_true_r in IH. cbn [app andb].
      destruct (ip =? PERF_CONTEXT_KERNEL) eqn:EK; [apply IH |].
      destruct (ip =? PERF_CONTEXT_USER) eqn:EU; [apply IH |].
      cbn [orb negb]. cbv zeta.
      destruct (IH fp (log ++ [unexpected_perf_context ip])) as (H1 & H2 & H3).
      rewrite H1, H2, H3, <- app_assoc. auto.
    + rewrite andb_false_r in IH. cbn [andb app].
      destruct (ip =? PERF_CONTEXT_KERNEL) eqn:EK;
        [cbn [orb] in Hm; discriminate (Hm eq_refl) |].
      destruct (ip =? PERF_CONTEXT_USER) eqn:EU;
        [cbn [orb] in Hm; discriminate (Hm eq_refl) |].
      destruct (first_candidate before && (ip =? sample_ip)); [apply IH |].
      cbv zeta.
      destruct (IH (print_entry fp 2 tree thread ip (context_after initial before)) log)
        as (H1 & H2 & H3).
      rewrite H1, H2, H3, f_text_print_entry.
      cbn [map flat_map]. rewrite <- !app_assoc. auto.
Qed.

(** The message built for a sample carries the frames of the
    specification. *)
Lemma build_proto_record_spec show tree r :
  build_proto_record show tree r
  = (proto.mkRecord Record_Type_SAMPLE
       (proto.mkSample (time_data_time r) (sample_chain show tree r)),
     fst (FindThreadOrNew tree (tid_data_pid r) (tid_data_tid r)),
     if show then unexpected_contexts (callchain_data_ips r) else []).
Proof.
  unfold build_proto_record, sample_chain, classify.
  destruct (FindThreadOrNew tree (tid_data_pid r) (tid_data_tid r))
    as [tree' thread].
  destruct show; [| reflexivity].
  pose proof (protobuf_callchain_loop_classify tree' thread (ip_data_ip r)
                (InKernel r) (callchain_data_ips r) []) as H.
  cbn [context_after first_candidate rev find forallb] in H.
  rewrite H. reflexivity.
Qed.

(** Text mode prints the same frames. *)
Lemma PrintSampleRecord_spec opts st r :
  let out := PrintSampleRecord opts st r in
  fst out = true
  /\ f_text (report_fp_ (snd out))
     = f_text (report_fp_ st)
       ++ text_block (show_callchain_ opts) (time_data_time r)
            (sample_chain (show_callchain_ opts) (thread_tree_ st) r)
  /\ log_ (snd out)
     = log_ st ++ (if show_callchain_ opts
                   then unexpected_contexts (callchain_data_ips r) else [])
  /\ thread_tree_ (snd out)
     = fst (FindThreadOrNew (thread_tree_ st) (tid_data_pid r) (tid_data_tid r)).
Proof.
  unfold PrintSampleRecord, sample_chain, text_block, classify.
  destruct (FindThreadOrNew (thread_tree_ st) (tid_data_pid r) (tid_data_tid r))
    as [tree' thread].
  cbn [firstn skipn flat_map].
  destruct (show_callchain_ opts).
  - pose proof (text_callchain_loop_classify tree' thread (ip_data_ip r)
                  (InKernel r) (callchain_data_ips r) []) as H.
    cbn [context_after first_candidate rev find forallb] in H.
    match goal with
    | |- context [text_callchain_loop _ _ _ _ _ _ ?fp ?log] =>
        specialize (H fp log); cbv zeta in H;
        destruct (text_callchain_loop tree' thread (ip_data_ip r)
                    (callchain_data_ips r) (InKernel r) true fp log) as [fp' log']
    end.
    cbn [fst snd] in *. destruct H as (H1 & H2 & H3).
    cbn [report_fp_ log_ thread_tree_ fst snd]. rewrite H1, H3.
    rewrite !f_text_FprintIndented, f_text_print_entry, !f_text_FprintIndented.
    rewrite app_nil_r, <- !app_assoc. cbn [app]. auto.
  - cbn [fst snd report_fp_ log_ thread_tree_].
    rewrite f_text_print_entry, !f_text_FprintIndented.
    rewrite !app_nil_r, <- !app_assoc. cbn [app]. auto.
Qed.
End Walk.

(** ** Writing to the coded stream *)

Lemma kDefaultBlockSize_pos : (0 < kDefaultBlockSize)%nat.
Proof. unfold kDefaultBlockSize. lia. Qed.

Lemma prefix_app_more (bytes written lost more : list byte) :
  bytes = written ++ lost -> bytes ++ more = written ++ lost ++ more.
Proof. intros ->. rewrite app_assoc. reflexivity. Qed.

Section Writing.
Context {TT : ThreadTreeOps} {PC : ProtoCodec} {RT : Runtime}.

Lemma coded_os_set_coded_os st os : coded_os_ (set_coded_os st os) = os.
Proof. destruct os. reflexivity. Qed.

Lemma coded_os_add_log st e : coded_os_ (add_log st e) = coded_os_ st.
Proof. reflexivity. Qed.

(** A stream in error takes no more bytes. *)
Lemma WriteRaw_error buffer os :
  HadError os = true -> WriteRaw buffer os = os.
Proof. unfold WriteRaw. intros ->. reflexivity. Qed.

(** What [WriteBuffer] does to a stream without error: the block goes
    to the file whole, or the stream fails and the file keeps what it
    had. *)
Lemma WriteBuffer_cases os :
  HadError os = false ->
  let out := WriteBuffer os in
  f_text (os_file (snd out)) = f_text (os_file os)
  /\ os_buffer (snd out) = []
  /\ HadError (snd out) = negb (fst out)
  /\ (fst out = true ->
      f_bytes (os_file (snd out)) = stream_bytes os
      /\ f_error (os_file (snd out)) = f_error (os_file os))
  /\ (fst out = false ->
      f_bytes (os_file (snd out)) = f_bytes (os_file os)
      /\ f_error (os_file (snd out)) = true
      /\ os_buffer os <> []).
Proof.
  intros He. cbv zeta. unfold WriteBuffer, stream_bytes. rewrite He.
  destruct (os_buffer os) as [| b buf] eqn:Eb.
  - cbn [fst snd negb]. rewrite app_nil_r.
    repeat split; auto; discriminate.
  - unfold ProtobufFileWriter_Write.
    destruct (fwrite_ok (os_file os) (b :: buf));
      cbn [fst snd negb os_file os_buffer HadError f_text f_bytes f_error];
      repeat split; auto; discriminate.
Qed.

Lemma tracks_more os bytes more :
  HadError os = true -> tracks os bytes -> tracks os (bytes ++ more).
Proof.
  unfold tracks. intros ->. intros [lost H]. exists (lost ++ more).
  apply prefix_app_more. exact H.
Qed.

(** The loop of [WriteRaw] with fuel to spare: the stream has taken the
    data, or has failed and the file holds a part of what it was
    given. *)
Lemma WriteRaw_loop_tracks : forall fuel data os,
  HadError os = false ->
  (List.length data
   <= fuel + (kDefaultBlockSize - List.length (os_buffer os)))%nat ->
  let os' := WriteRaw_loop fuel data os in
  f_text (os_file os') = f_text (os_file os)
  /\ tracks os' (stream_bytes os ++ data)
  /\ (HadError os' = false -> f_error (os_file os') = f_error (os_file os)).
Proof.
  induction fuel as [| fuel IH]; intros data os He Hfuel; cbv zeta;
    cbn [WriteRaw_loop];
    destruct (List.length data
              <=? kDefaultBlockSize - List.length (os_buffer os))%nat eqn:Efit.
  1,3: unfold tracks, stream_bytes; cbn [os_file os_buffer HadError];
       rewrite He, app_assoc; auto.
  - apply Nat.leb_gt in Efit. lia.
  - set (room := (kDefaultBlockSize - List.length (os_buffer os))%nat) in *.
    set (full := mkCodedOS (os_file os) (os_buffer os ++ firstn room data)
                   (HadError os)).
    assert (Hfull : HadError full = false) by exact He.
    pose proof (WriteBuffer_cases full Hfull) as Hw. cbv zeta in Hw.
    destruct Hw as (Ht & Hb & Herr & Hok & Hfail).
    assert (Hall : stream_bytes os ++ data
                   = stream_bytes full ++ skipn room data).
    { unfold stream_bytes, full. cbn [os_file os_buffer].
      rewrite <- !app_assoc, firstn_skipn. reflexivity. }
    destruct (WriteBuffer full) as [ok os1]. cbn [fst snd] in *.
    destruct ok; cbn [negb] in Herr.
    + destruct (Hok eq_refl) as (Hbytes & Hferr).
      assert (Hlen : (List.length (skipn room data)
                      <= fuel + (kDefaultBlockSize - List.length (os_buffer os1)))%nat).
      { rewrite Hb, length_skipn. cbn [List.length].
        pose proof kDefaultBlockSize_pos. lia. }
      destruct (IH (skipn room data) os1 Herr Hlen) as (It & Itr & Ie).
      rewrite It, Ht. split; [reflexivity |]. split.
      * rewrite Hall. unfold stream_bytes at 1 in Itr. rewrite Hb, app_nil_r in Itr.
        rewrite <- Hbytes. exact Itr.
      * intros H. rewrite (Ie H), Hferr. reflexivity.
    + destruct (Hfail eq_refl) as (Hbytes & _).
      split; [exact Ht |]. split; [| congruence].
      unfold tracks. rewrite Herr, Hbytes. unfold stream_bytes.
      rewrite <- app_assoc. eauto.
Qed.

(** [WriteRaw] keeps track: a stream that held [bytes] holds
    [bytes ++ buffer] afterwards, in the sense of [tracks]. *)
Lemma WriteRaw_tracks buffer os bytes :
  tracks os bytes -> tracks (WriteRaw buffer os) (bytes ++ buffer).
Proof.
  intros H. destruct (HadError os) eqn:He.
  - rewrite WriteRaw_error by exact He. apply tracks_more; assumption.
  - unfold WriteRaw. rewrite He.
    unfold tracks in H. rewrite He in H. subst bytes.
    apply WriteRaw_loop_tracks; [exact He | lia].
Qed.

Lemma WriteRaw_f_text buffer os :
  f_text (os_file (WriteRaw buffer os)) = f_text (os_file os).
Proof.
  unfold WriteRaw. destruct (HadError os) eqn:He; [reflexivity |].
  apply WriteRaw_loop_tracks; [exact He | lia].
Qed.

(** A write after which the stream has no error was taken whole. *)
Lemma WriteRaw_no_error buffer os :
  HadError (WriteRaw buffer os) = false ->
  HadError os = false
  /\ stream_bytes (WriteRaw buffer os) = stream_bytes os ++ buffer
  /\ f_text (os_file (WriteRaw buffer os)) = f_text (os_file os)
  /\ f_error (os_file (WriteRaw buffer os)) = f_error (os_file os).
Proof.
  intros H. destruct (HadError os) eqn:He.
  - rewrite WriteRaw_error in H by exact He. congruence.
  - split; [reflexivity |].
    assert (Ht : tracks os (stream_bytes os))
      by (unfold tracks; rewrite He; reflexivity).
    apply (WriteRaw_tracks buffer) in Ht. unfold tracks in Ht. rewrite H in Ht.
    split; [exact Ht |]. split; [apply WriteRaw_f_text |].
    unfold WriteRaw in *. rewrite He in *.
    apply WriteRaw_loop_tracks; [exact He | lia | exact H].
Qed.


(** What [PrintSampleRecordInProtobuf] returns, and what the stream took
    when it returns true: the record's frame, whole. *)
Lemma PrintSampleRecordInProtobuf_spec opts st r :
  let proto_record :=
    proto.mkRecord Record_Type_SAMPLE
      (proto.mkSample (time_data_time r)
         (sample_chain (show_callchain_ opts) (thread_tree_ st) r)) in
  let out := PrintSampleRecordInProtobuf opts st r in
  thread_tree_ (snd out)
  = fst (FindThreadOrNew (thread_tree_ st) (tid_data_pid r) (tid_data_tid r))
  /\ sample_count_ (snd out) = sample_count_ st
  /\ fst out = negb (coded_os_HadError (snd out))
  /\ (fst out = true ->
      coded_os_HadError st = false
      /\ stream_bytes (coded_os_ (snd out))
         = stream_bytes (coded_os_ st) ++ frame proto_record
      /\ f_error (report_fp_ (snd out)) = f_error (report_fp_ st)
      /\ log_ (snd out)
         = log_ st ++ (if show_callchain_ opts
                       then unexpected_contexts (callchain_data_ips r)
                       else [])).
Proof.
  cbv zeta. unfold PrintSampleRecordInProtobuf.
  rewrite build_proto_record_spec.
  unfold SerializeToCodedStream, WriteLittleEndian32.
  match goal with
  | |- context [SerializeBytes ?p] => set (pr := p) in *
  end.
  match goal with
  | |- context [WriteRaw (le_split 4 _) ?o] => set (os0 := o) in *
  end.
  assert (H0 : os0 = coded_os_ st) by reflexivity.
  set (os1 := WriteRaw (le_split 4 (ByteSize pr mod UINT32_MOD)) os0).
  destruct (HadError (WriteRaw (SerializeBytes pr) os1)) eqn:E2;
    cbn [negb fst snd set_coded_os add_log thread_tree_ sample_count_
         coded_os_HadError report_fp_ log_].
  - rewrite E2. repeat split; try reflexivity; congruence.
  - rewrite E2. pose proof E2 as E2'.
    apply WriteRaw_no_error in E2. destruct E2 as (E1 & Hb2 & _ & He2).
    apply WriteRaw_no_error in E1. destruct E1 as (E0 & Hb1 & _ & He1).
    repeat split; try reflexivity.
    + exact E0.
    + change (stream_bytes (WriteRaw (SerializeBytes pr) os1)
              = stream_bytes os0 ++ frame pr).
      rewrite Hb2. unfold os1 at 1. rewrite Hb1. unfold frame.
      rewrite <- app_assoc. reflexivity.
    + rewrite He2. unfold os1 at 1. rewrite He1. reflexivity.
Qed.
End Writing.


(** ** Which values of a call chain become frames *)



Lemma not_sentinel_not_marker ip :
  is_sentinel ip = false -> is_context_marker ip = false.
Proof.
  intros H. destruct (is_context_marker ip) eqn:E; [| reflexivity].
  apply marker_is_sentinel in E. congruence.
Qed.

Lemma classify_from_sentinels sample_ip initial : forall ips before,
  forallb is_sentinel ips = true ->
  classify_from sample_ip initial before ips = [].
Proof.
  induction ips as [| ip ips IH]; intros before H; [reflexivity |].
  cbn [forallb] in H. apply andb_true_iff in H. destruct H as [H1 H2].
  cbn [classify_from]. unfold emitted_at. rewrite H1. cbn [app].
  apply IH, H2.
Qed.

Lemma classify_from_later sample_ip initial : forall ips before,
  first_candidate before = false ->
  map fst (classify_from sample_ip initial before ips) = filter is_address ips.
Proof.
  induction ips as [| ip ips IH]; intros before H; [reflexivity |].
  cbn [classify_from filter]. unfold emitted_at, is_address at 1.
  rewrite H, map_app, IH
    by (rewrite first_candidate_snoc, H; reflexivity).
  destruct (is_sentinel ip); reflexivity.
Qed.

(** Every address of the chain becomes a frame, in order, but for the
    first one when it is the sample's own. *)
Lemma classify_addresses sample_ip initial : forall ips before,
  first_candidate before = true ->
  map fst (classify_from sample_ip initial before ips) =
  match filter is_address ips with
  | [] => []
  | first :: later => if first =? sample_ip then later else first :: later
  end.
Proof.
  induction ips as [| ip ips IH]; intros before H; [reflexivity |].
  cbn [classify_from filter]. unfold emitted_at, is_address at 1.
  rewrite H, map_app. cbn [andb].
  destruct (is_sentinel ip) eqn:ES; cbn [negb map app].
  - apply IH. rewrite first_candidate_snoc, H, ES. reflexivity.
  - rewrite classify_from_later
      by (rewrite first_candidate_snoc, H, ES; reflexivity).
    destruct (ip =? sample_ip); reflexivity.
Qed.

Lemma count_occ_filter_address (ips : list Z) (a : Z) :
  is_sentinel a = false ->
  count_occ Z.eq_dec (filter is_address ips) a = count_occ Z.eq_dec ips a.
Proof.
  intros Ha. induction ips as [| ip ips IH]; [reflexivity |].
  cbn [filter count_occ]. unfold is_address at 1.
  destruct (is_sentinel ip) eqn:ES; cbn [negb count_occ]; rewrite IH.
  - destruct (Z.eq_dec ip a); [congruence | reflexivity].
  - reflexivity.
Qed.


(** ** The frames of a sample *)

Section Frames.
Context {TT : ThreadTreeOps} {PC : ProtoCodec} {RT : Runtime}.

Lemma ip_resolve_frame tree thread frames :
  map proto.ip (map (resolve_frame tree thread) frames) = map fst frames.
Proof. rewrite map_map. apply map_ext. intros [ip k]. reflexivity. Qed.

(** C4: in binary and in text mode the first frame of a sample is its
    own instruction pointer resolved under its own kernel/user flag,
    and it is the only frame when call chains are not shown or the raw
    call chain is empty. *)
Theorem leaf_frame_always_first (opts : Options) (st : State) (r : SampleRecord) :
  let tt := FindThreadOrNew (thread_tree_ st) (tid_data_pid r) (tid_data_tid r) in
  let leaf := resolve_entry (fst tt) (snd tt) (ip_data_ip r) (InKernel r) in
  exists rest,
    fst (fst (build_proto_record (show_callchain_ opts) (thread_tree_ st) r))
    = proto.mkRecord Record_Type_SAMPLE
        (proto.mkSample (time_data_time r) (leaf :: rest))
    /\ (fst (PrintSampleRecordInProtobuf opts st r) = true ->
        stream_bytes (coded_os_ (snd (PrintSampleRecordInProtobuf opts st r)))
        = stream_bytes (coded_os_ st)
          ++ frame (proto.mkRecord Record_Type_SAMPLE
                      (proto.mkSample (time_data_time r) (leaf :: rest))))
    /\ f_text (report_fp_ (snd (PrintSampleRecord opts st r)))
       = f_text (report_fp_ st)
         ++ [ mkPrint 0 "sample:\n" [];
              mkPrint 1 "time: %PRIu64\n" [ArgU64 (time_data_time r)] ]
         ++ entry_lines 1 leaf
         ++ (if show_callchain_ opts
             then mkPrint 1 "callchain:\n" [] :: flat_map (entry_lines 2) rest
             else [])
    /\ (show_callchain_ opts = false \/ callchain_data_ips r = [] -> rest = []).
Proof.
  cbv zeta.
  pose proof (PrintSampleRecordInProtobuf_spec opts st r) as Hb.
  pose proof (PrintSampleRecord_spec opts st r) as Ht.
  cbv zeta in Hb, Ht. destruct Hb as (_ & _ & _ & Hb). destruct Ht as (_ & Ht & _).
  rewrite build_proto_record_spec. cbn [fst].
  unfold sample_chain in *.
  destruct (FindThreadOrNew (thread_tree_ st) (tid_data_pid r) (tid_data_tid r))
    as [tree' thread]. cbn [fst snd].
  eexists. split; [reflexivity |]. split; [| split].
  - intros H. apply Hb in H. apply H.
  - rewrite Ht. unfold text_block. cbn [firstn skipn flat_map].
    rewrite app_nil_r. reflexivity.
  - intros [H | H]; rewrite H; [reflexivity |].
    destruct (show_callchain_ opts); reflexivity.
Qed.

Lemma filter_address_sentinels (sentinels : list Z) :
  forallb is_sentinel sentinels = true -> filter is_address sentinels = [].
Proof.
  induction sentinels as [| x xs IH]; intros H; [reflexivity |].
  cbn [forallb] in H. apply andb_true_iff in H. destruct H as [Hx Hxs].
  cbn [filter]. unfold is_address at 1. rewrite Hx. cbn [negb].
  apply IH. exact Hxs.
Qed.

(** C2: with call chains shown, the first address of the raw call
    chain (after any sentinels) is skipped when it is the sample's own
    instruction pointer and is a frame otherwise; every later address
    is a frame of its own, also one equal to the leaf address, whether
    the first address was skipped or not. So the leaf address occurs
    once more than among the later addresses: exactly once when the
    first address was the leaf's and no later value repeats it. *)
Theorem leaf_duplicate_skipped_once (opts : Options) (st : State)
    (r : SampleRecord) (sentinels later : list Z) (first : Z) :
  show_callchain_ opts = true ->
  callchain_data_ips r = sentinels ++ first :: later ->
  forallb is_sentinel sentinels = true ->
  is_sentinel first = false ->
  exists chain,
    proto.callchain (proto.sample
      (fst (fst (build_proto_record (show_callchain_ opts) (thread_tree_ st) r))))
    = chain
    /\ f_text (report_fp_ (snd (PrintSampleRecord opts st r)))
       = f_text (report_fp_ st)
         ++ text_block true (time_data_time r) chain
    /\ map proto.ip chain
       = ip_data_ip r
         :: (if first =? ip_data_ip r then [] else [first])
         ++ filter is_address later
    /\ count_occ Z.eq_dec (map proto.ip chain) (ip_data_ip r)
       = S (count_occ Z.eq_dec (filter is_address later) (ip_data_ip r))
    /\ (first = ip_data_ip r ->
        count_occ Z.eq_dec (map proto.ip chain) (ip_data_ip r)
        = S (count_occ Z.eq_dec later (ip_data_ip r))
        /\ (~ In (ip_data_ip r) later ->
            count_occ Z.eq_dec (map proto.ip chain) (ip_data_ip r) = 1%nat)).
Proof.
  intros Hshow Hips Hsent Hfirst.
  exists (sample_chain true (thread_tree_ st) r).
  assert (Hfilter : filter is_address (callchain_data_ips r)
                    = first :: filter is_address later).
  { rewrite Hips, filter_app, filter_address_sentinels by exact Hsent.
    cbn [filter app]. unfold is_address at 1. rewrite Hfirst. reflexivity. }
  assert (Hmap : map proto.ip (sample_chain true (thread_tree_ st) r)
                 = ip_data_ip r
                   :: (if first =? ip_data_ip r then [] else [first])
                   ++ filter is_address later).
  { unfold sample_chain, classify.
    destruct (FindThreadOrNew (thread_tree_ st) (tid_data_pid r) (tid_data_tid r))
      as [tree' thread].
    cbn [map proto.ip resolve_entry]. f_equal.
    rewrite ip_resolve_frame, classify_addresses by reflexivity.
    rewrite Hfilter. destruct (first =? ip_data_ip r); reflexivity. }
  assert (Hcount : count_occ Z.eq_dec
                     (map proto.ip (sample_chain true (thread_tree_ st) r))
                     (ip_data_ip r)
                   = S (count_occ Z.eq_dec (filter is_address later)
                          (ip_data_ip r))).
  { rewrite Hmap. cbn [count_occ].
    destruct (Z.eq_dec (ip_data_ip r) (ip_data_ip r)); [| congruence].
    f_equal. destruct (first =? ip_data_ip r) eqn:E; [reflexivity |].
    apply Z.eqb_neq in E. cbn [app count_occ].
    destruct (Z.eq_dec first (ip_data_ip r)); [congruence | reflexivity]. }
  split; [rewrite build_proto_record_spec, Hshow; reflexivity |].
  split.
  { pose proof (PrintSampleRecord_spec opts st r) as Ht. cbv zeta in Ht.
    rewrite Hshow in Ht. apply Ht. }
  split; [exact Hmap |]. split; [exact Hcount |].
  intros Heq. rewrite Hcount.
  rewrite count_occ_filter_address by (rewrite <- Heq; exact Hfirst).
  split; [reflexivity |].
  intros Hnot. f_equal. apply count_occ_not_In. exact Hnot.
Qed.

Lemma classify_split sample_ip initial before ip after :
  classify sample_ip initial (before ++ ip :: after)
  = classify sample_ip initial before
    ++ emitted_at sample_ip initial before ip
    ++ classify_from sample_ip initial (before ++ [ip]) after.
Proof.
  unfold classify. rewrite classify_from_app. reflexivity.
Qed.

(** C3: with call chains shown, both printers emit the leaf and then
    the classified values of the raw call chain, in order. A value at
    or above the threshold yields no frame: the kernel marker makes the
    context kernel, the user marker makes it user, any other is logged
    and changes nothing, and the result of the printer does not depend
    on it. An address yields the frame of that address under the
    context of the last marker before it (the sample's own when there
    is none), unless it is the skipped first address. So the chain
    [A; KERNEL; B; USER; C] gives A under the sample's context, B under
    kernel, C under user. *)
Theorem callchain_walk_contexts (opts : Options) (st : State) (r : SampleRecord) :
  show_callchain_ opts = true ->
  let tt := FindThreadOrNew (thread_tree_ st) (tid_data_pid r) (tid_data_tid r) in
  let leaf := resolve_entry (fst tt) (snd tt) (ip_data_ip r) (InKernel r) in
  let ips := callchain_data_ips r in
  let frames := classify (ip_data_ip r) (InKernel r) ips in
  let chain := leaf :: map (resolve_frame (fst tt) (snd tt)) frames in
  (* binary mode *)
  build_proto_record (show_callchain_ opts) (thread_tree_ st) r
  = (proto.mkRecord Record_Type_SAMPLE (proto.mkSample (time_data_time r) chain),
     fst tt, unexpected_contexts ips)
  (* text mode *)
  /\ fst (PrintSampleRecord opts st r) = true
  /\ f_text (report_fp_ (snd (PrintSampleRecord opts st r)))
     = f_text (report_fp_ st) ++ text_block true (time_data_time r) chain
  /\ log_ (snd (PrintSampleRecord opts st r))
     = log_ st ++ unexpected_contexts ips
  (* value by value *)
  /\ (forall before ip after, ips = before ++ ip :: after ->
      frames = classify (ip_data_ip r) (InKernel r) before
               ++ emitted_at (ip_data_ip r) (InKernel r) before ip
               ++ classify_from (ip_data_ip r) (InKernel r) (before ++ [ip]) after
      /\ (PERF_CONTEXT_MAX <= ip ->
          emitted_at (ip_data_ip r) (InKernel r) before ip = []
          /\ context_after (InKernel r) (before ++ [ip])
             = (if ip =? PERF_CONTEXT_KERNEL then true
                else if ip =? PERF_CONTEXT_USER then false
                else context_after (InKernel r) before)
          /\ (ip <> PERF_CONTEXT_KERNEL -> ip <> PERF_CONTEXT_USER ->
              In (unexpected_perf_context ip) (unexpected_contexts ips)))
      /\ (ip < PERF_CONTEXT_MAX ->
          emitted_at (ip_data_ip r) (InKernel r) before ip
          = (if first_candidate before && (ip =? ip_data_ip r) then []
             else [(ip, context_after (InKernel r) before)])
          /\ context_after (InKernel r) (before ++ [ip])
             = context_after (InKernel r) before))
  (* which values become frames *)
  /\ map fst frames
     = match filter is_address ips with
       | [] => []
       | first :: later =>
           if first =? ip_data_ip r then later else first :: later
       end
  (* the example *)
  /\ (forall A B C,
      ips = [A; PERF_CONTEXT_KERNEL; B; PERF_CONTEXT_USER; C] ->
      A < PERF_CONTEXT_MAX -> B < PERF_CONTEXT_MAX -> C < PERF_CONTEXT_MAX ->
      A <> ip_data_ip r ->
      frames = [(A, InKernel r); (B, true); (C, false)]).
Proof.
  intros Hshow. cbv zeta.
  pose proof (PrintSampleRecord_spec opts st r) as Ht. cbv zeta in Ht.
  rewrite Hshow in Ht. destruct Ht as (Ht1 & Ht2 & Ht3 & _).
  rewrite build_proto_record_spec, Hshow.
  unfold sample_chain in *.
  destruct (FindThreadOrNew (thread_tree_ st) (tid_data_pid r) (tid_data_tid r))
    as [tree' thread]. cbn [fst snd].
  split; [reflexivity |]. split; [exact Ht1 |]. split; [exact Ht2 |].
  split; [exact Ht3 |]. split; [| split].
  - intros before ip after Hips. rewrite Hips.
    split; [apply classify_split |]. split.
    + intros Hge. assert (ES : is_sentinel ip = true)
        by (apply Z.leb_le; exact Hge).
      unfold emitted_at. rewrite ES. split; [reflexivity |].
      split; [apply context_after_snoc |].
      intros HK HU. unfold unexpected_contexts. apply in_map.
      apply filter_In. split; [apply in_elt |].
      rewrite ES. unfold is_context_marker.
      apply Z.eqb_neq in HK, HU. rewrite HK, HU. reflexivity.
    + intros Hlt. assert (ES : is_sentinel ip = false)
        by (apply Z.leb_gt; exact Hlt).
      unfold emitted_at. rewrite ES. split; [reflexivity |].
      rewrite context_after_snoc.
      pose proof (not_sentinel_not_marker ip ES) as Hm.
      unfold is_context_marker in Hm. apply orb_false_iff in Hm.
      destruct Hm as [-> ->]. reflexivity.
  - apply classify_addresses. reflexivity.
  - intros A B C Hips HA HB HC Hne. rewrite Hips.
    assert (EA : is_sentinel A = false) by (apply Z.leb_gt; exact HA).
    assert (EB : is_sentinel B = false) by (apply Z.leb_gt; exact HB).
    assert (EC : is_sentinel C = false) by (apply Z.leb_gt; exact HC).
    apply Z.eqb_neq in Hne.
    unfold classify. cbn [classify_from]. unfold emitted_at.
    rewrite EA, EB, EC, PERF_CONTEXT_KERNEL_sentinel, PERF_CONTEXT_USER_sentinel.
    rewrite !first_candidate_snoc, EA, Hne, !andb_false_r.
    cbn [andb app]. unfold context_after. cbn [rev app find].
    rewrite (not_sentinel_not_marker B EB).
    change (is_context_marker PERF_CONTEXT_KERNEL) with true.
    change (is_context_marker PERF_CONTEXT_USER) with true.
    reflexivity.
Qed.
End Frames.


(** ** The dumper's loop *)

Lemma ReadLittleEndian32_le_split (v : Z) (rest : list byte) :
  ReadLittleEndian32 (le_split 4 v ++ rest) = Some (v mod UINT32_MOD, rest).
Proof.
  pose proof (le_combine_split 4 v) as H.
  change (le_split 4 v) with
    [byte.of_Z v; byte.of_Z (Z.shiftr v 8); byte.of_Z (Z.shiftr (Z.shiftr v 8) 8);
     byte.of_Z (Z.shiftr (Z.shiftr (Z.shiftr v 8) 8) 8)] in *.
  cbn [app ReadLittleEndian32]. rewrite H. reflexivity.
Qed.

Lemma ReadLittleEndian32_length s size rest :
  ReadLittleEndian32 s = Some (size, rest) ->
  List.length s = (4 + List.length rest)%nat.
Proof.
  destruct s as [| b0 [| b1 [| b2 [| b3 s]]]]; cbn [ReadLittleEndian32];
    try discriminate.
  intros H. injection H as _ <-. reflexivity.
Qed.

Lemma ReadLittleEndian32_short s :
  (List.length s < 4)%nat -> ReadLittleEndian32 s = None.
Proof.
  destruct s as [| b0 [| b1 [| b2 [| b3 s]]]]; cbn [ReadLittleEndian32 List.length];
    try reflexivity. lia.
Qed.

Lemma dumped_state_nil st : dumped_state st [] = st.
Proof.
  unfold dumped_state. cbn. rewrite app_nil_r. destruct st; reflexivity.
Qed.

Lemma dumped_state_cons st s samples :
  dumped_state
    (mkDumpState
       (d_stdout st ++ dump_sample ((d_sample_count st + 1) mod UINT64_MOD) s)
       (d_log st) ((d_sample_count st + 1) mod UINT64_MOD))
    samples
  = dumped_state st (s :: samples).
Proof.
  unfold dumped_state.
  cbn [d_stdout d_log d_sample_count dump_blocks List.length advance_count].
  rewrite <- app_assoc. reflexivity.
Qed.

Section DumpLoop.
Context {PC : ProtoCodec} {RT : Runtime}.

(** The loop never runs out of fuel above the length of what is left,
    and its result does not depend on the fuel then. *)
Lemma DumpProtobufReport_loop_fuel filename : forall fuel1 fuel2 s st,
  (List.length s < fuel1)%nat -> (List.length s < fuel2)%nat ->
  DumpProtobufReport_loop fuel1 filename s st
  = DumpProtobufReport_loop fuel2 filename s st
  /\ DumpProtobufReport_loop fuel1 filename s st <> None.
Proof.
  induction fuel1 as [| fuel1 IH]; intros fuel2 s st H1 H2; [lia |].
  destruct fuel2 as [| fuel2]; [lia |].
  cbn [DumpProtobufReport_loop].
  destruct (ReadLittleEndian32 s) as [[size rest] |] eqn:ER;
    [| split; [reflexivity | discriminate]].
  apply ReadLittleEndian32_length in ER.
  destruct (size =? 0); [split; [reflexivity | discriminate] |].
  destruct (ParseBytes (firstn (Z.to_nat size) rest)) as [[r consumed] |];
    [| split; [reflexivity | discriminate]].
  destruct (negb (proto.type r =? Record_Type_SAMPLE));
    [split; [reflexivity | discriminate] |].
  pose proof (length_skipn consumed rest) as Hs.
  apply IH; lia.
Qed.

(** The loop reads the records of a run of samples and stands behind
    them, the blocks printed and the counter advanced. *)
Lemma DumpProtobufReport_loop_reads filename s samples s' :
  reads_samples s samples s' ->
  forall fuel st, (List.length s < fuel)%nat ->
    (List.length s' <= List.length s)%nat
    /\ DumpProtobufReport_loop fuel filename s st
       = DumpProtobufReport_loop (S (List.length s')) filename s'
           (dumped_state st samples).
Proof.
  induction 1 as [s | s size rest r consumed samples s' ER Hsize EP Hty Hrs IH];
    intros fuel st Hfuel.
  - rewrite dumped_state_nil. split; [lia |].
    apply DumpProtobufReport_loop_fuel; lia.
  - destruct fuel as [| fuel]; [lia |].
    cbn [DumpProtobufReport_loop]. rewrite ER.
    apply Z.eqb_neq in Hsize. rewrite Hsize, EP, Hty, Z.eqb_refl. cbn [negb].
    apply ReadLittleEndian32_length in ER.
    pose proof (length_skipn consumed rest) as Hs.
    destruct (IH fuel
                (mkDumpState
                   (d_stdout st ++ dump_sample ((d_sample_count st + 1) mod UINT64_MOD)
                                      (proto.sample r))
                   (d_log st) ((d_sample_count st + 1) mod UINT64_MOD)))
      as [Hlen Heq]; [lia |].
    split; [lia |]. rewrite Heq, dumped_state_cons. reflexivity.
Qed.

(** A successful loop has read a run of samples and then a zero
    length. *)
Lemma DumpProtobufReport_loop_true filename : forall fuel s st st',
  DumpProtobufReport_loop fuel filename s st = Some (true, st') ->
  exists samples s' rest,
    reads_samples s samples s'
    /\ ReadLittleEndian32 s' = Some (0, rest)
    /\ st' = dumped_state st samples.
Proof.
  induction fuel as [| fuel IH]; intros s st st' H; [discriminate |].
  cbn [DumpProtobufReport_loop] in H.
  destruct (ReadLittleEndian32 s) as [[size rest] |] eqn:ER; [| discriminate].
  destruct (size =? 0) eqn:E0.
  - apply Z.eqb_eq in E0. subst size. injection H as <-.
    exists [], s, rest. rewrite dumped_state_nil.
    repeat split; [constructor | exact ER].
  - destruct (ParseBytes (firstn (Z.to_nat size) rest)) as [[r consumed] |] eqn:EP;
      [| discriminate].
    destruct (proto.type r =? Record_Type_SAMPLE) eqn:ET; cbn [negb] in H;
      [| discriminate].
    apply IH in H. destruct H as (samples & s' & rest' & Hrs & Hz & ->).
    exists (proto.sample r :: samples), s', rest'.
    rewrite dumped_state_cons. repeat split; [| exact Hz].
    apply Z.eqb_neq in E0. apply Z.eqb_eq in ET.
    econstructor; eassumption.
Qed.
End DumpLoop.


(** ** The report written in binary mode *)

Section Encoding.
Context {TT : ThreadTreeOps} {PC : ProtoCodec} {RT : Runtime}.

Lemma built_records_length show : forall records tree,
  List.length (built_records show tree records)
  = List.length (sample_records records).
Proof.
  induction records as [| [r | ty] records IH]; intros tree;
    cbn [built_records sample_records]; [reflexivity | | apply IH].
  rewrite build_proto_record_spec. cbn [List.length]. rewrite IH. reflexivity.
Qed.

(** Each message written is that of the sample at its place: its
    timestamp, and its frames resolved in the tree of that moment. *)
Lemma built_records_samples show : forall records tree,
  Forall2 (fun r proto_record =>
             proto.type proto_record = Record_Type_SAMPLE
             /\ proto.time (proto.sample proto_record) = time_data_time r
             /\ exists tree',
                  proto.callchain (proto.sample proto_record)
                  = sample_chain show tree' r)
          (sample_records records) (built_records show tree records).
Proof.
  induction records as [| [r | ty] records IH]; intros tree;
    cbn [built_records sample_records]; [constructor | | apply IH].
  rewrite build_proto_record_spec. constructor; [| apply IH].
  cbn. eauto.
Qed.

(** A data section read to its end in binary mode gave the stream the
    frames of the messages built, one after the other, and nothing
    else. *)
Lemma ReadDataSection_protobuf o read_ok : forall records st,
  use_protobuf_ o = true ->
  fst (ReadDataSection o records read_ok st) = true ->
  let st' := snd (ReadDataSection o records read_ok st) in
  stream_bytes (coded_os_ st')
  = stream_bytes (coded_os_ st)
    ++ flat_map frame (built_records (show_callchain_ o) (thread_tree_ st) records)
  /\ f_error (report_fp_ st') = f_error (report_fp_ st)
  /\ coded_os_HadError st' = coded_os_HadError st
  /\ read_ok = true.
Proof.
  induction records as [| record records IH]; intros st Hpb Hok; cbv zeta.
  - cbn in *. rewrite app_nil_r. auto.
  - cbn [ReadDataSection built_records] in *.
    destruct record as [r | ty].
    + unfold ProcessRecord in *. rewrite Hpb in Hok |- *.
      cbn [set_thread_tree thread_tree_ report_fp_ coded_os_HadError
           coded_os_buffer sample_count_ log_] in *.
      match goal with
      | |- context [PrintSampleRecordInProtobuf o ?s r] => set (st1 := s) in *
      end.
      pose proof (PrintSampleRecordInProtobuf_spec o st1 r) as Hp.
      cbv zeta in Hp. destruct Hp as (Htree & _ & Herr & Hp).
      destruct (PrintSampleRecordInProtobuf o st1 r) as [ok st2].
      cbn [fst snd] in *. destruct ok; [| discriminate].
      destruct (Hp eq_refl) as (He0 & Hb & Hfe & _).
      specialize (IH st2 Hpb Hok). cbv zeta in IH.
      destruct IH as (IH1 & IH2 & IH3 & IH4).
      rewrite build_proto_record_spec.
      rewrite IH1, IH2, IH3, Hb, Hfe, Htree. cbn [flat_map].
      rewrite <- app_assoc.
      assert (He2 : coded_os_HadError st2 = false)
        by (destruct (coded_os_HadError st2); [discriminate | reflexivity]).
      rewrite He2. subst st1.
      cbn [thread_tree_ report_fp_ coded_os_HadError] in *.
      rewrite He0. auto.
    + unfold ProcessRecord in *.
      specialize (IH _ Hpb Hok). cbv zeta in IH. apply IH.
Qed.
End Encoding.

(** ** Reading back what a correct codec wrote *)

Section Decoding.
Context {PC : ProtoCodec} {RT : Runtime}.
Context (valid : proto.Record_ -> Prop) {OK : ProtoCodecOk PC valid}.

Lemma reads_samples_frames : forall records s',
  Forall valid records ->
  Forall (fun r => proto.type r = Record_Type_SAMPLE) records ->
  reads_samples (flat_map frame records ++ s') (map proto.sample records) s'.
Proof.
  induction records as [| r records IH]; intros s' Hv Ht; [constructor |].
  inversion Hv as [| ? ? Hvr Hv']; subst. inversion Ht as [| ? ? Htr Ht']; subst.
  pose proof (ByteSize_length r Hvr) as Hlen.
  pose proof (ByteSize_range r Hvr) as Hrange.
  pose proof (Parse_Serialize r Hvr) as Hparse.
  assert (Hmod : ByteSize r mod UINT32_MOD = ByteSize r).
  { apply Z.mod_small. unfold UINT32_MOD, INT_MAX in *. lia. }
  cbn [flat_map map]. unfold frame at 1. rewrite <- !app_assoc.
  eapply reads_one with (size := ByteSize r)
                        (consumed := List.length (SerializeBytes r)).
  - rewrite ReadLittleEndian32_le_split, Z.mod_mod, Hmod by (cbv; discriminate).
    reflexivity.
  - lia.
  - rewrite Hlen, Nat2Z.id, firstn_app, Nat.sub_diag, firstn_all.
    cbn [firstn]. rewrite app_nil_r. exact Hparse.
  - exact Htr.
  - rewrite skipn_app, Nat.sub_diag, skipn_all. cbn [skipn app].
    apply IH; assumption.
Qed.
End Decoding.


(** ** Runs in binary mode *)

Lemma ParseOptions_protobuf_filename args o :
  ParseOptions args = inl o -> use_protobuf_ o = true ->
  (report_filename_ o =? "")%string = false.
Proof.
  unfold ParseOptions.
  destruct (ParseOptions_loop args Options_init) as [o' | e]; [| discriminate].
  destruct (use_protobuf_ o' && (report_filename_ o' =? "")%string) eqn:E;
    [discriminate |].
  intros H Hpb. injection H as <-. rewrite Hpb in E. exact E.
Qed.

Section BinaryRun.
Context {TT : ThreadTreeOps} {PC : ProtoCodec} {RT : Runtime}.

(** What the adaptor's destructor leaves on the file of a stream
    without error: all that the stream took, or, when this last [Write]
    fails, what the file had, with its error indicator set. *)
Lemma destroy_streams_cases (st : State) :
  coded_os_HadError st = false ->
  let st' := destroy_streams st in
  f_text (report_fp_ st') = f_text (report_fp_ st)
  /\ ((f_bytes (report_fp_ st') = stream_bytes (coded_os_ st)
       /\ f_error (report_fp_ st') = f_error (report_fp_ st))
      \/ (f_bytes (report_fp_ st') = f_bytes (report_fp_ st)
          /\ f_error (report_fp_ st') = true
          /\ coded_os_buffer st <> [])).
Proof.
  intros He. cbv zeta. unfold destroy_streams. cbn [report_fp_].
  pose proof (WriteBuffer_cases (coded_os_ st) He) as H. cbv zeta in H.
  destruct H as (Ht & _ & _ & Hok & Hfail).
  split; [exact Ht |].
  destruct (fst (WriteBuffer (coded_os_ st)));
    [left; apply Hok; reflexivity | right; apply Hfail; reflexivity].
Qed.

(** A run in binary mode that returns true: the stream took the frames
    of the messages built and the terminator, without error, before
    the destructors ran. *)
Lemma Run_protobuf_true args process o records read_ok out :
  ParseOptions args = inl o ->
  dump_protobuf_report_file_ o = "" ->
  use_protobuf_ o = true ->
  open_record_file (record_filename_ o) = Some (records, read_ok) ->
  Run args process = Some out ->
  result out = true ->
  exists st,
    final out = destroy_streams st
    /\ coded_os_HadError st = false
    /\ f_error (report_fp_ st) = false
    /\ stream_bytes (coded_os_ st)
       = flat_map frame (built_records (show_callchain_ o) ThreadTree_new records)
         ++ terminator.
Proof.
  intros Hparse Hdump Hpb Hopen Hrun Hres.
  pose proof (ParseOptions_protobuf_filename args o Hparse Hpb) as Hname.
  unfold Run in Hrun. rewrite Hparse, Hdump, Hopen, Hname, Hpb in Hrun.
  cbn [String.eqb negb andb] in Hrun.
  destruct (fopen_write (report_filename_ o)); cbn [negb] in Hrun;
    [| injection Hrun as <-; discriminate].
  pose proof (ReadDataSection_protobuf o read_ok records State_init Hpb) as Henc.
  destruct (ReadDataSection o records read_ok State_init) as [ok st].
  cbn [fst snd] in *.
  destruct ok; cbn [negb] in Hrun; [| injection Hrun as <-; discriminate].
  destruct (Henc eq_refl) as (Hbytes & Hfe & _).
  set (st1 := add_log st _) in Hrun.
  set (os := WriteLittleEndian32 0 (coded_os_ st1)) in Hrun.
  change (coded_os_HadError (set_coded_os st1 os)) with (HadError os) in Hrun.
  destruct (HadError os) eqn:Eos; [injection Hrun as <-; discriminate |].
  destruct (f_error (report_fp_ (set_coded_os st1 os))) eqn:Efe;
    injection Hrun as <-; [discriminate |].
  exists (set_coded_os st1 os). split; [reflexivity |].
  split; [exact Eos |]. split; [exact Efe |].
  change (stream_bytes (coded_os_ (set_coded_os st1 os)))
    with (stream_bytes os).
  unfold os, WriteLittleEndian32 in *.
  apply WriteRaw_no_error in Eos. destruct Eos as (_ & Hb & _).
  rewrite Hb. change (coded_os_ st1) with (coded_os_ st).
  rewrite Hbytes. reflexivity.
Qed.

(** The report of a run in binary mode that returned true, when the
    write of the destructor went through as well. *)
Lemma Run_protobuf_report args process o records read_ok out :
  ParseOptions args = inl o ->
  dump_protobuf_report_file_ o = "" ->
  use_protobuf_ o = true ->
  open_record_file (record_filename_ o) = Some (records, read_ok) ->
  Run args process = Some out ->
  result out = true ->
  f_error (report_fp_ (final out)) = false ->
  f_bytes (report_fp_ (final out))
  = flat_map frame (built_records (show_callchain_ o) ThreadTree_new records)
    ++ terminator.
Proof.
  intros Hparse Hdump Hpb Hopen Hrun Hres Hfe.
  destruct (Run_protobuf_true args process o records read_ok out
              Hparse Hdump Hpb Hopen Hrun Hres) as (st & Hfinal & He & _ & Hb).
  rewrite Hfinal in *.
  destruct (destroy_streams_cases st He) as (_ & [(H1 & _) | (_ & H2 & _)]).
  - rewrite H1. exact Hb.
  - congruence.
Qed.

(** C7: in binary mode, once every record of the capture has been
    processed and the coded stream holds their frames, the run writes
    one little-endian 32-bit zero to the coded stream, after everything
    else; when the stream has an error after that write the run logs it
    and returns false, and otherwise it returns true, the stream having
    taken the frames and the four zero bytes. What the block of the
    stream still holds goes to the file when the run returns, and a
    report file without error then holds the frames followed by the
    terminator. *)
Theorem terminator_written_after_records (args : list string)
    (process : DumpState) (o : Options) (records : list PerfRecord)
    (read_ok : bool) :
  ParseOptions args = inl o ->
  dump_protobuf_report_file_ o = "" ->
  use_protobuf_ o = true ->
  open_record_file (record_filename_ o) = Some (records, read_ok) ->
  fopen_write (report_filename_ o) = true ->
  fst (ReadDataSection o records read_ok State_init) = true ->
  let st := snd (ReadDataSection o records read_ok State_init) in
  let os := WriteLittleEndian32 0 (coded_os_ st) in
  let frames :=
    flat_map frame (built_records (show_callchain_ o) ThreadTree_new records) in
  terminator = [Byte.x00; Byte.x00; Byte.x00; Byte.x00]
  /\ stream_bytes (coded_os_ st) = frames
  /\ exists out,
       Run args process = Some out
       /\ report_fp_ (final out) = os_file (snd (WriteBuffer os))
       /\ (HadError os = true ->
           result out = false
           /\ In (mkLog ERROR [LStr "print protobuf report failed"])
                 (log_ (final out)))
       /\ (HadError os = false ->
           stream_bytes os = frames ++ terminator
           /\ result out = true)
       /\ (result out = true ->
           f_error (report_fp_ (final out)) = false ->
           f_bytes (report_fp_ (final out)) = frames ++ terminator).
Proof.
  intros Hparse Hdump Hpb Hopen Hfopen Hread. cbv zeta.
  split; [reflexivity |].
  pose proof (ParseOptions_protobuf_filename args o Hparse Hpb) as Hname.
  pose proof (ReadDataSection_protobuf o read_ok records State_init Hpb Hread)
    as Henc. cbv zeta in Henc. destruct Henc as (Hbytes & Hfe0 & Herr0 & _).
  split; [exact Hbytes |].
  unfold Run. rewrite Hparse, Hdump, Hopen, Hname, Hfopen, Hpb.
  cbn [String.eqb negb andb].
  destruct (ReadDataSection o records read_ok State_init) as [ok st].
  cbn [fst snd] in *. subst ok. cbn [negb].
  set (st1 := add_log st _).
  assert (Hos : coded_os_ st1 = coded_os_ st) by reflexivity.
  rewrite Hos.
  set (os := WriteLittleEndian32 0 (coded_os_ st)).
  change (coded_os_HadError (set_coded_os st1 os)) with (HadError os).
  change (report_fp_ (set_coded_os st1 os)) with (os_file os).
  destruct (HadError os) eqn:Eos.
  - eexists. split; [reflexivity |].
    split; [cbn [final]; unfold destroy_streams; cbn [report_fp_];
            rewrite coded_os_add_log, coded_os_set_coded_os; reflexivity |].
    cbn [final result destroy_streams add_log log_ set_coded_os].
    repeat split; try discriminate.
    apply in_or_app. right. left. reflexivity.
  - pose proof Eos as Eos'. unfold os, WriteLittleEndian32 in Eos'.
    apply WriteRaw_no_error in Eos'. destruct Eos' as (_ & Hb & _ & Hfe).
    fold (WriteLittleEndian32 0 (coded_os_ st)) in Hb, Hfe. fold os in Hb, Hfe.
    change (os_file (coded_os_ st)) with (report_fp_ st) in Hfe.
    rewrite Hfe, Hfe0. cbn [State_init report_fp_ FILE_empty f_error].
    eexists. split; [reflexivity |].
    split; [cbn [final]; unfold destroy_streams; cbn [report_fp_];
            rewrite coded_os_set_coded_os; reflexivity |].
    split; [discriminate |].
    split.
    + intros _. split; [| reflexivity]. rewrite Hb, Hbytes. reflexivity.
    + intros _ Hfinal. cbn [final] in *.
      destruct (destroy_streams_cases (set_coded_os st1 os) Eos)
        as (_ & [(H1 & _) | (_ & H2 & _)]).
      * rewrite H1.
        change (stream_bytes (coded_os_ (set_coded_os st1 os)))
          with (stream_bytes os).
        rewrite Hb, Hbytes. reflexivity.
      * congruence.
Qed.
End BinaryRun.


(** ** Writing a report and reading it back *)

Lemma c_str_resolve_entry {TT : ThreadTreeOps} tree thread ip in_kernel :
  c_string (proto.symbol (resolve_entry tree thread ip in_kernel)).
Proof. apply c_str_idempotent. Qed.

(** The symbols of a sample's frames come from C strings. *)
Lemma sample_chain_symbols {TT : ThreadTreeOps} show tree r :
  Forall (fun e => c_string (proto.symbol e)) (sample_chain show tree r).
Proof.
  unfold sample_chain.
  destruct (FindThreadOrNew tree (tid_data_pid r) (tid_data_tid r))
    as [tree' thread].
  constructor; [apply c_str_resolve_entry |].
  destruct show; [| constructor].
  apply Forall_forall. intros e He. apply in_map_iff in He.
  destruct He as (f & <- & _). apply c_str_resolve_entry.
Qed.

(** The dumper shows frames whose strings hold no NUL field for
    field. *)
Lemma dump_entry_field_entry chain :
  Forall (fun e => c_string (proto.file e)) chain ->
  Forall (fun e => c_string (proto.symbol e)) chain ->
  flat_map dump_entry chain = flat_map field_entry chain.
Proof.
  induction 1 as [| e chain Hf _ IH]; intros Hs; [reflexivity |].
  inversion Hs as [| ? ? Hse Hs']; subst.
  cbn [flat_map]. rewrite IH by exact Hs'.
  unfold dump_entry, field_entry. unfold c_string in *.
  rewrite Hf, Hse. reflexivity.
Qed.

Lemma filter_header_field_entry chain :
  filter is_dump_header (flat_map field_entry chain) = [].
Proof. induction chain as [| e chain IH]; [reflexivity | exact IH]. Qed.

(** The expected dump has one header for each sample record. *)
Lemma expected_dump_headers {TT : ThreadTreeOps} show : forall records count tree,
  List.length (filter is_dump_header (expected_dump count show tree records))
  = List.length (sample_records records).
Proof.
  induction records as [| [r | ty] records IH]; intros count tree;
    cbn [expected_dump sample_records]; [reflexivity | | apply IH].
  rewrite app_assoc, filter_app, (filter_app _ [_; _; _]),
    filter_header_field_entry, app_nil_r, length_app, IH.
  reflexivity.
Qed.

Section RoundTrip.
Context {TT : ThreadTreeOps} {PC : ProtoCodec} {RT : Runtime}.

Lemma built_records_type show : forall records tree,
  Forall (fun r => proto.type r = Record_Type_SAMPLE)
         (built_records show tree records).
Proof.
  induction records as [| [r | ty] records IH]; intros tree;
    cbn [built_records]; [constructor | | apply IH].
  rewrite build_proto_record_spec. constructor; [reflexivity | apply IH].
Qed.

(** The blocks dumped for the messages built from a capture are the
    expected dump of the capture, when the modules written are C
    strings. *)
Lemma dump_blocks_expected show : forall records count tree,
  Forall (fun r => Forall (fun e => c_string (proto.file e))
                     (proto.callchain (proto.sample r)))
         (built_records show tree records) ->
  dump_blocks count (map proto.sample (built_records show tree records))
  = expected_dump count show tree records.
Proof.
  induction records as [| [r | ty] records IH]; intros count tree;
    cbn [built_records expected_dump]; [reflexivity | | apply IH].
  rewrite build_proto_record_spec. intros Hf.
  inversion Hf as [| ? ? Hfr Hf']; subst.
  cbn [map dump_blocks proto.sample]. rewrite IH by exact Hf'.
  unfold dump_sample. cbn [proto.time proto.callchain proto.sample] in *.
  rewrite dump_entry_field_entry
    by (try exact Hfr; apply sample_chain_symbols).
  rewrite <- app_assoc. reflexivity.
Qed.

Lemma DumpProtobufReport_loop_terminator filename fuel rest st :
  DumpProtobufReport_loop (S fuel) filename (terminator ++ rest) st
  = Some (true, st).
Proof. reflexivity. Qed.

Context (valid : proto.Record_ -> Prop) {OK : ProtoCodecOk PC valid}.

(** Dumping the frames of [records] followed by a terminator. *)
Lemma DumpProtobufReport_frames filename records rest st :
  Forall valid records ->
  Forall (fun r => proto.type r = Record_Type_SAMPLE) records ->
  fopen_read filename = Some (flat_map frame records ++ terminator ++ rest) ->
  DumpProtobufReport filename st
  = Some (true, dumped_state st (map proto.sample records)).
Proof.
  intros Hv Ht Hfile. unfold DumpProtobufReport. rewrite Hfile.
  pose proof (reads_samples_frames valid records (terminator ++ rest) Hv Ht) as Hr.
  eapply DumpProtobufReport_loop_reads in Hr; [| apply Nat.lt_succ_diag_r].
  destruct Hr as [_ ->]. apply DumpProtobufReport_loop_terminator.
Qed.

(** C1: the report of a run in binary mode that returned true and
    whose report file has no error, when dumped, gives one block for
    each sample record of the capture and nothing else, in the order of
    the capture; the block of a sample shows the sample's timestamp and,
    for each of its resolved frames in order, the address, the module
    and the symbol that were written (module paths being C strings).
    The dumper logs nothing and its counter advances by the number of
    samples. *)
Theorem report_round_trip (args : list string) (process : DumpState)
    (o : Options) (records : list PerfRecord) (read_ok : bool)
    (out : Outcome) (filename : string) (dump_process : DumpState) :
  ParseOptions args = inl o ->
  dump_protobuf_report_file_ o = "" ->
  use_protobuf_ o = true ->
  open_record_file (record_filename_ o) = Some (records, read_ok) ->
  Run args process = Some out ->
  result out = true ->
  f_error (report_fp_ (final out)) = false ->
  Forall valid (built_records (show_callchain_ o) ThreadTree_new records) ->
  Forall (fun r => Forall (fun e => c_string (proto.file e))
                     (proto.callchain (proto.sample r)))
         (built_records (show_callchain_ o) ThreadTree_new records) ->
  fopen_read filename = Some (f_bytes (report_fp_ (final out))) ->
  let expected :=
    expected_dump (d_sample_count dump_process) (show_callchain_ o)
      ThreadTree_new records in
  exists dumped,
    DumpProtobufReport filename dump_process = Some (true, dumped)
    /\ d_stdout dumped = d_stdout dump_process ++ expected
    /\ List.length (filter is_dump_header expected)
       = List.length (sample_records records)
    /\ d_log dumped = d_log dump_process
    /\ d_sample_count dumped
       = advance_count (d_sample_count dump_process)
           (List.length (sample_records records)).
Proof.
  intros Hparse Hdump Hpb Hopen Hrun Hres Hfe Hvalid Hpaths Hfile. cbv zeta.
  rewrite (Run_protobuf_report args process o records read_ok out) in Hfile
    by assumption.
  exists (dumped_state dump_process
            (map proto.sample
               (built_records (show_callchain_ o) ThreadTree_new records))).
  split.
  - apply DumpProtobufReport_frames with (rest := []);
      [exact Hvalid | apply built_records_type |].
    rewrite app_nil_r. exact Hfile.
  - unfold dumped_state. cbn [d_stdout d_log d_sample_count].
    rewrite dump_blocks_expected by exact Hpaths.
    rewrite length_map, built_records_length, expected_dump_headers. auto.
Qed.
End RoundTrip.


(** ** How the dumper ends *)

Section DumpEnds.
Context {PC : ProtoCodec} {RT : Runtime}.

Lemma DumpProtobufReport_total filename st :
  exists ok st', DumpProtobufReport filename st = Some (ok, st').
Proof.
  unfold DumpProtobufReport.
  destruct (fopen_read filename) as [contents |]; [| eauto].
  destruct (DumpProtobufReport_loop_fuel filename (S (List.length contents))
              (S (List.length contents)) contents st) as [_ H]; [lia | lia |].
  destruct (DumpProtobufReport_loop (S (List.length contents)) filename contents st)
    as [[ok st'] |]; [eauto | congruence].
Qed.

(** After a run of samples, a length that cannot be read is a failure. *)
Lemma DumpProtobufReport_end_of_file filename contents st samples s' :
  fopen_read filename = Some contents ->
  reads_samples contents samples s' ->
  (List.length s' < 4)%nat ->
  DumpProtobufReport filename st
  = Some (false, dump_failed (dumped_state st samples) (failed_to_read filename)).
Proof.
  intros Hfile Hr Hshort. unfold DumpProtobufReport. rewrite Hfile.
  eapply DumpProtobufReport_loop_reads in Hr; [| apply Nat.lt_succ_diag_r].
  destruct Hr as [_ ->]. cbn [DumpProtobufReport_loop].
  rewrite ReadLittleEndian32_short by exact Hshort. reflexivity.
Qed.

(** C6: the dumper always returns; it returns true exactly when, after
    a run of sample records, it reads a length equal to zero; when the
    file ends where the next length should be, reading it fails and the
    dumper returns false, as it does on a report whose frames are not
    followed by a terminator. *)
Theorem dump_succeeds_only_at_zero_length (filename : string)
    (contents : list byte) (st : DumpState) :
  fopen_read filename = Some contents ->
  (exists ok st', DumpProtobufReport filename st = Some (ok, st'))
  /\ (forall st',
        DumpProtobufReport filename st = Some (true, st') <->
        exists samples s' rest,
          reads_samples contents samples s'
          /\ ReadLittleEndian32 s' = Some (0, rest)
          /\ st' = dumped_state st samples)
  /\ (forall samples s',
        reads_samples contents samples s' ->
        (List.length s' < 4)%nat ->
        ReadLittleEndian32 s' = None
        /\ DumpProtobufReport filename st
           = Some (false, dump_failed (dumped_state st samples)
                            (failed_to_read filename)))
  /\ (forall valid records,
        ProtoCodecOk PC valid ->
        Forall valid records ->
        Forall (fun r => proto.type r = Record_Type_SAMPLE) records ->
        contents = flat_map frame records ->
        DumpProtobufReport filename st
        = Some (false, dump_failed (dumped_state st (map proto.sample records))
                         (failed_to_read filename))).
Proof.
  intros Hfile. split; [apply DumpProtobufReport_total |]. split; [| split].
  - intros st'. unfold DumpProtobufReport. rewrite Hfile. split.
    + apply DumpProtobufReport_loop_true.
    + intros (samples & s' & rest & Hr & Hz & ->).
      eapply DumpProtobufReport_loop_reads in Hr; [| apply Nat.lt_succ_diag_r].
      destruct Hr as [_ ->]. cbn [DumpProtobufReport_loop].
      rewrite Hz. reflexivity.
  - intros samples s' Hr Hshort.
    split; [apply ReadLittleEndian32_short; exact Hshort |].
    eapply DumpProtobufReport_end_of_file; eassumption.
  - intros valid records OK Hv Ht ->.
    apply DumpProtobufReport_end_of_file with (contents := flat_map frame records)
                                              (s' := []);
      [exact Hfile | | cbn; lia].
    rewrite <- (app_nil_r (flat_map frame records)) at 1.
    apply (reads_samples_frames valid); assumption.
Qed.

(** C9: when, after a run of sample records, the dumper parses a
    record whose type is not SAMPLE, it logs the type it found and
    returns false at once: the blocks of the earlier samples are all it
    printed, whatever follows the record on the file. *)
Theorem unexpected_record_type_is_fatal (filename : string)
    (contents : list byte) (st : DumpState) (samples : list proto.Sample)
    (s' : list byte) (size : Z) (rest : list byte) (r : proto.Record_)
    (consumed : nat) :
  fopen_read filename = Some contents ->
  reads_samples contents samples s' ->
  ReadLittleEndian32 s' = Some (size, rest) ->
  size <> 0 ->
  ParseBytes (firstn (Z.to_nat size) rest) = Some (r, consumed) ->
  proto.type r <> Record_Type_SAMPLE ->
  DumpProtobufReport filename st
  = Some (false,
          mkDumpState
            (d_stdout st ++ dump_blocks (d_sample_count st) samples)
            (d_log st ++ [mkLog ERROR [LStr "unexpected record type ";
                                       LNum (proto.type r)]])
            (advance_count (d_sample_count st) (List.length samples))).
Proof.
  intros Hfile Hr ER Hsize EP Hty. unfold DumpProtobufReport. rewrite Hfile.
  eapply DumpProtobufReport_loop_reads in Hr; [| apply Nat.lt_succ_diag_r].
  destruct Hr as [_ ->]. cbn [DumpProtobufReport_loop].
  apply Z.eqb_neq in Hsize, Hty. rewrite ER, Hsize, EP, Hty. reflexivity.
Qed.
End DumpEnds.


(** ** The dumper's counter *)

Lemma advance_count_mod : forall n count,
  is_uint64 count ->
  advance_count count n = (count + Z.of_nat n) mod UINT64_MOD.
Proof.
  unfold is_uint64.
  induction n as [| n IH]; intros count Hc.
  - cbn [advance_count]. rewrite Z.add_0_r, Z.mod_small; [reflexivity | exact Hc].
  - cbn [advance_count]. rewrite IH.
    + rewrite Zplus_mod_idemp_l. f_equal. lia.
    + apply Z.mod_pos_bound. reflexivity.
Qed.

Lemma reads_samples_length {PC : ProtoCodec} s samples s' :
  reads_samples s samples s' ->
  (4 * List.length samples + List.length s' <= List.length s)%nat.
Proof.
  induction 1 as [s | s size rest r consumed samples s' ER Hsize EP Hty Hrs IH];
    [cbn; lia |].
  apply ReadLittleEndian32_length in ER.
  pose proof (length_skipn consumed rest) as Hs. cbn [List.length]. lia.
Qed.

Section DumpCounter.
Context {PC : ProtoCodec} {RT : Runtime}.

(** What the loop prints depends on the file alone; the state it starts
    in only numbers the blocks. *)
Lemma DumpProtobufReport_loop_shape filename : forall fuel s,
  (List.length s < fuel)%nat ->
  exists samples s' ok logs,
    reads_samples s samples s'
    /\ forall st,
         DumpProtobufReport_loop fuel filename s st
         = Some (ok, mkDumpState
                       (d_stdout st ++ dump_blocks (d_sample_count st) samples)
                       (d_log st ++ logs)
                       (advance_count (d_sample_count st) (List.length samples))).
Proof.
  induction fuel as [| fuel IH]; intros s Hfuel; [lia |].
  cbn [DumpProtobufReport_loop].
  destruct (ReadLittleEndian32 s) as [[size rest] |] eqn:ER.
  2:{ exists [], s, false, [failed_to_read filename].
      split; [constructor |]. intros st. cbn. rewrite app_nil_r. reflexivity. }
  destruct (size =? 0) eqn:E0.
  { exists [], s, true, []. split; [constructor |]. intros st. cbn.
    rewrite !app_nil_r. destruct st; reflexivity. }
  destruct (ParseBytes (firstn (Z.to_nat size) rest)) as [[r consumed] |] eqn:EP.
  2:{ exists [], s, false, [failed_to_read filename].
      split; [constructor |]. intros st. cbn. rewrite app_nil_r. reflexivity. }
  destruct (proto.type r =? Record_Type_SAMPLE) eqn:ET; cbn [negb].
  2:{ exists [], s, false, [unexpected_record_type (proto.type r)].
      split; [constructor |]. intros st. cbn. rewrite app_nil_r. reflexivity. }
  pose proof (ReadLittleEndian32_length _ _ _ ER) as Hlen.
  pose proof (length_skipn consumed rest) as Hs.
  destruct (IH (skipn consumed rest)) as (samples & s' & ok & logs & Hr & Hloop);
    [lia |].
  exists (proto.sample r :: samples), s', ok, logs. split.
  - apply Z.eqb_neq in E0. apply Z.eqb_eq in ET. econstructor; eassumption.
  - intros st. rewrite Hloop.
    cbn [d_stdout d_log d_sample_count dump_blocks List.length advance_count].
    rewrite <- app_assoc. reflexivity.
Qed.

(** C10: the dumper numbers its blocks from a counter that lives on
    between calls. When a call that printed at least one block is
    followed by a call on the same file, the second call prints the
    same samples numbered on from where the first stopped: its first
    block is not "sample 1" again, and the two outputs differ. *)
Theorem dump_numbering_continues_across_calls (filename : string)
    (contents : list byte) (st st1 st2 : DumpState) (ok1 ok2 : bool) :
  fopen_read filename = Some contents ->
  Z.of_nat (List.length contents) < UINT64_MOD ->
  is_uint64 (d_sample_count st) ->
  DumpProtobufReport filename st = Some (ok1, st1) ->
  DumpProtobufReport filename st1 = Some (ok2, st2) ->
  d_stdout st1 <> d_stdout st ->
  exists sample samples,
    let n := Z.of_nat (List.length (sample :: samples)) in
    let first_output := dump_blocks (d_sample_count st) (sample :: samples) in
    let second_output := dump_blocks (d_sample_count st1) (sample :: samples) in
    d_stdout st1 = d_stdout st ++ first_output
    /\ d_stdout st2 = d_stdout st1 ++ second_output
    /\ d_sample_count st1 = (d_sample_count st + n) mod UINT64_MOD
    /\ hd_error first_output
       = Some (mkPrint 0 "sample %zu:\n"
                 [ArgSize ((d_sample_count st + 1) mod UINT64_MOD)])
    /\ hd_error second_output
       = Some (mkPrint 0 "sample %zu:\n"
                 [ArgSize ((d_sample_count st + n + 1) mod UINT64_MOD)])
    /\ (d_sample_count st + n + 1) mod UINT64_MOD
       <> (d_sample_count st + 1) mod UINT64_MOD
    /\ first_output <> second_output
    /\ ok1 = ok2.
Proof.
  intros Hfile Hsize Hcount Hrun1 Hrun2 Hprinted.
  unfold DumpProtobufReport in Hrun1, Hrun2. rewrite Hfile in Hrun1, Hrun2.
  destruct (DumpProtobufReport_loop_shape filename (S (List.length contents))
              contents) as (samples & s' & ok & logs & Hr & Hloop); [lia |].
  rewrite Hloop in Hrun1, Hrun2.
  injection Hrun1 as <- <-. injection Hrun2 as <- <-.
  cbn [d_stdout d_sample_count] in *.
  destruct samples as [| sample samples].
  { exfalso. apply Hprinted. cbn. apply app_nil_r. }
  exists sample, samples. cbv zeta.
  pose proof (reads_samples_length _ _ _ Hr) as Hlen.
  set (n := Z.of_nat (List.length (sample :: samples))) in *.
  assert (Hn : 0 < n < UINT64_MOD).
  { subst n. cbn [List.length] in *. lia. }
  assert (Hc1 : advance_count (d_sample_count st) (List.length (sample :: samples))
                = (d_sample_count st + n) mod UINT64_MOD)
    by (apply advance_count_mod; exact Hcount).
  rewrite Hc1.
  assert (Hne : (d_sample_count st + n + 1) mod UINT64_MOD
                <> (d_sample_count st + 1) mod UINT64_MOD).
  { unfold is_uint64, UINT64_MOD in *. intros Heq.
    assert (Hd : ((d_sample_count st + n + 1) - (d_sample_count st + 1)) mod 2 ^ 64 = 0).
    { rewrite Zminus_mod, Heq, Z.sub_diag. reflexivity. }
    replace (d_sample_count st + n + 1 - (d_sample_count st + 1)) with n in Hd by lia.
    rewrite Z.mod_small in Hd by lia. lia. }
  repeat split; try reflexivity.
  - cbn [dump_blocks dump_sample app hd_error].
    rewrite Zplus_mod_idemp_l. reflexivity.
  - exact Hne.
  - cbn [dump_blocks dump_sample app]. rewrite Zplus_mod_idemp_l.
    intros Heq. injection Heq as Heq _. apply Hne. symmetry. exact Heq.
Qed.
End DumpCounter.


(** ** The block of a dumped sample *)

Lemma field_lines_app a b : field_lines (a ++ b) = field_lines a ++ field_lines b.
Proof. unfold field_lines. rewrite filter_app, map_app. reflexivity. Qed.

Lemma field_lines_entry_lines indent e :
  field_lines (entry_lines indent e)
  = [ ("ip: %PRIx64\n", [ArgX64 (proto.ip e)]);
      ("dso: %s\n", [ArgStr (c_str (proto.file e))]);
      ("symbol: %s\n", [ArgStr (c_str (proto.symbol e))]) ].
Proof. reflexivity. Qed.

Lemma field_lines_frames indent chain :
  field_lines (flat_map (entry_lines indent) chain)
  = flat_map (fun e => field_lines (entry_lines 0 e)) chain.
Proof.
  induction chain as [| e chain IH]; [reflexivity |].
  cbn [flat_map]. rewrite field_lines_app, IH, !field_lines_entry_lines.
  reflexivity.
Qed.

(** The text block and the dumped block of the same frames list the same
    fields in the same order. *)
Lemma text_block_mirrored show time chain count :
  (show = true \/ (List.length chain <= 1)%nat) ->
  field_lines (text_block show time chain)
  = field_lines (rendered_block count time chain).
Proof.
  intros H. unfold text_block, rendered_block.
  rewrite !field_lines_app.
  rewrite !field_lines_frames.
  change (field_lines [mkPrint 0 "sample:\n" [];
                       mkPrint 1 "time: %PRIu64\n" [ArgU64 time]])
    with [("time: %PRIu64\n", [ArgU64 time])].
  change (field_lines [mkPrint 0 "sample %zu:\n" [ArgSize count];
                       mkPrint 1 "time: %PRIu64\n" [ArgU64 time];
                       mkPrint 1 "callchain:\n" []])
    with [("time: %PRIu64\n", [ArgU64 time])].
  f_equal.
  rewrite <- (firstn_skipn 1 chain) at 3. rewrite flat_map_app. f_equal.
  destruct show.
  - change (field_lines (mkPrint 1 "callchain:\n" [] :: flat_map (entry_lines 2) (skipn 1 chain)))
      with (field_lines (flat_map (entry_lines 2) (skipn 1 chain))).
    apply field_lines_frames.
  - destruct H as [H | H]; [discriminate |].
    destruct chain as [| e [| e' chain]]; cbn [List.length] in H;
      [reflexivity | reflexivity | lia].
Qed.

(** The blocks the dumper prints are the blocks of the specification. *)
Lemma dump_blocks_rendered : forall samples count,
  dump_blocks count samples = rendered_blocks count samples.
Proof.
  induction samples as [| s samples IH]; intros count; [reflexivity |].
  cbn [dump_blocks rendered_blocks]. rewrite IH. reflexivity.
Qed.

Lemma rendered_blocks_app : forall samples count later,
  rendered_blocks count (samples ++ later)
  = rendered_blocks count samples
    ++ rendered_blocks (advance_count count (List.length samples)) later.
Proof.
  induction samples as [| s samples IH]; intros count later; [reflexivity |].
  cbn [app rendered_blocks List.length advance_count].
  rewrite IH, <- app_assoc. reflexivity.
Qed.

Section DumpBlock.
Context {TT : ThreadTreeOps} {PC : ProtoCodec} {RT : Runtime}.

Lemma sample_chain_length_no_callchain tree r :
  (List.length (sample_chain false tree r) <= 1)%nat.
Proof.
  unfold sample_chain.
  destruct (FindThreadOrNew tree (tid_data_pid r) (tid_data_tid r)).
  cbn. lia.
Qed.

(** C5: the dumper returns, and for the samples it reads from a report
    it prints, in order and with nothing in between, one block each: at
    indentation 0 the numbered header, at indentation 1 the timestamp
    and a call-chain header, then at indentation 2 three lines for each
    frame in order, its address, its module and its symbol. The block
    mirrors text mode: for any sample, the block text mode prints and
    the block of the message written for it in binary mode carry the
    same timestamp and the same address, module and symbol lines in the
    same order. *)
Theorem dumped_sample_block_layout (filename : string)
    (contents : list byte) (st : DumpState) (samples : list proto.Sample)
    (s' : list byte) :
  fopen_read filename = Some contents ->
  reads_samples contents samples s' ->
  (exists ok st' later,
     DumpProtobufReport filename st = Some (ok, st')
     /\ d_stdout st'
        = d_stdout st
          ++ rendered_blocks (d_sample_count st) (samples ++ later))
  /\ forall (opts : Options) (cst : State) (sr : SampleRecord) (n : Z),
       let written :=
         proto.sample
           (fst (fst (build_proto_record (show_callchain_ opts)
                        (thread_tree_ cst) sr))) in
       exists text,
         f_text (report_fp_ (snd (PrintSampleRecord opts cst sr)))
         = f_text (report_fp_ cst) ++ text
         /\ field_lines text
            = field_lines
                (rendered_block n (proto.time written)
                   (proto.callchain written)).
Proof.
  intros Hfile Hr. split.
  - unfold DumpProtobufReport. rewrite Hfile.
    eapply DumpProtobufReport_loop_reads in Hr; [| apply Nat.lt_succ_diag_r].
    destruct Hr as [_ ->].
    destruct (DumpProtobufReport_loop_shape filename (S (List.length s')) s'
                (Nat.lt_succ_diag_r _))
      as (later & s'' & ok & logs & _ & Hloop).
    rewrite Hloop. eexists ok, _, later. split; [reflexivity |].
    cbn [d_stdout dumped_state d_sample_count].
    rewrite !dump_blocks_rendered, rendered_blocks_app, app_assoc.
    reflexivity.
  - intros opts cst sr n. cbv zeta.
    pose proof (PrintSampleRecord_spec opts cst sr) as Ht. cbv zeta in Ht.
    destruct Ht as (_ & Ht & _).
    eexists. split; [exact Ht |].
    rewrite build_proto_record_spec.
    cbn [fst proto.sample proto.time proto.callchain].
    apply text_block_mirrored.
    destruct (show_callchain_ opts); [left; reflexivity | right].
    apply sample_chain_length_no_callchain.
Qed.
End DumpBlock.

(** ** Option parsing *)

Lemma ParseOptions_loop_keeps_report_filename : forall n args o o',
  (List.length args <= n)%nat ->
  ~ In "-o" args ->
  ParseOptions_loop args o = inl o' ->
  report_filename_ o' = report_filename_ o.
Proof.
  induction n as [| n IH]; intros args o o' Hlen Hnot Hloop.
  - destruct args; [| cbn in Hlen; lia]. cbn in Hloop. congruence.
  - destruct args as [| arg rest]; [cbn in Hloop; congruence |].
    cbn [ParseOptions_loop] in Hloop. cbn [List.length] in Hlen.
    assert (Hrest : ~ In "-o" rest) by (intros H; apply Hnot; right; exact H).
    assert (Harg : (arg =? "-o")%string = false).
    { apply String.eqb_neq. intros ->. apply Hnot. left. reflexivity. }
    rewrite Harg in Hloop.
    destruct (arg =? "--dump-protobuf-report")%string.
    { destruct rest as [| value rest']; [discriminate |].
      apply IH in Hloop; [exact Hloop | cbn [List.length] in Hlen; lia |].
      intros H; apply Hrest; right; exact H. }
    destruct (arg =? "-i")%string.
    { destruct rest as [| value rest']; [discriminate |].
      apply IH in Hloop; [exact Hloop | cbn [List.length] in Hlen; lia |].
      intros H; apply Hrest; right; exact H. }
    destruct (arg =? "--protobuf")%string.
    { apply IH in Hloop; [exact Hloop | lia | exact Hrest]. }
    destruct (arg =? "--show-callchain")%string; [| discriminate].
    apply IH in Hloop; [exact Hloop | lia | exact Hrest].
Qed.

(** Binary mode with an empty report file name is refused before
    anything is opened. *)
Lemma Run_protobuf_without_filename
    {TT : ThreadTreeOps} {PC : ProtoCodec} {RT : Runtime} args process o :
  ParseOptions_loop args Options_init = inl o ->
  use_protobuf_ o = true ->
  report_filename_ o = "" ->
  ParseOptions args = inr missing_report_filename
  /\ Run args process
     = Some (mkOutcome false [] (add_log State_init missing_report_filename)
               process).
Proof.
  intros Hloop Hpb Hname.
  assert (Hparse : ParseOptions args = inr missing_report_filename).
  { unfold ParseOptions. rewrite Hloop, Hpb, Hname. reflexivity. }
  split; [exact Hparse |]. unfold Run. rewrite Hparse. reflexivity.
Qed.

(** C8: when the options select binary mode and none of the arguments is
    [-o], [ParseOptions] logs that a report file name is needed and
    fails, and the run returns false having opened no file and processed
    no record: the thread tree and the sample count are as constructed. *)
Theorem protobuf_without_report_file_fails
    {TT : ThreadTreeOps} {PC : ProtoCodec} {RT : Runtime}
    (args : list string) (process : DumpState) (o : Options) :
  ParseOptions_loop args Options_init = inl o ->
  use_protobuf_ o = true ->
  ~ In "-o" args ->
  ParseOptions args
  = inr (mkLog ERROR
           [LStr "please specify a report filename to write protobuf data"])
  /\ exists out,
       Run args process = Some out
       /\ result out = false
       /\ opened out = []
       /\ thread_tree_ (final out) = ThreadTree_new
       /\ sample_count_ (final out) = 0
       /\ report_fp_ (final out) = FILE_empty
       /\ log_ (final out)
          = [mkLog ERROR
               [LStr "please specify a report filename to write protobuf data"]]
       /\ dumped out = process.
Proof.
  intros Hloop Hpb Hnot.
  assert (Hname : report_filename_ o = "").
  { apply (ParseOptions_loop_keeps_report_filename (List.length args) args
             Options_init o); [lia | exact Hnot | exact Hloop]. }
  destruct (Run_protobuf_without_filename args process o Hloop Hpb Hname)
    as [Hparse Hrun].
  split; [exact Hparse |].
  eexists. split; [exact Hrun |]. cbn. repeat split; reflexivity.
Qed.


(** ** The wire codec meets the contract *)

Module WireFacts.
Import Wire.

Lemma read_varint_varint : forall fuel n rest,
  0 <= n < 128 ^ Z.of_nat (S fuel) ->
  read_varint (S fuel) (varint (S fuel) n ++ rest) = Some (n, rest).
Proof.
  induction fuel as [| fuel IH]; intros n rest Hn.
  - change (128 ^ Z.of_nat 1) with 128 in Hn.
    cbn [varint read_varint].
    destruct (n <? 128) eqn:E; [| apply Z.ltb_ge in E; lia].
    cbn [app]. rewrite byte.unsigned_of_Z. unfold byte.wrap.
    rewrite Z.mod_small by lia. rewrite E. reflexivity.
  - remember (S fuel) as fuel1 eqn:Hf.
    cbn [varint read_varint].
    rewrite Nat2Z.inj_succ, Z.pow_succ_r in Hn by lia.
    destruct (n <? 128) eqn:E.
    + cbn [app]. rewrite byte.unsigned_of_Z. unfold byte.wrap.
      apply Z.ltb_lt in E. rewrite Z.mod_small by lia.
      apply Z.ltb_lt in E. rewrite E. reflexivity.
    + apply Z.ltb_ge in E. cbn [app].
      rewrite byte.unsigned_of_Z. unfold byte.wrap.
      pose proof (Z.mod_pos_bound n 128 eq_refl) as Hm.
      rewrite Z.mod_small by lia.
      assert (E' : (n mod 128 + 128 <? 128) = false) by (apply Z.ltb_ge; lia).
      rewrite E'. subst fuel1. rewrite IH.
      * f_equal. f_equal. pose proof (Z.div_mod n 128). lia.
      * split; [apply Z.div_pos; lia |].
        apply Z.div_lt_upper_bound; lia.
Qed.

Lemma ReadVarint64_WriteVarint64 n rest :
  is_uint64 n -> ReadVarint64 (WriteVarint64 n ++ rest) = Some (n, rest).
Proof.
  unfold is_uint64, ReadVarint64, WriteVarint64, UINT64_MOD. intros Hn.
  change 10%nat with (S 9). rewrite read_varint_varint.
  - rewrite Z.mod_small by exact Hn. reflexivity.
  - change (128 ^ Z.of_nat 10) with (2 ^ 70).
    assert (2 ^ 64 < 2 ^ 70) by reflexivity. lia.
Qed.

(** A one-byte field key. *)
Lemma ReadVarint64_key key rest :
  0 <= key < 128 ->
  ReadVarint64 (byte.of_Z key :: rest) = Some (key, rest).
Proof.
  intros Hk.
  replace (byte.of_Z key :: rest) with (WriteVarint64 key ++ rest).
  - apply ReadVarint64_WriteVarint64. unfold is_uint64, UINT64_MOD.
    assert (128 < 2 ^ 64) by reflexivity. lia.
  - unfold WriteVarint64. cbn [varint].
    destruct (key <? 128) eqn:E; [reflexivity | apply Z.ltb_ge in E; lia].
Qed.

Lemma ReadBytes_WriteBytes body rest :
  small body -> ReadBytes (WriteBytes body ++ rest) = Some (body, rest).
Proof.
  unfold small, ReadBytes, WriteBytes. intros Hs.
  rewrite <- app_assoc, ReadVarint64_WriteVarint64
    by (unfold is_uint64; lia).
  rewrite length_app.
  destruct (Z.of_nat (List.length body)
            <=? Z.of_nat (List.length body + List.length rest)) eqn:E;
    [| apply Z.leb_gt in E; lia].
  rewrite Nat2Z.id, firstn_app, Nat.sub_diag, firstn_all, skipn_app,
    Nat.sub_diag, skipn_all.
  cbn [firstn skipn app]. rewrite app_nil_r. reflexivity.
Qed.

Lemma parse_entry_serialize_entry e fuel e0 :
  entry_ok e ->
  parse_entry (S (S (S (S fuel)))) (serialize_entry e) e0 = Some e.
Proof.
  intros (Hip & Hsym & Hfile & _). unfold serialize_entry.
  cbn [parse_entry].
  rewrite ReadVarint64_key by lia. cbn [Z.eqb Pos.eqb].
  rewrite ReadVarint64_WriteVarint64 by exact Hip.
  rewrite ReadVarint64_key by lia. cbn [Z.eqb Pos.eqb].
  rewrite ReadBytes_WriteBytes by exact Hsym.
  rewrite ReadVarint64_key by lia. cbn [Z.eqb Pos.eqb].
  rewrite <- (app_nil_r (WriteBytes (list_byte_of_string (proto.file e)))).
  rewrite ReadBytes_WriteBytes by exact Hfile.
  rewrite !string_of_list_byte_of_string. destruct e; reflexivity.
Qed.

Lemma serialize_entry_length e : (3 <= List.length (serialize_entry e))%nat.
Proof.
  unfold serialize_entry. cbn [List.length].
  rewrite !length_app. cbn [List.length]. rewrite length_app. cbn [List.length]. lia.
Qed.

Lemma parse_sample_entries : forall chain fuel rest_chain time,
  Forall entry_ok chain ->
  (List.length chain < fuel)%nat ->
  parse_sample fuel (flat_map entry_frame chain) (proto.mkSample time rest_chain)
  = Some (proto.mkSample time (rest_chain ++ chain)).
Proof.
  induction chain as [| e chain IH]; intros fuel rest_chain time Hok Hfuel.
  - destruct fuel; [cbn in Hfuel; lia |]. cbn. rewrite app_nil_r. reflexivity.
  - destruct fuel as [| fuel]; [lia |].
    inversion Hok as [| ? ? He Hok']; subst.
    cbn [flat_map]. unfold entry_frame at 1. cbn [app parse_sample].
    rewrite ReadVarint64_key by lia. cbn [Z.eqb Pos.eqb].
    rewrite ReadBytes_WriteBytes by apply He.
    pose proof (serialize_entry_length e) as Hl.
    destruct (List.length (serialize_entry e)) as [| [| [| n]]] eqn:El; try lia.
    rewrite <- El.
    replace (S (List.length (serialize_entry e))) with (S (S (S (S n))))
      by (rewrite El; reflexivity).
    rewrite parse_entry_serialize_entry by exact He.
    cbn [proto.time proto.callchain].
    rewrite IH by (try assumption; cbn [List.length] in Hfuel; lia).
    rewrite <- app_assoc. reflexivity.
Qed.

Lemma serialize_sample_frames s :
  serialize_sample s
  = byte.of_Z 8 :: WriteVarint64 (proto.time s)
    ++ flat_map entry_frame (proto.callchain s).
Proof. reflexivity. Qed.

Lemma entry_frame_length e : (1 <= List.length (entry_frame e))%nat.
Proof. unfold entry_frame. cbn [List.length]. lia. Qed.

Lemma flat_map_entry_frame_length chain :
  (List.length chain <= List.length (flat_map entry_frame chain))%nat.
Proof.
  induction chain as [| e chain IH]; [cbn; lia |].
  cbn [flat_map List.length]. rewrite length_app.
  pose proof (entry_frame_length e). lia.
Qed.

Lemma parse_sample_serialize_sample s :
  is_uint64 (proto.time s) ->
  Forall entry_ok (proto.callchain s) ->
  parse_sample (S (List.length (serialize_sample s))) (serialize_sample s)
    sample_default
  = Some s.
Proof.
  intros Ht Hok. rewrite serialize_sample_frames. cbn [parse_sample].
  rewrite ReadVarint64_key by lia. cbn [Z.eqb Pos.eqb].
  rewrite ReadVarint64_WriteVarint64 by exact Ht.
  cbn [proto.callchain sample_default].
  rewrite parse_sample_entries.
  - destruct s; reflexivity.
  - exact Hok.
  - cbn [List.length]. rewrite length_app.
    pose proof (flat_map_entry_frame_length (proto.callchain s)). lia.
Qed.

Lemma parse_record_serialize_record r :
  is_uint64 (proto.type r) ->
  is_uint64 (proto.time (proto.sample r)) ->
  Forall entry_ok (proto.callchain (proto.sample r)) ->
  small (serialize_sample (proto.sample r)) ->
  ParseFromCodedStream (serialize_record r)
  = Some (r, List.length (serialize_record r)).
Proof.
  intros Hty Ht Hok Hs. unfold ParseFromCodedStream.
  set (total := List.length (serialize_record r)).
  assert (Hfuel : exists fuel, S total = S (S (S fuel))).
  { subst total. unfold serialize_record. cbn [List.length].
    rewrite length_app. cbn [List.length]. exists (List.length (WriteVarint64 (proto.type r)) + List.length (WriteBytes (serialize_sample (proto.sample r))))%nat. lia. }
  destruct Hfuel as [fuel ->].
  unfold serialize_record. cbn [parse_record].
  rewrite ReadVarint64_key by lia. cbn [Z.eqb Pos.eqb].
  rewrite ReadVarint64_WriteVarint64 by exact Hty.
  rewrite ReadVarint64_key by lia. cbn [Z.eqb Pos.eqb].
  rewrite <- (app_nil_r (WriteBytes (serialize_sample (proto.sample r)))).
  rewrite ReadBytes_WriteBytes by exact Hs.
  cbn [proto.sample record_default].
  rewrite (parse_sample_serialize_sample (proto.sample r)) by assumption.
  cbn [proto.type proto.sample]. destruct r; reflexivity.
Qed.

(** Parts of a message are no longer than the message. *)
Lemma In_flat_map_length {A} (f : A -> list byte) x xs :
  In x xs -> (List.length (f x) <= List.length (flat_map f xs))%nat.
Proof.
  induction xs as [| y xs IH]; intros Hin; [contradiction |].
  cbn [flat_map]. rewrite length_app. destruct Hin as [-> | Hin]; [lia |].
  specialize (IH Hin). lia.
Qed.

Lemma valid_entries_ok r :
  valid r -> Forall entry_ok (proto.callchain (proto.sample r))
             /\ small (serialize_sample (proto.sample r)).
Proof.
  intros (_ & _ & Hentries & Hsize).
  assert (Hmax : INT_MAX < UINT64_MOD) by reflexivity.
  assert (Hsample : Z.of_nat (List.length (serialize_sample (proto.sample r)))
                    <= INT_MAX).
  { unfold serialize_record, WriteBytes in Hsize. cbn [List.length] in Hsize.
    rewrite !length_app in Hsize. cbn [List.length] in Hsize.
    rewrite length_app in Hsize. lia. }
  split; [| unfold small; lia].
  apply Forall_forall. intros e Hin.
  rewrite Forall_forall in Hentries. specialize (Hentries e Hin).
  pose proof (In_flat_map_length entry_frame e _ Hin) as Hfm.
  assert (Hentry : Z.of_nat (List.length (serialize_entry e)) <= INT_MAX).
  { rewrite serialize_sample_frames in Hsample. cbn [List.length] in Hsample.
    rewrite length_app in Hsample. unfold entry_frame at 1, WriteBytes in Hfm.
    cbn [List.length] in Hfm. rewrite length_app in Hfm. lia. }
  unfold entry_ok, small. split; [exact Hentries |].
  unfold serialize_entry, WriteBytes in Hentry. cbn [List.length] in Hentry.
  rewrite !length_app in Hentry. cbn [List.length] in Hentry.
  rewrite !length_app in Hentry. cbn [List.length] in Hentry.
  rewrite !length_app in Hentry.
  repeat split; try lia.
  unfold serialize_entry, WriteBytes. cbn [List.length].
  rewrite !length_app. cbn [List.length]. rewrite !length_app.
  cbn [List.length]. rewrite !length_app. lia.
Qed.

#[export] Instance codec_ok : ProtoCodecOk Wire.codec Wire.valid.
Proof.
  constructor.
  - intros r _. reflexivity.
  - intros r Hv. cbn [ByteSize codec]. split; [| apply Hv].
    unfold serialize_record. cbn [List.length]. lia.
  - intros r Hv. destruct (valid_entries_ok r Hv) as [Hok Hs].
    destruct Hv as (Hty & Ht & _ & _).
    apply parse_record_serialize_record; assumption.
Qed.

End WireFacts.


(** * The theorems at work in the small world *)

Ltac compute_and_check := vm_compute; first [reflexivity | discriminate | tauto].

Lemma Demo_written_valid : Forall Wire.valid Demo.written.
Proof.
  repeat constructor; vm_compute; congruence.
Qed.

Lemma Demo_run :
  Run (TT := Demo.thread_tree) (PC := Wire.codec) (RT := Demo.world)
      Demo.protobuf_args Demo.process_start = Some Demo.outcome.
Proof. vm_compute. reflexivity. Qed.

Lemma Demo_outcome :
  result Demo.outcome = true
  /\ f_bytes (report_fp_ (final Demo.outcome)) = Demo.report.
Proof. split; vm_compute; reflexivity. Qed.

Lemma leaf_duplicate_skipped_once_witness :
  map proto.ip
    (proto.callchain (proto.sample
       (fst (fst (build_proto_record (TT := Demo.thread_tree) (PC := Wire.codec)
                    true [] Demo.sample1)))))
  = [4096; 4100; 77; 4096]
  /\ map proto.ip
       (proto.callchain (proto.sample
          (fst (fst (build_proto_record (TT := Demo.thread_tree)
                       (PC := Wire.codec) true [] Chains.late_duplicate)))))
     = [4096; 4100; 4096; 4096].
Proof.
  split.
  - destruct (leaf_duplicate_skipped_once (TT := Demo.thread_tree)
                (PC := Wire.codec) (RT := Demo.world)
                Demo.protobuf_options Demo.state_start Demo.sample1
                [] [4100; PERF_CONTEXT_KERNEL; 77; PERF_CONTEXT_USER; 4096] 4096
                eq_refl eq_refl eq_refl eq_refl)
      as (chain & Hchain & _ & Hips & _).
    subst chain. exact Hips.
  - destruct (leaf_duplicate_skipped_once (TT := Demo.thread_tree)
                (PC := Wire.codec) (RT := Demo.world)
                Demo.protobuf_options Demo.state_start Chains.late_duplicate
                [PERF_CONTEXT_USER] [4096; 4096] 4100
                eq_refl eq_refl eq_refl eq_refl)
      as (chain & Hchain & _ & Hips & _).
    subst chain. exact Hips.
Defined.

Lemma callchain_walk_contexts_witness :
  classify 5000 false [4100; PERF_CONTEXT_KERNEL; 77; PERF_CONTEXT_USER; 4200]
  = [(4100, false); (77, true); (4200, false)].
Proof.
  pose proof (callchain_walk_contexts (TT := Demo.thread_tree)
                (PC := Wire.codec) (RT := Demo.world)
                Demo.protobuf_options Demo.state_start Demo.sample3 eq_refl)
    as H.
  cbv zeta in H. destruct H as (_ & _ & _ & _ & _ & _ & H).
  apply (H 4100 77 4200); compute_and_check.
Defined.

Lemma Demo_outcome_no_error :
  f_error (report_fp_ (final Demo.outcome)) = false.
Proof. vm_compute. reflexivity. Qed.

Lemma Demo_stream_no_error :
  HadError
    (WriteLittleEndian32 (RT := Demo.world) 0
       (coded_os_
          (snd (ReadDataSection (TT := Demo.thread_tree) (PC := Wire.codec)
                  (RT := Demo.world) Demo.protobuf_options Demo.records true
                  State_init))))
  = false.
Proof. vm_compute. reflexivity. Qed.

Lemma Blocks_stream_error :
  HadError
    (WriteLittleEndian32 (RT := Blocks.small_disk) 0
       (coded_os_
          (snd (ReadDataSection (TT := Demo.thread_tree) (PC := Wire.codec)
                  (RT := Blocks.small_disk) Demo.protobuf_options
                  Blocks.records true State_init))))
  = true.
Proof. vm_compute. reflexivity. Qed.

Lemma Blocks_read_ok :
  fst (ReadDataSection (TT := Demo.thread_tree) (PC := Wire.codec)
         (RT := Blocks.small_disk) Demo.protobuf_options Blocks.records true
         State_init)
  = true.
Proof. vm_compute. reflexivity. Qed.

Lemma terminator_written_after_records_witness :
  (exists out,
     Run (TT := Demo.thread_tree) (PC := Wire.codec) (RT := Demo.world)
         Demo.protobuf_args Demo.process_start = Some out
     /\ result out = true
     /\ f_bytes (report_fp_ (final out)) = Demo.report)
  /\ (exists out,
        Run (TT := Demo.thread_tree) (PC := Wire.codec)
            (RT := Blocks.small_disk)
            Demo.protobuf_args Demo.process_start = Some out
        /\ result out = false
        /\ In (mkLog ERROR [LStr "print protobuf report failed"])
              (log_ (final out))).
Proof.
  split.
  - destruct (terminator_written_after_records (TT := Demo.thread_tree)
                (PC := Wire.codec) (RT := Demo.world)
                Demo.protobuf_args Demo.process_start Demo.protobuf_options
                Demo.records true eq_refl eq_refl eq_refl eq_refl eq_refl eq_refl)
      as (_ & _ & out & Hrun & _ & _ & Hok & Hfile).
    destruct (Hok Demo_stream_no_error) as [_ Hres].
    exists out. split; [exact Hrun |]. split; [exact Hres |].
    apply Hfile; [exact Hres |].
    rewrite Demo_run in Hrun. injection Hrun as <-.
    exact Demo_outcome_no_error.
  - destruct (terminator_written_after_records (TT := Demo.thread_tree)
                (PC := Wire.codec) (RT := Blocks.small_disk)
                Demo.protobuf_args Demo.process_start Demo.protobuf_options
                Blocks.records true eq_refl eq_refl eq_refl eq_refl eq_refl
                Blocks_read_ok)
      as (_ & _ & out & Hrun & _ & Hfail & _).
    exists out. split; [exact Hrun |]. apply Hfail. exact Blocks_stream_error.
Defined.

Lemma Demo_written_paths :
  Forall (fun r => Forall (fun e => c_string (proto.file e))
                     (proto.callchain (proto.sample r)))
         Demo.written.
Proof. repeat constructor. Qed.

Lemma report_round_trip_witness :
  exists dumped,
    DumpProtobufReport (PC := Wire.codec) (RT := Demo.world)
      "report.pb" Demo.process_start = Some (true, dumped)
    /\ d_stdout dumped
       = [ mkPrint 0 "sample %zu:\n" [ArgSize 1];
           mkPrint 1 "time: %PRIu64\n" [ArgU64 1000];
           mkPrint 1 "callchain:\n" [];
           mkPrint 2 "ip: %PRIx64\n" [ArgX64 4096];
           mkPrint 2 "dso: %s\n" [ArgStr "libfoo.so"];
           mkPrint 2 "symbol: %s\n" [ArgStr "foo"];
           mkPrint 2 "ip: %PRIx64\n" [ArgX64 4100];
           mkPrint 2 "dso: %s\n" [ArgStr "libfoo.so"];
           mkPrint 2 "symbol: %s\n" [ArgStr "foo"];
           mkPrint 2 "ip: %PRIx64\n" [ArgX64 77];
           mkPrint 2 "dso: %s\n" [ArgStr "[kernel.kallsyms]"];
           mkPrint 2 "symbol: %s\n" [ArgStr "sys_read"];
           mkPrint 2 "ip: %PRIx64\n" [ArgX64 4096];
           mkPrint 2 "dso: %s\n" [ArgStr "libfoo.so"];
           mkPrint 2 "symbol: %s\n" [ArgStr "foo"];
           mkPrint 0 "sample %zu:\n" [ArgSize 2];
           mkPrint 1 "time: %PRIu64\n" [ArgU64 2000];
           mkPrint 1 "callchain:\n" [];
           mkPrint 2 "ip: %PRIx64\n" [ArgX64 8192];
           mkPrint 2 "dso: %s\n" [ArgStr "unknown"];
           mkPrint 2 "symbol: %s\n" [ArgStr "unknown"] ]
    /\ d_sample_count dumped = 2.
Proof.
  destruct Demo_outcome as [Hres Hbytes].
  destruct (report_round_trip (TT := Demo.thread_tree) (PC := Wire.codec)
              (RT := Demo.world) Wire.valid (OK := WireFacts.codec_ok)
              Demo.protobuf_args Demo.process_start Demo.protobuf_options
              Demo.records true Demo.outcome "report.pb" Demo.process_start
              eq_refl eq_refl eq_refl eq_refl Demo_run Hres
              Demo_outcome_no_error Demo_written_valid Demo_written_paths
              (eq_trans (y := Some Demo.report) eq_refl (f_equal Some (eq_sym Hbytes))))
    as (dumped & Hdump & Hout & _ & _ & Hcount).
  exists dumped. split; [exact Hdump |]. split; [| exact Hcount].
  rewrite Hout. reflexivity.
Defined.


(** On a disk that cannot take the report the run still returns true:
    the report is smaller than the block of the stream, so it is the
    destructor that hands it to the file, and nothing looks at the
    result of that write. The file is left empty. *)
Example Run_full_disk :
  match Run (TT := Demo.thread_tree) (PC := Wire.codec) (RT := Demo.full_disk)
            Demo.protobuf_args Demo.process_start with
  | Some out =>
      result out = true
      /\ coded_os_HadError (final out) = false
      /\ f_bytes (report_fp_ (final out)) = []
      /\ f_error (report_fp_ (final out)) = true
      /\ last (log_ (final out)) (mkLog DEBUG [])
         = mkLog INFO [LStr "report "; LNum 2; LStr " samples in all."]
  | None => False
  end.
Proof. vm_compute. repeat split; reflexivity. Qed.

Lemma Demo_reads_report :
  reads_samples (PC := Wire.codec) Demo.report
    (map proto.sample Demo.written) terminator.
Proof.
  apply (reads_samples_frames (PC := Wire.codec) Wire.valid (OK := WireFacts.codec_ok)).
  - exact Demo_written_valid.
  - repeat constructor.
Qed.

Lemma Demo_reads_truncated :
  reads_samples (PC := Wire.codec) Demo.truncated
    (map proto.sample Demo.written) [].
Proof.
  unfold Demo.truncated.
  rewrite <- (app_nil_r (flat_map frame Demo.written)).
  apply (reads_samples_frames (PC := Wire.codec) Wire.valid (OK := WireFacts.codec_ok)).
  - exact Demo_written_valid.
  - repeat constructor.
Qed.

Lemma Demo_reads_mixed :
  reads_samples (PC := Wire.codec) Demo.mixed
    (map proto.sample (firstn 1 Demo.written))
    (frame (PC := Wire.codec) Demo.unknown_record
     ++ flat_map (frame (PC := Wire.codec)) (skipn 1 Demo.written) ++ terminator).
Proof.
  unfold Demo.mixed. rewrite !flat_map_app, <- !app_assoc.
  cbn [flat_map]. rewrite app_nil_r.
  apply (reads_samples_frames (PC := Wire.codec) Wire.valid (OK := WireFacts.codec_ok)).
  - repeat constructor; vm_compute; congruence.
  - repeat constructor.
Qed.

Lemma dump_succeeds_only_at_zero_length_witness :
  (exists st',
     DumpProtobufReport (PC := Wire.codec) (RT := Demo.world)
       "report.pb" Demo.process_start = Some (true, st'))
  /\ DumpProtobufReport (PC := Wire.codec) (RT := Demo.world)
       "truncated.pb" Demo.process_start
     = Some (false,
             dump_failed
               (dumped_state Demo.process_start (map proto.sample Demo.written))
               (failed_to_read "truncated.pb")).
Proof.
  split.
  - destruct (dump_succeeds_only_at_zero_length (PC := Wire.codec)
                (RT := Demo.world) "report.pb" Demo.report Demo.process_start
                eq_refl) as (_ & Hiff & _).
    eexists. apply Hiff.
    exists (map proto.sample Demo.written), terminator, [].
    split; [exact Demo_reads_report |]. split; reflexivity.
  - destruct (dump_succeeds_only_at_zero_length (PC := Wire.codec)
                (RT := Demo.world) "truncated.pb" Demo.truncated
                Demo.process_start eq_refl) as (_ & _ & Heof & _).
    apply (Heof (map proto.sample Demo.written) [] Demo_reads_truncated).
    cbn. lia.
Defined.

Lemma unexpected_record_type_is_fatal_witness :
  exists st',
    DumpProtobufReport (PC := Wire.codec) (RT := Demo.world)
      "mixed.pb" Demo.process_start = Some (false, st')
    /\ d_log st' = [mkLog ERROR [LStr "unexpected record type "; LNum 0]]
    /\ d_sample_count st' = 1.
Proof.
  eexists. split.
  - eapply (unexpected_record_type_is_fatal (PC := Wire.codec) (RT := Demo.world)
              "mixed.pb" Demo.mixed Demo.process_start
              (map proto.sample (firstn 1 Demo.written)) _ 6 _
              Demo.unknown_record 6 eq_refl Demo_reads_mixed).
    + vm_compute. reflexivity.
    + discriminate.
    + vm_compute. reflexivity.
    + vm_compute. discriminate.
  - split; reflexivity.
Defined.

Lemma dump_numbering_continues_across_calls_witness :
  exists st1 st2,
    DumpProtobufReport (PC := Wire.codec) (RT := Demo.world)
      "report.pb" Demo.process_start = Some (true, st1)
    /\ DumpProtobufReport (PC := Wire.codec) (RT := Demo.world)
         "report.pb" st1 = Some (true, st2)
    /\ hd_error (d_stdout st1) = Some (mkPrint 0 "sample %zu:\n" [ArgSize 1])
    /\ nth_error (d_stdout st2) (List.length (d_stdout st1))
       = Some (mkPrint 0 "sample %zu:\n" [ArgSize 3]).
Proof.
  pose (st1 := dumped_state Demo.process_start (map proto.sample Demo.written)).
  pose (st2 := dumped_state st1 (map proto.sample Demo.written)).
  assert (H1 : DumpProtobufReport (PC := Wire.codec) (RT := Demo.world)
                 "report.pb" Demo.process_start = Some (true, st1))
    by (vm_compute; reflexivity).
  assert (H2 : DumpProtobufReport (PC := Wire.codec) (RT := Demo.world)
                 "report.pb" st1 = Some (true, st2))
    by (vm_compute; reflexivity).
  destruct (dump_numbering_continues_across_calls (PC := Wire.codec)
              (RT := Demo.world) "report.pb" Demo.report
              Demo.process_start st1 st2 true true eq_refl)
    as (sample & samples & Hout1 & Hout2 & _ & Hhd1 & Hhd2 & _);
    [vm_compute; reflexivity | vm_compute; split; congruence
     | exact H1 | exact H2 | vm_compute; discriminate |].
  exists st1, st2. split; [exact H1 |]. split; [exact H2 |].
  split; vm_compute; reflexivity.
Defined.

Lemma dumped_sample_block_layout_witness :
  exists st',
    DumpProtobufReport (PC := Wire.codec) (RT := Demo.world)
      "report.pb" Demo.process_start = Some (true, st')
    /\ firstn 6 (d_stdout st')
       = [ mkPrint 0 "sample %zu:\n" [ArgSize 1];
           mkPrint 1 "time: %PRIu64\n" [ArgU64 1000];
           mkPrint 1 "callchain:\n" [];
           mkPrint 2 "ip: %PRIx64\n" [ArgX64 4096];
           mkPrint 2 "dso: %s\n" [ArgStr "libfoo.so"];
           mkPrint 2 "symbol: %s\n" [ArgStr "foo"] ].
Proof.
  destruct (dumped_sample_block_layout (TT := Demo.thread_tree)
              (PC := Wire.codec) (RT := Demo.world)
              "report.pb" Demo.report Demo.process_start
              (map proto.sample Demo.written) terminator
              eq_refl Demo_reads_report)
    as [(ok & st' & later & Hdump & Hout) _].
  assert (Hok : ok = true).
  { pose proof Hdump as H. vm_compute in H. injection H as H _.
    symmetry. exact H. }
  subst ok. exists st'. split; [exact Hdump |].
  rewrite Hout. vm_compute. reflexivity.
Defined.

Lemma protobuf_without_report_file_fails_witness :
  exists out,
    Run (TT := Demo.thread_tree) (PC := Wire.codec) (RT := Demo.world)
        ["--protobuf"; "-i"; "perf.data"] Demo.process_start = Some out
    /\ result out = false /\ opened out = [].
Proof.
  destruct (protobuf_without_report_file_fails (TT := Demo.thread_tree)
              (PC := Wire.codec) (RT := Demo.world)
              ["--protobuf"; "-i"; "perf.data"] Demo.process_start
              (mkOptions "" "perf.data" "" true false) eq_refl eq_refl)
    as (_ & out & Hrun & Hres & Hopened & _).
  - cbn [In]. intros [H | [H | [H | []]]]; discriminate H.
  - exists out. auto.
Defined.


(** * Further properties of the command *)

(** ** Option parsing *)

(** Arguments that parse can be followed by others: the loop goes on from
    the options they set. *)
Lemma ParseOptions_loop_app_n : forall n args1 args2 o o1,
  (List.length args1 <= n)%nat ->
  ParseOptions_loop args1 o = inl o1 ->
  ParseOptions_loop (args1 ++ args2) o = ParseOptions_loop args2 o1.
Proof.
  induction n as [| n IH]; intros args1 args2 o o1 Hlen Hloop.
  - destruct args1; [| cbn in Hlen; lia]. cbn in Hloop. injection Hloop as <-.
    reflexivity.
  - destruct args1 as [| arg rest]; [cbn in Hloop; injection Hloop as <-; reflexivity |].
    cbn [List.length] in Hlen. cbn [app ParseOptions_loop] in *.
    destruct (arg =? "--dump-protobuf-report")%string.
    { destruct rest as [| value rest']; [discriminate |].
      cbn [app]. apply IH; [cbn [List.length] in Hlen; lia | exact Hloop]. }
    destruct (arg =? "-i")%string.
    { destruct rest as [| value rest']; [discriminate |].
      cbn [app]. apply IH; [cbn [List.length] in Hlen; lia | exact Hloop]. }
    destruct (arg =? "-o")%string.
    { destruct rest as [| value rest']; [discriminate |].
      cbn [app]. apply IH; [cbn [List.length] in Hlen; lia | exact Hloop]. }
    destruct (arg =? "--protobuf")%string; [apply IH; [lia | exact Hloop] |].
    destruct (arg =? "--show-callchain")%string; [apply IH; [lia | exact Hloop] |].
    discriminate.
Qed.

Lemma ParseOptions_loop_app_inl args1 args2 o o1 :
  ParseOptions_loop args1 o = inl o1 ->
  ParseOptions_loop (args1 ++ args2) o = ParseOptions_loop args2 o1.
Proof. apply (ParseOptions_loop_app_n (List.length args1)). lia. Qed.

(** X1: option parsing composes. When a list of arguments parses, parsing
    it followed by further arguments is parsing the further arguments
    from the options the first list set. *)
Theorem ParseOptions_loop_composes (args1 args2 : list string) (o o1 : Options) :
  ParseOptions_loop args1 o = inl o1 ->
  ParseOptions_loop (args1 ++ args2) o = ParseOptions_loop args2 o1.
Proof. apply ParseOptions_loop_app_inl. Qed.

Lemma ParseOptions_loop_composes_witness :
  ParseOptions_loop (["--protobuf"; "-o"; "a.pb"] ++ ["-o"; "b.pb"]) Options_init
  = inl (mkOptions "" "perf.data" "b.pb" true false).
Proof.
  rewrite (ParseOptions_loop_composes ["--protobuf"; "-o"; "a.pb"] ["-o"; "b.pb"]
             Options_init (mkOptions "" "perf.data" "a.pb" true false) eq_refl).
  reflexivity.
Defined.

(** X2: the last occurrence of an option that takes a value wins, and it
    changes nothing else: after arguments that parse, [-i v], [-o v] or
    [--dump-protobuf-report v] sets that one member to [v], whatever [v]
    is (also when it reads like an option). *)
Theorem last_option_value_wins (args : list string) (o o1 : Options) (v : string) :
  ParseOptions_loop args o = inl o1 ->
  ParseOptions_loop (args ++ ["-i"; v]) o
  = inl (mkOptions (dump_protobuf_report_file_ o1) v (report_filename_ o1)
           (use_protobuf_ o1) (show_callchain_ o1))
  /\ ParseOptions_loop (args ++ ["-o"; v]) o
     = inl (mkOptions (dump_protobuf_report_file_ o1) (record_filename_ o1) v
              (use_protobuf_ o1) (show_callchain_ o1))
  /\ ParseOptions_loop (args ++ ["--dump-protobuf-report"; v]) o
     = inl (mkOptions v (record_filename_ o1) (report_filename_ o1)
              (use_protobuf_ o1) (show_callchain_ o1)).
Proof.
  intros Hloop.
  rewrite !(ParseOptions_loop_app_inl args _ o o1 Hloop). repeat split.
Qed.

Lemma last_option_value_wins_witness :
  ParseOptions_loop (["-i"; "a.data"; "--show-callchain"] ++ ["-i"; "--protobuf"])
    Options_init
  = inl (mkOptions "" "--protobuf" "" false true).
Proof.
  exact (proj1 (last_option_value_wins ["-i"; "a.data"; "--show-callchain"]
                  Options_init (mkOptions "" "a.data" "" false true)
                  "--protobuf" eq_refl)).
Defined.

(** Flags are only ever set. *)
Lemma ParseOptions_loop_flags_n : forall n args o o',
  (List.length args <= n)%nat ->
  ParseOptions_loop args o = inl o' ->
  (use_protobuf_ o = true -> use_protobuf_ o' = true)
  /\ (show_callchain_ o = true -> show_callchain_ o' = true)
  /\ (use_protobuf_ o' = true -> use_protobuf_ o = true \/ In "--protobuf" args)
  /\ (show_callchain_ o' = true -> show_callchain_ o = true \/ In "--show-callchain" args).
Proof.
  induction n as [| n IH]; intros args o o' Hlen Hloop.
  - destruct args; [| cbn in Hlen; lia]. cbn in Hloop. injection Hloop as <-.
    tauto.
  - destruct args as [| arg rest]; [cbn in Hloop; injection Hloop as <-; tauto |].
    cbn [List.length] in Hlen. cbn [ParseOptions_loop] in Hloop.
    destruct (arg =? "--dump-protobuf-report")%string.
    { destruct rest as [| value rest']; [discriminate |].
      apply IH in Hloop; [| cbn [List.length] in Hlen; lia].
      cbn [set_dump_protobuf_report_file use_protobuf_ show_callchain_ In] in *. tauto. }
    destruct (arg =? "-i")%string.
    { destruct rest as [| value rest']; [discriminate |].
      apply IH in Hloop; [| cbn [List.length] in Hlen; lia].
      cbn [set_record_filename use_protobuf_ show_callchain_ In] in *. tauto. }
    destruct (arg =? "-o")%string.
    { destruct rest as [| value rest']; [discriminate |].
      apply IH in Hloop; [| cbn [List.length] in Hlen; lia].
      cbn [set_report_filename use_protobuf_ show_callchain_ In] in *. tauto. }
    destruct (arg =? "--protobuf")%string eqn:Ep.
    { apply String.eqb_eq in Ep. subst arg.
      apply IH in Hloop; [| lia].
      cbn [set_use_protobuf use_protobuf_ show_callchain_ In] in *. tauto. }
    destruct (arg =? "--show-callchain")%string eqn:Es; [| discriminate].
    apply String.eqb_eq in Es. subst arg.
    apply IH in Hloop; [| lia].
    cbn [set_show_callchain use_protobuf_ show_callchain_ In] in *. tauto.
Qed.

(** X3: the two flags are only ever set, never cleared: a flag that is
    set before a list of arguments is parsed is set after it, and a flag
    that is set after it was set before or is among the arguments. *)
Theorem flags_are_only_set (args : list string) (o o' : Options) :
  ParseOptions_loop args o = inl o' ->
  (use_protobuf_ o = true -> use_protobuf_ o' = true)
  /\ (show_callchain_ o = true -> show_callchain_ o' = true)
  /\ (use_protobuf_ o' = true -> use_protobuf_ o = true \/ In "--protobuf" args)
  /\ (show_callchain_ o' = true ->
      show_callchain_ o = true \/ In "--show-callchain" args).
Proof.
  intros Hloop.
  apply (ParseOptions_loop_flags_n (List.length args)) in Hloop; [| lia].
  tauto.
Qed.

Lemma flags_are_only_set_witness :
  use_protobuf_ (mkOptions "" "perf.data" "r.pb" true false) = true.
Proof.
  exact (proj1 (flags_are_only_set ["-o"; "r.pb"]
                  (mkOptions "" "perf.data" "" true false)
                  (mkOptions "" "perf.data" "r.pb" true false) eq_refl) eq_refl).
Defined.

(** An argument that is none of the five options. *)
Lemma ParseOptions_loop_unknown arg rest o :
  ~ In arg ["--dump-protobuf-report"; "-i"; "-o"; "--protobuf"; "--show-callchain"] ->
  ParseOptions_loop (arg :: rest) o = inr (unknown_option arg).
Proof.
  intros Hnot. cbn [ParseOptions_loop].
  repeat match goal with
         | |- context [(arg =? ?s)%string] =>
             destruct (String.eqb_spec arg s) as [-> | _];
             [exfalso; apply Hnot; cbn [In]; tauto |]
         end.
  reflexivity.
Qed.

Lemma Run_ParseOptions_fails
    {TT : ThreadTreeOps} {PC : ProtoCodec} {RT : Runtime} args process e :
  ParseOptions_loop args Options_init = inr e ->
  Run args process = Some (mkOutcome false [] (add_log State_init e) process).
Proof.
  intros H. unfold Run, ParseOptions. rewrite H. reflexivity.
Qed.

(** The run always returns. *)
Lemma Run_total
    {TT : ThreadTreeOps} {PC : ProtoCodec} {RT : Runtime} args process :
  exists out, Run args process = Some out.
Proof.
  unfold Run. destruct (ParseOptions args) as [o1 | e]; [| eauto].
  destruct (negb (dump_protobuf_report_file_ o1 =? "")%string).
  - destruct (DumpProtobufReport_total (dump_protobuf_report_file_ o1) process)
      as (ok & st' & ->). eauto.
  - destruct (open_record_file (record_filename_ o1)) as [[records read_ok] |];
      [| eauto].
    destruct (negb (report_filename_ o1 =? "")%string
              && negb (fopen_write (report_filename_ o1))); [eauto |].
    destruct (ReadDataSection o1 records read_ok State_init) as [ok st].
    destruct (negb ok); [eauto |].
    destruct (use_protobuf_ o1).
    + destruct (coded_os_HadError _); [eauto |].
      destruct (f_error _); eauto.
    + destruct (f_error _); eauto.
Qed.

(** X4: a malformed command line is refused before anything is touched.
    After arguments that parse, an option that takes a value and is the
    last argument, or an argument that is none of the options (whatever
    follows it), makes the run return false with one error logged, no
    file opened, no record processed and nothing dumped. *)
Theorem malformed_command_line_fails
    {TT : ThreadTreeOps} {PC : ProtoCodec} {RT : Runtime}
    (args rest : list string) (arg : string) (o1 : Options)
    (process : DumpState) :
  ParseOptions_loop args Options_init = inl o1 ->
  (In arg ["--dump-protobuf-report"; "-i"; "-o"] /\ rest = []
   \/ ~ In arg ["--dump-protobuf-report"; "-i"; "-o"; "--protobuf";
                "--show-callchain"]) ->
  exists e,
    log_severity e = ERROR
    /\ ParseOptions (args ++ arg :: rest) = inr e
    /\ Run (args ++ arg :: rest) process
       = Some (mkOutcome false [] (add_log State_init e) process).
Proof.
  intros Hloop Hbad.
  assert (He : exists e, log_severity e = ERROR
                         /\ ParseOptions_loop (args ++ arg :: rest) Options_init = inr e).
  { rewrite (ParseOptions_loop_app_inl args _ Options_init o1 Hloop).
    destruct Hbad as [[Hin ->] | Hnot].
    - exists (no_argument_following arg). split; [reflexivity |].
      cbn [In] in Hin. destruct Hin as [<- | [<- | [<- | []]]]; reflexivity.
    - exists (unknown_option arg). split; [reflexivity |].
      apply ParseOptions_loop_unknown. exact Hnot. }
  destruct He as (e & Hsev & He). exists e.
  split; [exact Hsev |]. split; [unfold ParseOptions; rewrite He; reflexivity |].
  apply Run_ParseOptions_fails. exact He.
Qed.

Lemma malformed_command_line_fails_witness :
  exists e,
    Run (TT := Demo.thread_tree) (PC := Wire.codec) (RT := Demo.world)
        (["--show-callchain"] ++ ["-o"]) Demo.process_start
    = Some (mkOutcome false [] (add_log State_init e) Demo.process_start).
Proof.
  destruct (malformed_command_line_fails (TT := Demo.thread_tree)
              (PC := Wire.codec) (RT := Demo.world)
              ["--show-callchain"] [] "-o"
              (mkOptions "" "perf.data" "" false true) Demo.process_start
              eq_refl) as (e & _ & _ & Hrun).
  - left. split; [cbn [In]; tauto | reflexivity].
  - exists e. exact Hrun.
Defined.


(** ** What a run opens *)

(** X5: [--dump-protobuf-report <file>] bypasses the pipeline. When the
    options parse and name a file to dump, the run is the dump of that
    file: it is the only file opened, whatever [-i] and [-o] say, no
    record is processed and the result is that of the dumper. The check
    of [--protobuf] without [-o] comes first: then nothing is dumped. *)
Theorem dump_option_bypasses_pipeline
    {TT : ThreadTreeOps} {PC : ProtoCodec} {RT : Runtime}
    (args : list string) (o : Options) (process : DumpState) :
  ParseOptions_loop args Options_init = inl o ->
  dump_protobuf_report_file_ o <> "" ->
  (use_protobuf_ o && (report_filename_ o =? "")%string = false ->
   exists ok process',
     DumpProtobufReport (dump_protobuf_report_file_ o) process = Some (ok, process')
     /\ Run args process
        = Some (mkOutcome ok [dump_protobuf_report_file_ o] State_init process'))
  /\ (use_protobuf_ o && (report_filename_ o =? "")%string = true ->
      Run args process
      = Some (mkOutcome false [] (add_log State_init missing_report_filename)
                process)).
Proof.
  intros Hloop Hdump. apply String.eqb_neq in Hdump.
  unfold Run, ParseOptions. rewrite Hloop. split; intros ->.
  - rewrite Hdump. cbn [negb].
    destruct (DumpProtobufReport_total (dump_protobuf_report_file_ o) process)
      as (ok & process' & H). rewrite H. eauto.
  - reflexivity.
Qed.

Lemma dump_option_bypasses_pipeline_witness :
  exists process',
    Run (TT := Demo.thread_tree) (PC := Wire.codec) (RT := Demo.world)
        ["-i"; "missing.data"; "--dump-protobuf-report"; "report.pb"]
        Demo.process_start
    = Some (mkOutcome true ["report.pb"] State_init process').
Proof.
  destruct (dump_option_bypasses_pipeline (TT := Demo.thread_tree)
              (PC := Wire.codec) (RT := Demo.world)
              ["-i"; "missing.data"; "--dump-protobuf-report"; "report.pb"]
              (mkOptions "report.pb" "missing.data" "" false false)
              Demo.process_start eq_refl) as [H _]; [discriminate |].
  destruct (H eq_refl) as (ok & process' & Hdump & Hrun).
  exists process'. rewrite Hrun.
  assert (Hok : ok = true).
  { vm_compute in Hdump. injection Hdump as <- _. reflexivity. }
  rewrite Hok. reflexivity.
Defined.

(** X6: the files are opened in order and a failure stops the run. When
    the record file cannot be opened the report file is not opened (an
    existing report is not truncated); when the report file cannot be
    opened the failure is logged and no record is processed. *)
Theorem open_failures_stop_the_run
    {TT : ThreadTreeOps} {PC : ProtoCodec} {RT : Runtime}
    (args : list string) (o : Options) (process : DumpState) :
  ParseOptions args = inl o ->
  dump_protobuf_report_file_ o = "" ->
  (open_record_file (record_filename_ o) = None ->
   Run args process
   = Some (mkOutcome false [record_filename_ o] State_init process))
  /\ (forall records read_ok,
        open_record_file (record_filename_ o) = Some (records, read_ok) ->
        report_filename_ o <> "" ->
        fopen_write (report_filename_ o) = false ->
        Run args process
        = Some (mkOutcome false [record_filename_ o; report_filename_ o]
                  (add_log State_init
                     (mkLog ERROR [LStr "failed to open ";
                                   LStr (report_filename_ o)]))
                  process)).
Proof.
  intros Hparse Hdump. unfold Run. rewrite Hparse, Hdump. cbn [String.eqb negb].
  split.
  - intros ->. reflexivity.
  - intros records read_ok -> Hname Hopen.
    apply String.eqb_neq in Hname. rewrite Hname, Hopen. reflexivity.
Qed.

Lemma open_failures_stop_the_run_witness :
  Run (TT := Demo.thread_tree) (PC := Wire.codec) (RT := Demo.world)
      ["-i"; "missing.data"; "-o"; "report.txt"] Demo.process_start
  = Some (mkOutcome false ["missing.data"] State_init Demo.process_start).
Proof.
  exact (proj1 (open_failures_stop_the_run (TT := Demo.thread_tree)
                  (PC := Wire.codec) (RT := Demo.world)
                  ["-i"; "missing.data"; "-o"; "report.txt"]
                  (mkOptions "" "missing.data" "report.txt" false false)
                  Demo.process_start eq_refl eq_refl) eq_refl).
Defined.




(** ** Reading the data section *)

Section DataSection.
Context {TT : ThreadTreeOps} {PC : ProtoCodec} {RT : Runtime}.

Lemma f_bytes_print_entry fp indent tree thread ip in_kernel :
  f_bytes (print_entry fp indent tree thread ip in_kernel) = f_bytes fp.
Proof. reflexivity. Qed.

(** What [PrintSampleRecord] leaves alone. *)
Lemma PrintSampleRecord_keeps opts st r :
  f_bytes (report_fp_ (snd (PrintSampleRecord opts st r)))
  = f_bytes (report_fp_ st)
  /\ coded_os_HadError (snd (PrintSampleRecord opts st r)) = coded_os_HadError st
  /\ sample_count_ (snd (PrintSampleRecord opts st r)) = sample_count_ st.
Proof.
  unfold PrintSampleRecord.
  destruct (FindThreadOrNew (thread_tree_ st) (tid_data_pid r) (tid_data_tid r))
    as [tree' thread].
  destruct (show_callchain_ opts).
  - match goal with
    | |- context [text_callchain_loop ?t ?th ?sip ?ips ?k ?f ?fp ?log] =>
        pose proof (text_callchain_loop_classify t th sip k ips [] fp log) as H;
        cbn [context_after first_candidate rev find forallb] in H;
        cbv zeta in H;
        destruct (text_callchain_loop t th sip ips k f fp log) as [fp' log']
    end.
    cbn [fst snd] in *. destruct H as (_ & H & _).
    cbn [report_fp_ coded_os_HadError sample_count_]. rewrite H.
    repeat split; reflexivity.
  - cbn [snd report_fp_ coded_os_HadError sample_count_].
    repeat split; reflexivity.
Qed.

(** A data section read in text mode: every record is processed. *)
Lemma ReadDataSection_text o read_ok : forall records st,
  use_protobuf_ o = false ->
  let out := ReadDataSection o records read_ok st in
  fst out = read_ok
  /\ f_text (report_fp_ (snd out))
     = f_text (report_fp_ st)
       ++ text_report (show_callchain_ o) (thread_tree_ st) records
  /\ f_bytes (report_fp_ (snd out)) = f_bytes (report_fp_ st)
  /\ coded_os_HadError (snd out) = coded_os_HadError st
  /\ thread_tree_ (snd out) = final_tree (thread_tree_ st) records
  /\ sample_count_ (snd out)
     = advance_count (sample_count_ st) (List.length (sample_records records)).
Proof.
  induction records as [| record records IH]; intros st Htext; cbv zeta.
  - cbn. rewrite app_nil_r. repeat split; reflexivity.
  - cbn [ReadDataSection text_report final_tree sample_records].
    destruct record as [r | ty].
    + unfold ProcessRecord. rewrite Htext.
      cbn [set_thread_tree thread_tree_ report_fp_ coded_os_HadError
           sample_count_ log_].
      match goal with
      | |- context [PrintSampleRecord o ?s r] => set (st1 := s)
      end.
      pose proof (PrintSampleRecord_spec o st1 r) as Hs.
      pose proof (PrintSampleRecord_keeps o st1 r) as Hk.
      cbv zeta in Hs. destruct Hs as (Hok & Htxt & _ & Htree).
      destruct Hk as (Hb & He & Hc).
      destruct (PrintSampleRecord o st1 r) as [ok st2]. cbn [fst snd] in *.
      subst ok. specialize (IH st2 Htext). cbv zeta in IH.
      destruct IH as (I1 & I2 & I3 & I4 & I5 & I6).
      rewrite I1, I2, I3, I4, I5, I6, Htxt, Hb, He, Hc, Htree.
      subst st1. cbn [thread_tree_ report_fp_ coded_os_HadError sample_count_
                      List.length advance_count].
      rewrite <- app_assoc. repeat split; reflexivity.
    + unfold ProcessRecord.
      specialize (IH (set_thread_tree st (Update (thread_tree_ st) (OtherRec ty)))
                    Htext).
      cbv zeta in IH. apply IH.
Qed.
End DataSection.


(** ** Binary mode, write failures included *)

Section BinaryCases.
Context {TT : ThreadTreeOps} {PC : ProtoCodec} {RT : Runtime}.

(** One sample in binary mode: the stream keeps track of its frame,
    and nothing is printed. *)
Lemma PrintSampleRecordInProtobuf_tracks opts st r bytes :
  let proto_record :=
    proto.mkRecord Record_Type_SAMPLE
      (proto.mkSample (time_data_time r)
         (sample_chain (show_callchain_ opts) (thread_tree_ st) r)) in
  let out := PrintSampleRecordInProtobuf opts st r in
  f_text (report_fp_ (snd out)) = f_text (report_fp_ st)
  /\ (tracks (coded_os_ st) bytes ->
      tracks (coded_os_ (snd out)) (bytes ++ frame proto_record)).
Proof.
  cbv zeta. unfold PrintSampleRecordInProtobuf.
  rewrite build_proto_record_spec.
  unfold SerializeToCodedStream, WriteLittleEndian32.
  match goal with
  | |- context [SerializeBytes ?p] => set (pr := p) in *
  end.
  match goal with
  | |- context [WriteRaw (le_split 4 _) ?o] => set (os0 := o) in *
  end.
  set (os2 := WriteRaw (SerializeBytes pr) _).
  assert (Ht : f_text (os_file os2) = f_text (report_fp_ st)).
  { unfold os2. rewrite !WriteRaw_f_text. reflexivity. }
  assert (Htr : tracks (coded_os_ st) bytes ->
                tracks os2 (bytes ++ frame pr)).
  { intros H. unfold os2, frame. rewrite app_assoc.
    apply WriteRaw_tracks, WriteRaw_tracks. exact H. }
  destruct (negb (HadError os2)); cbn [fst snd];
    rewrite ?coded_os_add_log, coded_os_set_coded_os; auto.
Qed.

(** A data section in binary mode: the stream keeps track of the frames
    of the messages built; either every record was processed, or the
    stream failed at one sample and the rest was not looked at. *)
Lemma ReadDataSection_protobuf_cases o read_ok : forall records st bytes,
  use_protobuf_ o = true ->
  tracks (coded_os_ st) bytes ->
  let built := built_records (show_callchain_ o) (thread_tree_ st) records in
  let out := ReadDataSection o records read_ok st in
  f_text (report_fp_ (snd out)) = f_text (report_fp_ st)
  /\ tracks (coded_os_ (snd out)) (bytes ++ flat_map frame built)
  /\ ((fst out = read_ok
       /\ coded_os_HadError (snd out) = coded_os_HadError st
       /\ thread_tree_ (snd out) = final_tree (thread_tree_ st) records
       /\ sample_count_ (snd out)
          = advance_count (sample_count_ st)
              (List.length (sample_records records)))
      \/ (fst out = false /\ coded_os_HadError (snd out) = true)).
Proof.
  induction records as [| record records IH]; intros st bytes Hpb Htr; cbv zeta.
  - cbn. rewrite app_nil_r. split; [reflexivity |]. split; [exact Htr |].
    left. repeat split; reflexivity.
  - cbn [ReadDataSection built_records final_tree sample_records].
    destruct record as [r | ty].
    + unfold ProcessRecord. rewrite Hpb.
      cbn [set_thread_tree thread_tree_ report_fp_ coded_os_HadError
           coded_os_buffer sample_count_ log_].
      match goal with
      | |- context [PrintSampleRecordInProtobuf o ?s r] => set (st1 := s)
      end.
      pose proof (PrintSampleRecordInProtobuf_tracks o st1 r bytes) as Hc.
      pose proof (PrintSampleRecordInProtobuf_spec o st1 r) as Hs.
      cbv zeta in Hc, Hs. destruct Hc as (Htxt & Hc).
      destruct Hs as (Htree & Hcount & Hneg & Hs).
      rewrite build_proto_record_spec.
      change (thread_tree_ st1) with (Update (thread_tree_ st) (SampleRec r))
        in Hc, Htree, Hs.
      change (report_fp_ st1) with (report_fp_ st) in Htxt.
      change (sample_count_ st1) with ((sample_count_ st + 1) mod UINT64_MOD)
        in Hcount.
      change (coded_os_HadError st1) with (coded_os_HadError st) in Hs.
      specialize (Hc Htr).
      destruct (PrintSampleRecordInProtobuf o st1 r) as [ok st2].
      cbn [fst snd flat_map] in *. rewrite app_assoc.
      destruct ok.
      * specialize (IH st2 _ Hpb Hc). cbv zeta in IH.
        destruct IH as (It & Itr & IH).
        destruct (Hs eq_refl) as (He0 & _).
        rewrite It, Htxt. split; [reflexivity |].
        rewrite Htree in Itr, IH. split; [exact Itr |].
        destruct IH as [(I1 & I2 & I5 & I6) | (I1 & I2)].
        -- left. rewrite I1, I2, I5, I6, He0, Hcount.
           cbn [List.length advance_count].
           symmetry in Hneg. apply negb_true_iff in Hneg. rewrite Hneg.
           repeat split; reflexivity.
        -- right. split; assumption.
      * symmetry in Hneg. apply negb_false_iff in Hneg.
        split; [exact Htxt |]. split.
        -- apply tracks_more; assumption.
        -- right. split; [reflexivity | exact Hneg].
    + unfold ProcessRecord.
      specialize (IH (set_thread_tree st (Update (thread_tree_ st) (OtherRec ty)))
                    bytes Hpb Htr).
      cbv zeta in IH. apply IH.
Qed.

(** The destructors keep what was printed, and leave on the file a part
    of what the stream was given: all of it when the stream had no error
    and the last [Write] went through. *)
Lemma destroy_streams_f_text st :
  f_text (report_fp_ (destroy_streams st)) = f_text (report_fp_ st).
Proof.
  destruct (coded_os_HadError st) eqn:He.
  - unfold destroy_streams, WriteBuffer. cbn [coded_os_ HadError].
    rewrite He. reflexivity.
  - apply destroy_streams_cases. exact He.
Qed.

Lemma destroy_streams_tracks st bytes :
  tracks (coded_os_ st) bytes ->
  exists suffix, bytes = f_bytes (report_fp_ (destroy_streams st)) ++ suffix.
Proof.
  unfold tracks. cbn [HadError coded_os_].
  destruct (coded_os_HadError st) eqn:He.
  - intros H. unfold destroy_streams, WriteBuffer. cbn [coded_os_ HadError].
    rewrite He. exact H.
  - intros <-.
    destruct (destroy_streams_cases st He) as (_ & [(H & _) | (H & _)]);
      rewrite H.
    + exists []. rewrite app_nil_r. reflexivity.
    + exists (coded_os_buffer st). reflexivity.
Qed.

Lemma tracks_State_init : tracks (coded_os_ State_init) [].
Proof. reflexivity. Qed.
End BinaryCases.


(** ** Whole runs *)

(** X8: a run in text mode prints the block of every sample of the
    capture, in order, and nothing else; every record is processed even
    when a write fails, and the failure shows in the result alone, which
    is true exactly when the data section was read to its end and the
    stream has no error. *)
Theorem text_run_prints_every_sample
    {TT : ThreadTreeOps} {PC : ProtoCodec} {RT : Runtime} (args : list string) (o : Options)
    (records : list PerfRecord) (read_ok : bool) (process : DumpState) :
  ParseOptions args = inl o ->
  dump_protobuf_report_file_ o = "" ->
  use_protobuf_ o = false ->
  open_record_file (record_filename_ o) = Some (records, read_ok) ->
  report_filename_ o = "" \/ fopen_write (report_filename_ o) = true ->
  exists out,
    Run args process = Some out
    /\ f_text (report_fp_ (final out))
       = text_report (show_callchain_ o) ThreadTree_new records
    /\ f_bytes (report_fp_ (final out)) = []
    /\ thread_tree_ (final out) = final_tree ThreadTree_new records
    /\ sample_count_ (final out)
       = advance_count 0 (List.length (sample_records records))
    /\ result out = read_ok && negb (f_error (report_fp_ (final out)))
    /\ dumped out = process.
Proof.
  intros Hparse Hdump Htext Hopen Hreport.
  pose proof (ReadDataSection_text o read_ok records State_init Htext) as H.
  cbv zeta in H. destruct H as (H1 & H2 & H3 & _ & H5 & H6).
  unfold Run. rewrite Hparse, Hdump, Hopen, Htext. cbn [String.eqb negb].
  assert (Hcond : negb (report_filename_ o =? "")%string
                  && negb (fopen_write (report_filename_ o)) = false).
  { destruct Hreport as [-> | ->]; [reflexivity | apply andb_false_r]. }
  rewrite Hcond.
  destruct (ReadDataSection o records read_ok State_init) as [ok st].
  cbn [fst snd] in *. subst ok.
  destruct read_ok; cbn [negb andb].
  - destruct (f_error (report_fp_ (add_log st _))) eqn:E;
      eexists; (split; [reflexivity |]);
      cbn [final result add_log report_fp_ thread_tree_ sample_count_ dumped] in *;
      rewrite E; repeat split; assumption.
  - eexists. split; [reflexivity |].
    cbn [final result dumped]. repeat split; assumption.
Qed.

Lemma text_run_prints_every_sample_witness :
  exists out,
    Run (TT := Demo.thread_tree) (PC := Wire.codec) (RT := Demo.world)
        ["--show-callchain"] Demo.process_start = Some out
    /\ sample_count_ (final out) = 2
    /\ result out = true.
Proof.
  destruct (text_run_prints_every_sample (TT := Demo.thread_tree)
              (PC := Wire.codec) (RT := Demo.world)
              ["--show-callchain"] Demo.text_options Demo.records true
              Demo.process_start eq_refl eq_refl eq_refl eq_refl
              (or_introl eq_refl))
    as (out & Hrun & _ & _ & _ & Hcount & Hres & _).
  exists out. split; [exact Hrun |]. split; [exact Hcount |].
  rewrite Hres. vm_compute in Hrun. injection Hrun as <-. reflexivity.
Defined.

(** X9: a run that returns true processed every record: its sample
    count is the number of sample records of the capture (modulo 2^64),
    which is what it logs at the end, and its thread tree has seen every
    record, in text and in binary mode alike. *)
Theorem successful_run_counts_every_sample
    {TT : ThreadTreeOps} {PC : ProtoCodec} {RT : Runtime} (args : list string) (o : Options)
    (records : list PerfRecord) (read_ok : bool) (process : DumpState)
    (out : Outcome) :
  ParseOptions args = inl o ->
  dump_protobuf_report_file_ o = "" ->
  open_record_file (record_filename_ o) = Some (records, read_ok) ->
  Run args process = Some out ->
  result out = true ->
  read_ok = true
  /\ sample_count_ (final out)
     = Z.of_nat (List.length (sample_records records)) mod UINT64_MOD
  /\ thread_tree_ (final out) = final_tree ThreadTree_new records
  /\ In (mkLog INFO [LStr "report "; LNum (sample_count_ (final out));
                     LStr " samples in all."])
        (log_ (final out)).
Proof.
  intros Hparse Hdump Hopen Hrun Hres.
  assert (Hc0 : advance_count 0 (List.length (sample_records records))
                = Z.of_nat (List.length (sample_records records)) mod UINT64_MOD).
  { rewrite advance_count_mod by (unfold is_uint64, UINT64_MOD; lia).
    reflexivity. }
  unfold Run in Hrun. rewrite Hparse, Hdump, Hopen in Hrun.
  cbn [String.eqb negb] in Hrun.
  destruct (negb (report_filename_ o =? "")%string
            && negb (fopen_write (report_filename_ o)));
    [injection Hrun as <-; discriminate |].
  destruct (use_protobuf_ o) eqn:Hmode.
  - pose proof (ReadDataSection_protobuf_cases o read_ok records State_init []
                  Hmode tracks_State_init) as H.
    cbv zeta in H. destruct H as (_ & _ & H).
    destruct (ReadDataSection o records read_ok State_init) as [ok st].
    cbn [fst snd] in *.
    destruct ok; cbn [negb] in Hrun; [| injection Hrun as <-; discriminate].
    destruct H as [(H1 & _ & H5 & H6) | (H1 & _)]; [| discriminate].
    set (st1 := add_log st _) in Hrun.
    set (os := WriteLittleEndian32 0 (coded_os_ st1)) in Hrun.
    destruct (coded_os_HadError (set_coded_os st1 os));
      [injection Hrun as <-; discriminate |].
    destruct (f_error (report_fp_ (set_coded_os st1 os)));
      injection Hrun as <-; [discriminate |].
    cbn [final destroy_streams set_coded_os sample_count_ thread_tree_ log_].
    subst st1.
    cbn [add_log sample_count_ thread_tree_ log_].
    rewrite H6, H5, <- Hc0. cbn [State_init sample_count_ thread_tree_].
    repeat split; auto. apply in_or_app. right. left. reflexivity.
  - pose proof (ReadDataSection_text o read_ok records State_init Hmode) as H.
    cbv zeta in H. destruct H as (H1 & _ & _ & _ & H5 & H6).
    destruct (ReadDataSection o records read_ok State_init) as [ok st].
    cbn [fst snd] in *.
    destruct ok; cbn [negb] in Hrun; [| injection Hrun as <-; discriminate].
    set (st1 := add_log st _) in Hrun.
    destruct (f_error (report_fp_ st1)); injection Hrun as <-; [discriminate |].
    cbn [final]. subst st1. cbn [add_log sample_count_ thread_tree_ log_].
    rewrite H6, H5, <- Hc0. cbn [State_init sample_count_ thread_tree_].
    repeat split; auto. apply in_or_app. right. left. reflexivity.
Qed.

Lemma successful_run_counts_every_sample_witness :
  sample_count_ (final Demo.outcome) = 2.
Proof.
  destruct Demo_outcome as [Hres _].
  exact (proj1 (proj2 (successful_run_counts_every_sample (TT := Demo.thread_tree)
                         (PC := Wire.codec) (RT := Demo.world)
                         Demo.protobuf_args Demo.protobuf_options Demo.records
                         true Demo.process_start Demo.outcome
                         eq_refl eq_refl eq_refl Demo_run Hres))).
Defined.


(** X10: text and binary output never mix. Whatever the arguments, the
    stream of a run holds printed text or bytes, never both; it holds
    bytes only in binary mode, and then the report went to the file
    named by [-o], never to stdout; it holds text only in text mode. *)
Theorem text_and_binary_never_mix
    {TT : ThreadTreeOps} {PC : ProtoCodec} {RT : Runtime}
    (args : list string) (process : DumpState) (out : Outcome) :
  Run args process = Some out ->
  (f_text (report_fp_ (final out)) = [] \/ f_bytes (report_fp_ (final out)) = [])
  /\ (f_bytes (report_fp_ (final out)) <> [] ->
      exists o,
        ParseOptions args = inl o /\ use_protobuf_ o = true
        /\ report_filename_ o <> ""
        /\ opened out = [record_filename_ o; report_filename_ o])
  /\ (f_text (report_fp_ (final out)) <> [] ->
      exists o, ParseOptions args = inl o /\ use_protobuf_ o = false).
Proof.
  intros Hrun. unfold Run in Hrun.
  destruct (ParseOptions args) as [o | e] eqn:Hparse.
  2:{ injection Hrun as <-. cbn. split; [auto |]. split; intros H; congruence. }
  destruct (negb (dump_protobuf_report_file_ o =? "")%string).
  { destruct (DumpProtobufReport (dump_protobuf_report_file_ o) process)
      as [[ok p'] |]; [| discriminate].
    injection Hrun as <-. cbn. split; [auto |]. split; intros H; congruence. }
  destruct (open_record_file (record_filename_ o)) as [[records read_ok] |].
  2:{ injection Hrun as <-. cbn. split; [auto |]. split; intros H; congruence. }
  destruct (negb (report_filename_ o =? "")%string
            && negb (fopen_write (report_filename_ o))).
  { injection Hrun as <-. cbn. split; [auto |]. split; intros H; congruence. }
  destruct (use_protobuf_ o) eqn:Hmode.
  - pose proof (ParseOptions_protobuf_filename args o Hparse Hmode) as Hname.
    rewrite Hname in Hrun.
    pose proof (ReadDataSection_protobuf_cases o read_ok records State_init []
                  Hmode tracks_State_init) as H.
    cbv zeta in H. destruct H as (Htxt & _).
    destruct (ReadDataSection o records read_ok State_init) as [ok st].
    cbn [fst snd] in *.
    assert (Hgoal : forall st' : State,
              f_text (report_fp_ st') = [] ->
              (f_text (report_fp_ st') = [] \/ f_bytes (report_fp_ st') = [])
              /\ (f_bytes (report_fp_ st') <> [] ->
                  exists o0,
                    @inl Options LogEntry o = inl o0 /\ use_protobuf_ o0 = true
                    /\ report_filename_ o0 <> ""
                    /\ [record_filename_ o; report_filename_ o]
                       = [record_filename_ o0; report_filename_ o0])
              /\ (f_text (report_fp_ st') <> [] ->
                  exists o0, @inl Options LogEntry o = inl o0
                             /\ use_protobuf_ o0 = false)).
    { intros st' Ht. split; [auto |]. split; [| congruence].
      intros _. exists o. apply String.eqb_neq in Hname. auto. }
    destruct (negb ok);
      [injection Hrun as <-; apply Hgoal; cbn [final];
       rewrite destroy_streams_f_text; exact Htxt |].
    set (st1 := add_log st _) in Hrun.
    set (os := WriteLittleEndian32 0 (coded_os_ st1)) in Hrun.
    assert (Hos : f_text (os_file os) = []).
    { unfold os, WriteLittleEndian32. rewrite WriteRaw_f_text. exact Htxt. }
    destruct (coded_os_HadError (set_coded_os st1 os));
      [injection Hrun as <-; apply Hgoal; cbn [final];
       rewrite destroy_streams_f_text; exact Hos |].
    destruct (f_error (report_fp_ (set_coded_os st1 os)));
      injection Hrun as <-; apply Hgoal; cbn [final];
      rewrite destroy_streams_f_text; exact Hos.
  - pose proof (ReadDataSection_text o read_ok records State_init Hmode) as H.
    cbv zeta in H. destruct H as (_ & _ & Hb & _).
    destruct (ReadDataSection o records read_ok State_init) as [ok st].
    cbn [fst snd] in *.
    assert (Hgoal : forall st' : State,
              f_bytes (report_fp_ st') = [] ->
              (f_text (report_fp_ st') = [] \/ f_bytes (report_fp_ st') = [])
              /\ (f_bytes (report_fp_ st') <> [] ->
                  exists o0,
                    @inl Options LogEntry o = inl o0 /\ use_protobuf_ o0 = true
                    /\ report_filename_ o0 <> ""
                    /\ (if (report_filename_ o =? "")%string
                        then [record_filename_ o]
                        else [record_filename_ o; report_filename_ o])
                       = [record_filename_ o0; report_filename_ o0])
              /\ (f_text (report_fp_ st') <> [] ->
                  exists o0, @inl Options LogEntry o = inl o0
                             /\ use_protobuf_ o0 = false)).
    { intros st' Hb'. split; [auto |]. split; [congruence |].
      intros _. exists o. auto. }
    destruct (negb ok); [injection Hrun as <-; apply Hgoal; exact Hb |].
    destruct (f_error (report_fp_ (add_log st _)));
      injection Hrun as <-; apply Hgoal; exact Hb.
Qed.

Lemma text_and_binary_never_mix_witness :
  f_text (report_fp_ (final Demo.outcome)) = [].
Proof.
  destruct (text_and_binary_never_mix (TT := Demo.thread_tree)
              (PC := Wire.codec) (RT := Demo.world)
              Demo.protobuf_args Demo.process_start Demo.outcome Demo_run)
    as ([H | H] & _); [exact H |].
  vm_compute in H. discriminate H.
Defined.


(** ** The report of a run in binary mode, failed or not *)

(** X11: whatever writes fail, a run in binary mode never leaves
    anything on the report file but a prefix of the complete report (the
    frames of all samples followed by the terminator). *)
Theorem binary_report_is_a_prefix
    {TT : ThreadTreeOps} {PC : ProtoCodec} {RT : Runtime}
    (args : list string) (o : Options) (records : list PerfRecord)
    (read_ok : bool) (process : DumpState) (out : Outcome) :
  ParseOptions args = inl o ->
  dump_protobuf_report_file_ o = "" ->
  use_protobuf_ o = true ->
  open_record_file (record_filename_ o) = Some (records, read_ok) ->
  Run args process = Some out ->
  exists suffix,
    flat_map frame (built_records (show_callchain_ o) ThreadTree_new records)
    ++ terminator
    = f_bytes (report_fp_ (final out)) ++ suffix.
Proof.
  intros Hparse Hdump Hpb Hopen Hrun.
  pose proof (ParseOptions_protobuf_filename args o Hparse Hpb) as Hname.
  unfold Run in Hrun. rewrite Hparse, Hdump, Hopen, Hname, Hpb in Hrun.
  cbn [String.eqb negb andb] in Hrun.
  destruct (fopen_write (report_filename_ o)); cbn [negb] in Hrun.
  2:{ injection Hrun as <-. eexists. reflexivity. }
  pose proof (ReadDataSection_protobuf_cases o read_ok records State_init []
                Hpb tracks_State_init) as H.
  cbv zeta in H. destruct H as (_ & Htr & _).
  cbn [app State_init thread_tree_] in Htr.
  destruct (ReadDataSection o records read_ok State_init) as [ok st].
  cbn [fst snd] in *.
  destruct ok; cbn [negb] in Hrun.
  2:{ injection Hrun as <-. cbn [final].
      destruct (destroy_streams_tracks st _ Htr) as (suffix & H).
      exists (suffix ++ terminator). rewrite H, app_assoc. reflexivity. }
  set (st1 := add_log st _) in Hrun.
  set (os := WriteLittleEndian32 0 (coded_os_ st1)) in Hrun.
  assert (Hos : forall e,
            tracks (coded_os_ (add_log (set_coded_os st1 os) e))
              (flat_map frame
                 (built_records (show_callchain_ o) ThreadTree_new records)
               ++ terminator)).
  { intros e. rewrite coded_os_add_log, coded_os_set_coded_os.
    apply WriteRaw_tracks. exact Htr. }
  assert (Hos' : tracks (coded_os_ (set_coded_os st1 os))
                   (flat_map frame
                      (built_records (show_callchain_ o) ThreadTree_new records)
                    ++ terminator)).
  { rewrite coded_os_set_coded_os. apply WriteRaw_tracks. exact Htr. }
  destruct (coded_os_HadError (set_coded_os st1 os));
    [injection Hrun as <-; apply destroy_streams_tracks, Hos |].
  destruct (f_error (report_fp_ (set_coded_os st1 os)));
    injection Hrun as <-; apply destroy_streams_tracks; [apply Hos | exact Hos'].
Qed.

Lemma Blocks_run_one_block :
  exists out,
    Run (TT := Demo.thread_tree) (PC := Wire.codec) (RT := Blocks.one_block_disk)
        Demo.protobuf_args Demo.process_start = Some out
    /\ result out = true
    /\ f_error (report_fp_ (final out)) = true
    /\ f_bytes (report_fp_ (final out)) = firstn kDefaultBlockSize Blocks.report.
Proof.
  eexists. split; [vm_compute; reflexivity |].
  repeat split; vm_compute; reflexivity.
Qed.

Lemma binary_report_is_a_prefix_witness :
  exists suffix,
    Blocks.report = firstn kDefaultBlockSize Blocks.report ++ suffix.
Proof.
  destruct Blocks_run_one_block as (out & Hrun & _ & _ & Hbytes).
  destruct (binary_report_is_a_prefix (TT := Demo.thread_tree)
              (PC := Wire.codec) (RT := Blocks.one_block_disk)
              Demo.protobuf_args Demo.protobuf_options Blocks.records true
              Demo.process_start out eq_refl eq_refl eq_refl eq_refl Hrun)
    as (suffix & H).
  exists suffix. rewrite <- Hbytes. exact H.
Defined.

(** ** A report smaller than the block of the stream *)

Section SmallReport.
Context {TT : ThreadTreeOps} {PC : ProtoCodec} {RT : Runtime}.




End SmallReport.





(** ** More on the dumper *)

(** The loop ends with the blocks of the samples it read printed, and
    with one error logged exactly when it fails. *)
Lemma DumpProtobufReport_loop_outcome
    {PC : ProtoCodec} {RT : Runtime} filename : forall fuel s st,
  (List.length s < fuel)%nat ->
  exists samples,
    DumpProtobufReport_loop fuel filename s st
    = Some (true, dumped_state st samples)
    \/ exists e,
         log_severity e = ERROR
         /\ DumpProtobufReport_loop fuel filename s st
            = Some (false, dump_failed (dumped_state st samples) e).
Proof.
  induction fuel as [| fuel IH]; intros s st Hfuel; [lia |].
  cbn [DumpProtobufReport_loop].
  destruct (ReadLittleEndian32 s) as [[size rest] |] eqn:ER.
  2:{ exists []. right. exists (failed_to_read filename).
      rewrite dumped_state_nil. split; reflexivity. }
  destruct (size =? 0).
  { exists []. left. rewrite dumped_state_nil. reflexivity. }
  destruct (ParseBytes (firstn (Z.to_nat size) rest)) as [[r consumed] |].
  2:{ exists []. right. exists (failed_to_read filename).
      rewrite dumped_state_nil. split; reflexivity. }
  destruct (negb (proto.type r =? Record_Type_SAMPLE)).
  { exists []. right. exists (unexpected_record_type (proto.type r)).
    rewrite dumped_state_nil. split; reflexivity. }
  apply ReadLittleEndian32_length in ER.
  pose proof (length_skipn consumed rest) as Hs.
  match goal with
  | |- context [DumpProtobufReport_loop fuel filename _ ?st1] =>
      destruct (IH (skipn consumed rest) st1) as (samples & H); [lia |]
  end.
  exists (proto.sample r :: samples).
  rewrite dumped_state_cons in H. exact H.
Qed.

(** X13: the dumper only ever adds to what was printed and logged. It
    prints whole blocks, as many as its counter advances (modulo 2^64);
    it logs nothing when it returns true and exactly one error when it
    returns false, also when the file cannot be opened. *)
Theorem dumper_appends_blocks_and_one_error
    {PC : ProtoCodec} {RT : Runtime}
    (filename : string) (st st' : DumpState) (ok : bool) :
  DumpProtobufReport filename st = Some (ok, st') ->
  exists samples,
    d_stdout st' = d_stdout st ++ dump_blocks (d_sample_count st) samples
    /\ d_sample_count st'
       = advance_count (d_sample_count st) (List.length samples)
    /\ (ok = true -> d_log st' = d_log st)
    /\ (ok = false ->
        exists e, log_severity e = ERROR /\ d_log st' = d_log st ++ [e])
    /\ (fopen_read filename = None -> samples = []).
Proof.
  unfold DumpProtobufReport. intros H.
  destruct (fopen_read filename) as [contents |].
  - destruct (DumpProtobufReport_loop_outcome filename
                (S (List.length contents)) contents st) as (samples & Hl);
      [lia |].
    exists samples.
    destruct Hl as [Hl | (e & Hsev & Hl)]; rewrite Hl in H;
      injection H as <- <-; cbn [dumped_state dump_failed d_stdout d_log
                                  d_sample_count].
    + repeat split; try reflexivity; discriminate.
    + repeat split; try reflexivity; try discriminate. eauto.
  - injection H as <- <-. exists []. cbn. rewrite app_nil_r.
    repeat split; try reflexivity; try discriminate.
    intros _. exists (failed_to_open filename). split; reflexivity.
Qed.

Lemma dumper_appends_blocks_and_one_error_witness :
  exists st',
    DumpProtobufReport (PC := Wire.codec) (RT := Demo.world)
      "mixed.pb" Demo.process_start = Some (false, st')
    /\ List.length (d_log st') = 1%nat.
Proof.
  destruct (DumpProtobufReport_total (PC := Wire.codec) (RT := Demo.world)
              "mixed.pb" Demo.process_start) as (ok & st' & Hdump).
  assert (Hok : ok = false).
  { vm_compute in Hdump. injection Hdump as <- _. reflexivity. }
  subst ok.
  destruct (dumper_appends_blocks_and_one_error (PC := Wire.codec)
              (RT := Demo.world) "mixed.pb" Demo.process_start st' false Hdump)
    as (samples & _ & _ & _ & Hlog & _).
  destruct (Hlog eq_refl) as (e & _ & He).
  exists st'. split; [exact Hdump |]. rewrite He. reflexivity.
Defined.

(** X14: a payload that does not parse is fatal. When, after a run of
    sample records, the bytes inside the limit of the next length do not
    parse as a record, the dumper logs that it failed to read the file
    and returns false; the blocks of the earlier samples are all it
    printed. *)
Theorem unparsable_payload_is_fatal
    {PC : ProtoCodec} {RT : Runtime}
    (filename : string) (contents : list byte) (st : DumpState)
    (samples : list proto.Sample) (s' : list byte) (size : Z)
    (rest : list byte) :
  fopen_read filename = Some contents ->
  reads_samples contents samples s' ->
  ReadLittleEndian32 s' = Some (size, rest) ->
  size <> 0 ->
  ParseBytes (firstn (Z.to_nat size) rest) = None ->
  DumpProtobufReport filename st
  = Some (false,
          mkDumpState
            (d_stdout st ++ dump_blocks (d_sample_count st) samples)
            (d_log st ++ [mkLog ERROR [LStr "failed to read "; LStr filename]])
            (advance_count (d_sample_count st) (List.length samples))).
Proof.
  intros Hfile Hr ER Hsize EP. unfold DumpProtobufReport. rewrite Hfile.
  eapply DumpProtobufReport_loop_reads in Hr; [| apply Nat.lt_succ_diag_r].
  destruct Hr as [_ ->]. cbn [DumpProtobufReport_loop].
  apply Z.eqb_neq in Hsize. rewrite ER, Hsize, EP. reflexivity.
Qed.

(** X15: nothing after the terminator is read. Appending any bytes to a
    complete report (frames of sample records, then the terminator)
    changes neither what the dumper prints nor what it returns. *)
Theorem bytes_after_terminator_are_ignored
    {PC : ProtoCodec} {RT : Runtime}
    (valid : proto.Record_ -> Prop) {OK : ProtoCodecOk PC valid}
    (file1 file2 : string) (records : list proto.Record_)
    (trailing : list byte) (st : DumpState) :
  Forall valid records ->
  Forall (fun r => proto.type r = Record_Type_SAMPLE) records ->
  fopen_read file1 = Some (flat_map frame records ++ terminator) ->
  fopen_read file2 = Some (flat_map frame records ++ terminator ++ trailing) ->
  DumpProtobufReport file2 st = DumpProtobufReport file1 st
  /\ DumpProtobufReport file2 st
     = Some (true, dumped_state st (map proto.sample records)).
Proof.
  intros Hv Ht H1 H2.
  rewrite (DumpProtobufReport_frames valid file2 records trailing st Hv Ht H2).
  rewrite (DumpProtobufReport_frames valid file1 records [] st Hv Ht)
    by (rewrite app_nil_r; exact H1).
  split; reflexivity.
Qed.



Lemma Files_reads_garbage :
  reads_samples (PC := Wire.codec) Files.garbage
    (map proto.sample (firstn 1 Demo.written))
    (le_split 4 1 ++ [byte.of_Z 255]).
Proof.
  apply (reads_samples_frames (PC := Wire.codec) Wire.valid
           (OK := WireFacts.codec_ok)).
  - repeat constructor; vm_compute; congruence.
  - repeat constructor.
Qed.

Lemma unparsable_payload_is_fatal_witness :
  exists st',
    DumpProtobufReport (PC := Wire.codec) (RT := Files.world)
      "garbage.pb" Demo.process_start = Some (false, st')
    /\ d_sample_count st' = 1.
Proof.
  assert (Hread : ReadLittleEndian32 (le_split 4 1 ++ [byte.of_Z 255])
                  = Some (1, [byte.of_Z 255])) by reflexivity.
  assert (Hsize : 1 <> 0) by discriminate.
  assert (Hparse : ParseBytes (ProtoCodec := Wire.codec)
                     (firstn (Z.to_nat 1) [byte.of_Z 255]) = None)
    by (vm_compute; reflexivity).
  pose proof (unparsable_payload_is_fatal (PC := Wire.codec) (RT := Files.world)
                "garbage.pb" Files.garbage Demo.process_start
                (map proto.sample (firstn 1 Demo.written))
                (le_split 4 1 ++ [byte.of_Z 255]) 1 [byte.of_Z 255]
                eq_refl Files_reads_garbage Hread Hsize Hparse) as H.
  eexists. split; [exact H | reflexivity].
Defined.

Lemma bytes_after_terminator_are_ignored_witness :
  DumpProtobufReport (PC := Wire.codec) (RT := Files.world)
    "padded.pb" Demo.process_start
  = DumpProtobufReport (PC := Wire.codec) (RT := Files.world)
      "report.pb" Demo.process_start.
Proof.
  apply (bytes_after_terminator_are_ignored (PC := Wire.codec)
           (RT := Files.world) Wire.valid (OK := WireFacts.codec_ok)
           "report.pb" "padded.pb" Demo.written
           [byte.of_Z 1; byte.of_Z 2] Demo.process_start
           Demo_written_valid).
  - repeat constructor.
  - reflexivity.
  - reflexivity.
Defined.


(** ** More on the frames of a sample *)

Lemma classify_addresses_subset sample_ip initial ips f :
  In f (classify sample_ip initial ips) ->
  In (fst f) ips /\ is_sentinel (fst f) = false.
Proof.
  intros Hin. apply (in_map fst) in Hin.
  unfold classify in Hin. rewrite classify_addresses in Hin by reflexivity.
  assert (Hf : In (fst f) (filter is_address ips)).
  { destruct (filter is_address ips) as [| first later]; [contradiction |].
    destruct (first =? sample_ip); [right |]; exact Hin. }
  apply filter_In in Hf. destruct Hf as [H1 H2]. split; [exact H1 |].
  unfold is_address in H2. apply negb_true_iff in H2. exact H2.
Qed.

Lemma classify_length sample_ip initial ips :
  (List.length (classify sample_ip initial ips) <= List.length ips)%nat.
Proof.
  rewrite <- (length_map fst). unfold classify.
  rewrite classify_addresses by reflexivity.
  pose proof (filter_length_le is_address ips) as Hl.
  destruct (filter is_address ips) as [| first later]; [cbn; lia |].
  destruct (first =? sample_ip); cbn [List.length] in *; lia.
Qed.

(** X16: the frames after the leaf are addresses of the raw call chain.
    In both modes the resolved frames are never empty and at most one
    more than the raw call chain has values; every frame after the first
    has an address that occurs in the raw call chain and lies below the
    sentinel threshold, so no context marker is ever printed as a frame. *)
Theorem callers_are_addresses_of_the_chain
    {TT : ThreadTreeOps} {PC : ProtoCodec} {RT : Runtime}
    (opts : Options) (st : State) (r : SampleRecord) :
  exists leaf callers,
    proto.callchain (proto.sample
      (fst (fst (build_proto_record (show_callchain_ opts) (thread_tree_ st) r))))
    = leaf :: callers
    /\ f_text (report_fp_ (snd (PrintSampleRecord opts st r)))
       = f_text (report_fp_ st)
         ++ text_block (show_callchain_ opts) (time_data_time r) (leaf :: callers)
    /\ proto.ip leaf = ip_data_ip r
    /\ (List.length callers <= List.length (callchain_data_ips r))%nat
    /\ Forall (fun e => In (proto.ip e) (callchain_data_ips r)
                        /\ proto.ip e < PERF_CONTEXT_MAX)
              callers.
Proof.
  pose proof (PrintSampleRecord_spec opts st r) as Ht. cbv zeta in Ht.
  destruct Ht as (_ & Ht & _).
  rewrite build_proto_record_spec. cbn [fst proto.sample proto.callchain].
  unfold sample_chain in *.
  destruct (FindThreadOrNew (thread_tree_ st) (tid_data_pid r) (tid_data_tid r))
    as [tree' thread].
  eexists _, _. split; [reflexivity |]. split; [exact Ht |].
  split; [reflexivity |].
  destruct (show_callchain_ opts).
  - split.
    + rewrite length_map. apply classify_length.
    + apply Forall_forall. intros e He. apply in_map_iff in He.
      destruct He as (f & <- & Hf).
      apply classify_addresses_subset in Hf. destruct Hf as [H1 H2].
      cbn [resolve_frame resolve_entry proto.ip]. split; [exact H1 |].
      apply Z.leb_gt. exact H2.
  - split; [cbn; lia | constructor].
Qed.

(** X17: the skip is tried once. When the first address of the raw call
    chain (after any sentinels) is not the sample's own, nothing is
    skipped at all: the frames are the leaf and then every address of
    the chain in order, also later ones equal to the leaf. *)
Theorem nothing_skipped_when_first_address_differs
    {TT : ThreadTreeOps} {PC : ProtoCodec} {RT : Runtime}
    (opts : Options) (st : State) (r : SampleRecord)
    (sentinels later : list Z) (first : Z) :
  show_callchain_ opts = true ->
  callchain_data_ips r = sentinels ++ first :: later ->
  forallb is_sentinel sentinels = true ->
  is_sentinel first = false ->
  first <> ip_data_ip r ->
  exists chain,
    proto.callchain (proto.sample
      (fst (fst (build_proto_record (show_callchain_ opts) (thread_tree_ st) r))))
    = chain
    /\ f_text (report_fp_ (snd (PrintSampleRecord opts st r)))
       = f_text (report_fp_ st) ++ text_block true (time_data_time r) chain
    /\ map proto.ip chain
       = ip_data_ip r :: filter is_address (callchain_data_ips r)
    /\ map proto.ip chain = ip_data_ip r :: first :: filter is_address later.
Proof.
  intros Hshow Hips Hsent Hfirst Hne.
  exists (sample_chain true (thread_tree_ st) r).
  assert (Hfilter : filter is_address (callchain_data_ips r)
                    = first :: filter is_address later).
  { rewrite Hips, filter_app. cbn [filter]. unfold is_address at 2.
    rewrite Hfirst. cbn [negb].
    assert (Hnil : filter is_address sentinels = []).
    { clear Hips. induction sentinels as [| x xs IH]; [reflexivity |].
      cbn [forallb] in Hsent. apply andb_true_iff in Hsent.
      destruct Hsent as [Hx Hxs]. cbn [filter]. unfold is_address at 1.
      rewrite Hx. cbn [negb]. apply IH. exact Hxs. }
    rewrite Hnil. reflexivity. }
  assert (Hmap : map proto.ip (sample_chain true (thread_tree_ st) r)
                 = ip_data_ip r :: first :: filter is_address later).
  { unfold sample_chain, classify.
    destruct (FindThreadOrNew (thread_tree_ st) (tid_data_pid r) (tid_data_tid r))
      as [tree' thread].
    cbn [map proto.ip resolve_entry]. f_equal.
    rewrite ip_resolve_frame, classify_addresses by reflexivity.
    rewrite Hfilter. apply Z.eqb_neq in Hne. rewrite Hne. reflexivity. }
  repeat split.
  - rewrite build_proto_record_spec, Hshow. reflexivity.
  - pose proof (PrintSampleRecord_spec opts st r) as Ht. cbv zeta in Ht.
    rewrite Hshow in Ht. apply Ht.
  - rewrite Hfilter. exact Hmap.
  - exact Hmap.
Qed.

Lemma nothing_skipped_when_first_address_differs_witness :
  map proto.ip
    (proto.callchain (proto.sample
       (fst (fst (build_proto_record (TT := Demo.thread_tree) (PC := Wire.codec)
                    true [] Demo.sample3)))))
  = [5000; 4100; 77; 4200].
Proof.
  destruct (nothing_skipped_when_first_address_differs (TT := Demo.thread_tree)
              (PC := Wire.codec) (RT := Demo.world)
              Demo.protobuf_options Demo.state_start Demo.sample3
              [] [PERF_CONTEXT_KERNEL; 77; PERF_CONTEXT_USER; 4200] 4100
              eq_refl eq_refl eq_refl eq_refl)
    as (chain & Hchain & _ & _ & Hips); [discriminate |].
  subst chain. exact Hips.
Defined.

(** X18: a raw call chain of sentinels alone adds no frame. With call
    chains shown and nothing but context markers and other sentinels in
    the chain, only the leaf is emitted, in both modes, and every
    sentinel that is neither marker is still logged. *)
Theorem sentinels_alone_add_no_frame
    {TT : ThreadTreeOps} {PC : ProtoCodec} {RT : Runtime}
    (opts : Options) (st : State) (r : SampleRecord) :
  show_callchain_ opts = true ->
  forallb is_sentinel (callchain_data_ips r) = true ->
  let tt := FindThreadOrNew (thread_tree_ st) (tid_data_pid r) (tid_data_tid r) in
  let leaf := resolve_entry (fst tt) (snd tt) (ip_data_ip r) (InKernel r) in
  build_proto_record (show_callchain_ opts) (thread_tree_ st) r
  = (proto.mkRecord Record_Type_SAMPLE (proto.mkSample (time_data_time r) [leaf]),
     fst tt,
     map unexpected_perf_context
       (filter (fun ip => negb (is_context_marker ip)) (callchain_data_ips r)))
  /\ f_text (report_fp_ (snd (PrintSampleRecord opts st r)))
     = f_text (report_fp_ st)
       ++ [ mkPrint 0 "sample:\n" [];
            mkPrint 1 "time: %PRIu64\n" [ArgU64 (time_data_time r)] ]
       ++ entry_lines 1 leaf ++ [mkPrint 1 "callchain:\n" []].
Proof.
  intros Hshow Hsent. cbv zeta.
  pose proof (PrintSampleRecord_spec opts st r) as Ht. cbv zeta in Ht.
  destruct Ht as (_ & Ht & _).
  rewrite build_proto_record_spec, Ht, Hshow.
  unfold sample_chain, classify.
  destruct (FindThreadOrNew (thread_tree_ st) (tid_data_pid r) (tid_data_tid r))
    as [tree' thread]. cbn [fst snd].
  rewrite classify_from_sentinels by exact Hsent. cbn [map].
  split.
  - f_equal. unfold unexpected_contexts. f_equal.
    apply filter_ext_in. intros ip Hin.
    rewrite forallb_forall in Hsent. rewrite (Hsent ip Hin). reflexivity.
  - unfold text_block. cbn [firstn skipn flat_map]. rewrite app_nil_r.
    reflexivity.
Qed.



Lemma sentinels_alone_add_no_frame_witness :
  List.length
    (proto.callchain (proto.sample
       (fst (fst (build_proto_record (TT := Demo.thread_tree) (PC := Wire.codec)
                    true [] Chains.markers_only)))))
  = 1%nat.
Proof.
  destruct (sentinels_alone_add_no_frame (TT := Demo.thread_tree)
              (PC := Wire.codec) (RT := Demo.world)
              Demo.protobuf_options Demo.state_start Chains.markers_only
              eq_refl eq_refl) as [H _].
  exact (f_equal (fun x => List.length
                             (proto.callchain (proto.sample (fst (fst x))))) H).
Defined.


(** ** Counting the blocks of a text report *)



Lemma no_header_in_frames indent chain :
  filter is_sample_header (flat_map (entry_lines indent) chain) = [].
Proof.
  induction chain as [| e chain IH]; [reflexivity |].
  cbn [flat_map]. rewrite filter_app, IH, app_nil_r.
  unfold entry_lines, is_sample_header. cbn [filter pc_indent pc_fmt].
  rewrite !andb_false_r. reflexivity.
Qed.

Lemma one_header_in_text_block show time chain :
  filter is_sample_header (text_block show time chain)
  = [mkPrint 0 "sample:\n" []].
Proof.
  unfold text_block. rewrite !filter_app, no_header_in_frames.
  destruct show.
  - cbn [filter]. rewrite no_header_in_frames. reflexivity.
  - reflexivity.
Qed.

Lemma headers_in_text_report {TT : ThreadTreeOps} show : forall records tree,
  filter is_sample_header (text_report show tree records)
  = repeat (mkPrint 0 "sample:\n" []) (List.length (sample_records records)).
Proof.
  induction records as [| [r | ty] records IH]; intros tree;
    cbn [text_report sample_records]; [reflexivity | | apply IH].
  rewrite filter_app, one_header_in_text_block, IH. reflexivity.
Qed.

(** X19: a text report has one block per sample record. Among the lines
    a run in text mode prints, the header [sample:] occurs exactly once
    for every sample record of the capture, whether call chains are
    shown or not and whatever the records resolve to. *)
Theorem text_report_has_one_header_per_sample
    {TT : ThreadTreeOps} {PC : ProtoCodec} {RT : Runtime}
    (args : list string) (o : Options) (records : list PerfRecord)
    (read_ok : bool) (process : DumpState) (out : Outcome) :
  ParseOptions args = inl o ->
  dump_protobuf_report_file_ o = "" ->
  use_protobuf_ o = false ->
  open_record_file (record_filename_ o) = Some (records, read_ok) ->
  report_filename_ o = "" \/ fopen_write (report_filename_ o) = true ->
  Run args process = Some out ->
  List.length (filter is_sample_header (f_text (report_fp_ (final out))))
  = List.length (sample_records records).
Proof.
  intros Hparse Hdump Htext Hopen Hreport Hrun.
  pose proof (ReadDataSection_text o read_ok records State_init Htext) as H.
  cbv zeta in H. destruct H as (_ & H2 & _).
  assert (Hcond : negb (report_filename_ o =? "")%string
                  && negb (fopen_write (report_filename_ o)) = false).
  { destruct Hreport as [-> | ->]; [reflexivity | apply andb_false_r]. }
  unfold Run in Hrun. rewrite Hparse, Hdump, Hopen, Htext, Hcond in Hrun.
  cbn [String.eqb negb] in Hrun.
  destruct (ReadDataSection o records read_ok State_init) as [ok st].
  cbn [fst snd] in *.
  assert (Hlen : List.length (filter is_sample_header (f_text (report_fp_ st)))
                 = List.length (sample_records records)).
  { rewrite H2. cbn [State_init report_fp_ FILE_empty f_text app].
    rewrite headers_in_text_report. apply repeat_length. }
  destruct (negb ok); [injection Hrun as <-; exact Hlen |].
  destruct (f_error (report_fp_ (add_log st _)));
    injection Hrun as <-; exact Hlen.
Qed.

Lemma Demo_text_run :
  exists out,
    Run (TT := Demo.thread_tree) (PC := Wire.codec) (RT := Demo.world)
        ["--show-callchain"] Demo.process_start = Some out.
Proof. eexists. vm_compute. reflexivity. Qed.

Lemma text_report_has_one_header_per_sample_witness :
  exists out,
    Run (TT := Demo.thread_tree) (PC := Wire.codec) (RT := Demo.world)
        ["--show-callchain"] Demo.process_start = Some out
    /\ List.length (filter is_sample_header (f_text (report_fp_ (final out))))
       = 2%nat.
Proof.
  destruct Demo_text_run as (out & Hrun).
  exists out. split; [exact Hrun |].
  exact (text_report_has_one_header_per_sample (TT := Demo.thread_tree)
           (PC := Wire.codec) (RT := Demo.world)
           ["--show-callchain"] Demo.text_options Demo.records true
           Demo.process_start out eq_refl eq_refl eq_refl eq_refl
           (or_introl eq_refl) Hrun).
Defined.


(** ** When a record fails *)

(** X7: processing a record fails only on a write error in binary mode.
    [ProcessRecord] returns false exactly when the record is a sample,
    the mode is binary and the coded stream has an error after the
    record was written; it then logs the failure. In text mode and on
    records of other types it returns true, and a record of another type
    changes nothing but the thread tree. Once the stream has an error a
    sample writes no byte. *)
Theorem ProcessRecord_fails_only_on_write_error
    {TT : ThreadTreeOps} {PC : ProtoCodec} {RT : Runtime}
    (opts : Options) (st : State) (record : PerfRecord) :
  let out := ProcessRecord opts st record in
  (fst out = false <->
   use_protobuf_ opts = true
   /\ (exists r, record = SampleRec r)
   /\ coded_os_HadError (snd out) = true)
  /\ (fst out = false ->
      log_ (snd out)
      = log_ st
        ++ (if show_callchain_ opts
            then match record with
                 | SampleRec r => unexpected_contexts (callchain_data_ips r)
                 | OtherRec _ => []
                 end
            else [])
        ++ [mkLog ERROR [LStr "failed to write sample to protobuf"]])
  /\ (forall type, record = OtherRec type ->
      snd out = set_thread_tree st (Update (thread_tree_ st) record))
  /\ (coded_os_HadError st = true -> use_protobuf_ opts = true ->
      f_bytes (report_fp_ (snd out)) = f_bytes (report_fp_ st)).
Proof.
  cbv zeta. unfold ProcessRecord.
  destruct record as [r | ty].
  2:{ cbn [fst snd]. split; [| split; [| split]].
      - split; [discriminate |]. intros (_ & (r & Hr) & _). discriminate.
      - discriminate.
      - reflexivity.
      - reflexivity. }
  cbn [set_thread_tree thread_tree_ report_fp_ coded_os_HadError
       sample_count_ log_].
  match goal with
  | |- context [PrintSampleRecordInProtobuf opts ?s r] => set (st1 := s)
  end.
  destruct (use_protobuf_ opts) eqn:Hmode.
  - pose proof (PrintSampleRecordInProtobuf_spec opts st1 r) as Hs.
    cbv zeta in Hs. destruct Hs as (_ & _ & Hneg & Hs).
    split; [| split; [| split]].
    + rewrite Hneg. split.
      * intros H. apply negb_false_iff in H. eauto.
      * intros (_ & _ & H). rewrite H. reflexivity.
    + intros Hfalse. clear Hs Hneg.
      unfold PrintSampleRecordInProtobuf in *.
      rewrite build_proto_record_spec in *.
      unfold SerializeToCodedStream in *.
      match goal with
      | H : fst (if negb ?b then _ else _) = false |- _ =>
          destruct b; cbn [negb fst snd] in *; [| discriminate]
      end.
      cbn [add_log set_coded_os log_]. subst st1. cbn [log_].
      rewrite <- app_assoc. reflexivity.
    + discriminate.
    + intros He _. clear Hs Hneg.
      unfold PrintSampleRecordInProtobuf.
      rewrite build_proto_record_spec.
      unfold SerializeToCodedStream, WriteLittleEndian32.
      rewrite !(WriteRaw_error _ (coded_os_ _)) by exact He.
      match goal with
      | |- context [if negb ?b then _ else _] => destruct (negb b)
      end; reflexivity.
  - pose proof (PrintSampleRecord_spec opts st1 r) as Hs. cbv zeta in Hs.
    destruct Hs as (Hok & _).
    split; [| split; [| split]].
    + rewrite Hok. split; [discriminate |]. intros (H & _). discriminate.
    + rewrite Hok. discriminate.
    + discriminate.
    + discriminate.
Qed.
